(** * Credential-stuffing detection: scoring, detection cycle and sanction lifecycle

    A shallow embedding of [app/venv1/generate_access_logs.py] (module
    [Generator]) and of the sanction routes of [app/dashboard.py] (module
    [Dashboard]), followed by the properties proved about them.

    Conventions of the embedding.
    - Python numbers are rationals [Q]. A float is the rational it stands
      for: [float] rounds to the nearest double, ties to even, and the
      divisions, products and sums the source makes on durations and on the
      success rate are rounded with it, as CPython 3.11 makes them (its [sum]
      adds from left to right). [round(x, 2)] is rounding to hundredths, ties
      to even, of the number the float stands for; a score component is the
      hundredth it prints as, and the sum of the six components, being
      rounded to hundredths, is the sum of these hundredths.
    - A [datetime] is a number of microseconds [Z]; a [timedelta] too.
    - A JSON object read with [.get(key)] has [option] fields, [None] standing
      for an absent key; Python truthiness of a string is [truthy].
    - The JSON files are the fields of [World]; [save_json] logs its path.
    - The clock does not advance during one call: every [dt.now()] of a call
      reads its argument [now].
    - What the source takes from Python's library ([strptime], [math.exp],
      [isoformat], [str.lower], the order in which a set is listed, ...) is
      the interface [Runtime]. *)

From Stdlib Require Import QArith Qround Qminmax Qpower Lqa ZArith Lia List Ascii String.
From stdpp Require Import base option list sorting gmap strings fin_maps fin_sets.

Close Scope Q_scope.
Open Scope string_scope.
Open Scope list_scope.
Open Scope Z_scope.

(** ** Numbers *)

Definition Qltb (x y : Q) : bool := negb (Qle_bool y x).
Definition Qgeb (x y : Q) : bool := Qle_bool y x.

(** Python's [min(a, b)]: [b] when [b < a], else [a]. *)
Definition py_min (a b : Q) : Q := if Qltb b a then b else a.
(** Python's [max(a, b)]: [b] when [b > a], else [a]. *)
Definition py_max (a b : Q) : Q := if Qltb a b then b else a.

(** Nearest integer, ties to the even one. *)
Definition round_half_even (q : Q) : Z :=
  let f := Qfloor q in
  match Qcompare (q - inject_Z f) (1 # 2) with
  | Lt => f
  | Gt => f + 1
  | Eq => if Z.even f then f else f + 1
  end.

(** [round(q, 2)] *)
Definition round2 (q : Q) : Q := Qmake (round_half_even (q * 100)) 100.

Definition Qsum (l : list Q) : Q := fold_left Qplus l 0%Q.

(** ** Floats

    A Python [float] is a double of IEEE 754. The numbers the source puts in
    floats are durations between two [datetime]s and ratios of counts, far
    below the largest double, so that rounding never overflows. *)

(** [2.0 ** e] *)
Definition pow2 (e : Z) : Q := Qpower 2 e.

(** The exponent of the last place of the double nearest to [x > 0]: [x] is
    below [2 ** (e + 53)], and not below [2 ** (e + 52)] unless the double is
    subnormal, where [e] is -1074. *)
Definition last_place (x : Q) : Z :=
  let k := Z.log2 (Qnum x) - Z.log2 (Zpos (Qden x)) in
  let l := if Qle_bool (pow2 k) x then k else k - 1 in
  Z.max (l - 52) (-1074).

(** The double nearest to [x > 0]: the nearest multiple of [2 ** e], ties to
    the even one. *)
Definition nearest_double (x : Q) : Q :=
  let e := last_place x in
  (inject_Z (round_half_even (x / pow2 e)) * pow2 e)%Q.

(** The float a real number is rounded to. *)
Definition float (x : Q) : Q :=
  Qred match Qcompare x 0 with
       | Eq => 0%Q
       | Gt => nearest_double x
       | Lt => (- nearest_double (- x))%Q
       end.

(** [a + b], [a * b] and [a / b] on floats, and on an int and a float. *)
Definition float_add (a b : Q) : Q := float (a + b).
Definition float_mul (a b : Q) : Q := float (a * b).
Definition float_div (a b : Q) : Q := float (a / b).

(** [sum(l)] on a list of floats: from 0, one addition per item. *)
Definition py_sum (l : list Q) : Q := fold_left float_add l 0%Q.

Arguments float : simpl never.
Arguments float_add : simpl never.
Arguments float_mul : simpl never.
Arguments float_div : simpl never.
Arguments py_sum : simpl never.

#[global] Instance Qle_dec : RelDecision Qle.
Proof.
  intros x y. destruct (Qlt_le_dec y x) as [H|H].
  - right. apply Qlt_not_le. exact H.
  - left. exact H.
Defined.

(** ** Python lists and strings *)

(** [l[-n:]] for [n > 0] *)
Definition lastn {A} (n : nat) (l : list A) : list A :=
  skipn (length l - n) l.

(** [l[i:j]] for [0 <= i] and [0 <= j] *)
Definition slice {A} (i j : nat) (l : list A) : list A :=
  skipn i (firstn j l).

(** Truthiness of the result of [d.get(key)] for a string value. *)
Definition truthy (o : option string) : option string :=
  match o with
  | Some "" => None
  | other => other
  end.

Definition in_list (x : string) (l : list string) : bool :=
  existsb (String.eqb x) l.

(** [needle in hay] *)
Fixpoint contains (needle hay : string) : bool :=
  match hay with
  | EmptyString => String.prefix needle hay
  | String _ rest => (String.prefix needle hay || contains needle rest)%bool
  end.

(** ** What the source takes from Python's library *)

Class Runtime := {
  (** [datetime.strptime(s, fmt)]: [None] stands for [ValueError] *)
  strptime : string -> string -> option Z;
  (** [t.strftime(fmt)] *)
  strftime : Z -> string -> string;
  (** [math.exp] *)
  exp : Q -> Q;
  (** [t.isoformat()] *)
  isoformat : Z -> string;
  (** [datetime.fromisoformat(s)]: [None] stands for the [try] block of its
      caller raising *)
  fromisoformat : string -> option Z;
  (** [s.lower()] *)
  lower : string -> string;
  (** [list(s)] and [for x in s] for a set of strings: its members, once
      each, in the order the interpreter keeps them in, which changes with
      the hash seed of the process *)
  listing : gset string -> list string;
  listing_members : forall s, listing s ≡ₚ elements s
}.

(** [timedelta(minutes=m)] *)
Definition minutes (m : Z) : Z := m * 60 * 1000000.
(** [delta.total_seconds()]: the microseconds divided by [10**6], as a
    float. *)
Definition total_seconds (delta : Z) : Q :=
  float_div (inject_Z delta) (inject_Z (10 ^ 6)).

(** ** Data model *)

Inductive Severity := LOW | MEDIUM | HIGH | CRITICAL.

#[global] Instance Severity_eq_dec : EqDecision Severity.
Proof. solve_decision. Defined.

(** One entry of [events.json]. *)
Record Event := {
  ev_date : option string;
  ev_time : option string;
  ev_ip : option string;
  ev_user : option string;
  ev_status : option string;
  ev_ua : option string;
  ev_country : option string
}.

(** The six entries of [score_components], and of [SCORING_WEIGHTS]. *)
Record ScoreComponents := {
  failed_attempts : Q;
  attack_speed : Q;
  tool_detection : Q;
  geographic_risk : Q;
  user_spread : Q;
  persistence : Q
}.

(** The messages appended to [reasons], with the values they format. *)
Inductive Reason :=
| FailedLogins (num_fails : nat) (ratio : Q)
| VeryFastAttack (avg : Q)
| FastAttack (avg : Q)
| ModerateAttack (avg : Q)
| AutomatedTool (ua : string)
| HighRiskCountry (c : string)
| MediumRiskCountry (c : string)
| CredentialStuffing (num_users : nat)
| MultipleUsers (num_users : nat)
| SeveralUsers (num_users : nat)
| PersistentAttack (span_minutes : Q)
| SustainedAttack (span_minutes : Q)
| SensitiveAccounts (targets : list string).

(** [aggregated_stats] as returned (its sets turned into lists). *)
Record AggregatedStats := {
  st_total_attempts : nat;
  st_failed_attempts : nat;
  st_success_attempts : nat;
  st_unique_users : list string;
  st_countries : list string;
  st_user_agents : list string;
  st_targeted_hvt : list string;
  st_first_seen : option string;
  st_last_seen : option string
}.

(** One entry of [threat_scores.json]; [ts_stats = None] is the empty dict. *)
Record ThreatScore := {
  ts_entity_type : string;
  ts_entity_value : string;
  ts_score : Q;
  ts_severity : Severity;
  ts_reasons : list Reason;
  ts_components : ScoreComponents;
  ts_stats : option AggregatedStats
}.

(** One entry of [sanctions.json]. *)
Record Sanction := {
  sn_entity_type : string;
  sn_entity_value : string;
  sn_score : Q;
  sn_severity : Severity;
  sn_action : string;
  sn_description : string;
  sn_blocked : bool;
  sn_active : bool;
  sn_created_at : string;
  sn_expires_at : option string;
  sn_reasons : list Reason;
  sn_components : ScoreComponents;
  sn_rate_limit : option string;
  sn_requires_manual_review : option bool
}.

(** One entry of [alerts.json]; the engine reads [type] and [ip] with [.get]. *)
Record Alert := {
  al_type : option string;
  al_ip : option string;
  al_score : Q;
  al_severity : Severity;
  al_reasons : list Reason;
  al_total_attempts : nat;
  al_failed_attempts : nat;
  al_unique_users : nat;
  al_countries : list string;
  al_date : string;
  al_time : string
}.

(** ** The JSON files *)

Definition ALERT_FILE := "alerts.json".
Definition SCORES_FILE := "threat_scores.json".
Definition SANCTIONS_FILE := "sanctions.json".

(** The content of the three files the engine and the dashboard share, and
    the log of the paths [save_json] was called with. A file that is absent
    or unreadable is loaded as the empty collection by [load_json], and is
    that collection here. *)
Record World := {
  alerts_json : list Alert;
  scores_json : gmap string ThreatScore;
  sanctions_json : gmap string Sanction;
  saved : list string
}.

(** [load_json(path)], one per file. *)
Definition load_alerts (w : World) : list Alert := alerts_json w.
Definition load_scores (w : World) : gmap string ThreatScore := scores_json w.
Definition load_sanctions (w : World) : gmap string Sanction := sanctions_json w.

(** [save_json(path, data)], one per file. *)
Definition save_alerts (data : list Alert) (w : World) : World :=
  {| alerts_json := data; scores_json := scores_json w;
     sanctions_json := sanctions_json w; saved := saved w ++ [ALERT_FILE] |}.
Definition save_scores (data : gmap string ThreatScore) (w : World) : World :=
  {| alerts_json := alerts_json w; scores_json := data;
     sanctions_json := sanctions_json w; saved := saved w ++ [SCORES_FILE] |}.
Definition save_sanctions (data : gmap string Sanction) (w : World) : World :=
  {| alerts_json := alerts_json w; scores_json := scores_json w;
     sanctions_json := data; saved := saved w ++ [SANCTIONS_FILE] |}.

(** * app/venv1/generate_access_logs.py *)

Module Generator.

(** ** Configuration *)

Definition SCORING_WEIGHTS : ScoreComponents := {|
  failed_attempts := 25;
  attack_speed := 20;
  tool_detection := 15;
  geographic_risk := 10;
  user_spread := 15;
  persistence := 15
|}.

Definition BRUTE_FORCE_FAIL_THRESHOLD : nat := 5.
Definition USER_SPREAD_THRESHOLD : nat := 4.
Definition PERSISTENCE_MINUTES : Q := 15.
Definition HIGH_VALUE_TARGETS : list string :=
  ["admin"; "root"; "security"; "finance"; "backup"; "superuser"; "dbadmin"].

Definition SUSPICIOUS_USER_AGENTS : list string :=
  ["hydra"; "sqlmap"; "masscan"; "nikto"; "nmap";
   "burp"; "metasploit"; "python-requests"; "curl"; "wget"].

Definition HIGH_RISK_COUNTRIES : list string := ["RU"; "CN"; "KP"; "BR"].
Definition MEDIUM_RISK_COUNTRIES : list string := ["US"; "MO"].

Definition LOCAL_IPS : list string :=
  ["192.168.1.10"; "192.168.1.15"; "192.168.1.50"; "10.0.0.7"].

(** One entry of [SANCTIONS]. *)
Record SanctionConfig := {
  cfg_action : string;
  cfg_duration_minutes : option Z;
  cfg_description : string;
  cfg_block : bool;
  cfg_rate_limit : option string;
  cfg_requires_manual_review : option bool
}.

(** [SANCTIONS.get(severity)]: no entry for [LOW]. *)
Definition SANCTIONS (severity : Severity) : option SanctionConfig :=
  match severity with
  | MEDIUM => Some {|
      cfg_action := "RATE_LIMIT";
      cfg_duration_minutes := Some 60;
      cfg_description := "Limitation du taux de requêtes (1/5s)";
      cfg_block := false;
      cfg_rate_limit := Some "1/5s";
      cfg_requires_manual_review := None |}
  | HIGH => Some {|
      cfg_action := "TEMPORARY_BLOCK";
      cfg_duration_minutes := Some 180;
      cfg_description := "Blocage temporaire (3 heures)";
      cfg_block := true;
      cfg_rate_limit := None;
      cfg_requires_manual_review := None |}
  | CRITICAL => Some {|
      cfg_action := "PERMANENT_BLOCK";
      cfg_duration_minutes := None;
      cfg_description := "Blocage permanent - Révision manuelle requise";
      cfg_block := true;
      cfg_rate_limit := None;
      cfg_requires_manual_review := Some true |}
  | LOW => None
  end.

(** ** Utilities *)

Section WithRuntime.
Context `{RT : Runtime}.

(** [parse_datetime(date_str, time_str)]; [now] is what [dt.now()] returns. *)
Definition parse_datetime (now : Z) (date_str time_str : string) : Z :=
  let s := date_str +:+ " " +:+ time_str in
  match strptime s "%Y-%m-%d %H:%M:%S.%f" with
  | Some t => t
  | None =>
      match strptime s "%Y-%m-%d %H:%M:%S" with
      | Some t => t
      | None => now
      end
  end.

(** [get_severity_level(score)] *)
Definition get_severity_level (score : Q) : Severity :=
  if Qgeb score 86 then CRITICAL
  else if Qgeb score 61 then HIGH
  else if Qgeb score 31 then MEDIUM
  else LOW.

(** ** Score of one IP *)

(** The counters and sets of [aggregated_stats] while the events are read,
    and [times]. *)
Record Tally := {
  n_failed : nat;
  n_success : nat;
  users : gset string;
  seen_countries : gset string;
  seen_user_agents : gset string;
  hvt : gset string;
  times : list Z
}.

Definition empty_tally : Tally := {|
  n_failed := 0; n_success := 0; users := ∅; seen_countries := ∅;
  seen_user_agents := ∅; hvt := ∅; times := []
|}.

(** The body of [for e in recent]. The [try] around [parse_datetime] never
    reaches its [except]: [parse_datetime] returns [dt.now()] instead of
    raising. *)
Definition tally_event (now : Z) (a : Tally) (e : Event) : Tally :=
  let failed :=
    if bool_decide (ev_status e = Some "FAIL") then S (n_failed a) else n_failed a in
  let success :=
    if bool_decide (ev_status e = Some "FAIL") then n_success a
    else if bool_decide (ev_status e = Some "SUCCESS") then S (n_success a)
    else n_success a in
  let '(users', hvt') :=
    match truthy (ev_user e) with
    | Some user =>
        (users a ∪ {[user]},
         if in_list user HIGH_VALUE_TARGETS then hvt a ∪ {[user]} else hvt a)
    | None => (users a, hvt a)
    end in
  let countries' :=
    match truthy (ev_country e) with
    | Some country => seen_countries a ∪ {[country]}
    | None => seen_countries a
    end in
  let user_agents' :=
    match truthy (ev_ua e) with
    | Some ua => seen_user_agents a ∪ {[ua]}
    | None => seen_user_agents a
    end in
  let t := parse_datetime now (default "" (ev_date e)) (default "" (ev_time e)) in
  {| n_failed := failed; n_success := success; users := users';
     seen_countries := countries'; seen_user_agents := user_agents';
     hvt := hvt'; times := times a ++ [t] |}.

Definition tally (now : Z) (recent : list Event) : Tally :=
  fold_left (tally_event now) recent empty_tally.

(** [aggregated_stats] once the sets are lists; [sorted_times] is
    [sorted(times)]. Each set is listed by [list(...)], in the order of the
    interpreter. *)
Definition stats_of (recent : list Event) (a : Tally) (sorted_times : list Z)
  : AggregatedStats := {|
  st_total_attempts := length recent;
  st_failed_attempts := n_failed a;
  st_success_attempts := n_success a;
  st_unique_users := listing (users a);
  st_countries := listing (seen_countries a);
  st_user_agents := listing (seen_user_agents a);
  st_targeted_hvt := listing (hvt a);
  st_first_seen := (fun t => strftime t "%Y-%m-%d %H:%M:%S") <$> head sorted_times;
  st_last_seen := (fun t => strftime t "%Y-%m-%d %H:%M:%S") <$> last sorted_times
|}.

(** Each block below returns the value its component ends with and the
    reasons it appends. *)

(** [# Failed attempts] *)
Definition score_failed_attempts (num_fails total : nat) : Q * list Reason :=
  let fail_thresh := BRUTE_FORCE_FAIL_THRESHOLD in
  if Nat.leb fail_thresh num_fails then
    let over := (Z.of_nat num_fails - (Z.of_nat fail_thresh - 1))%Z in
    let max_weight := failed_attempts SCORING_WEIGHTS in
    let sc := py_min max_weight
                (round2
                   (float_mul max_weight
                      (float (1 - exp (float_div (inject_Z (- over)) 3))))) in
    let ratio :=
      float_mul (float_div (inject_Z (Z.of_nat num_fails)) (inject_Z (Z.of_nat total)))
        100 in
    (sc, [FailedLogins num_fails ratio])
  else (0%Q, []).

(** [[(times[i]-times[i-1]).total_seconds() for i in range(1, len(times))]] *)
Fixpoint gaps (ts : list Z) : list Q :=
  match ts with
  | t0 :: ((t1 :: _) as rest) => total_seconds (t1 - t0) :: gaps rest
  | _ => []
  end.

(** [sum(l)/len(l)], in floats. *)
Definition mean (l : list Q) : Q :=
  float_div (py_sum l) (inject_Z (Z.of_nat (length l))).

(** The tiers on [avg]; the literals [0.25], [0.6] and [1.5] are the floats
    nearest to them. *)
Definition speed_tier (avg : Q) : Q * list Reason :=
  let w := attack_speed SCORING_WEIGHTS in
  if Qltb avg (float (25 # 100)) then (w, [VeryFastAttack avg])
  else if Qltb avg (float (6 # 10)) then
    (round2 (float_mul w (float (8 # 10))), [FastAttack avg])
  else if Qltb avg (float (15 # 10)) then
    (round2 (float_mul w (float (5 # 10))), [ModerateAttack avg])
  else (0%Q, []).

(** [# Attack speed]; [int(n*0.1)] is [n / 10]: the float product of a
    number of gaps by [0.1] has the integer part of the tenth. *)
Definition score_attack_speed (sorted_times : list Z) : Q * list Reason :=
  if Nat.leb 3 (length sorted_times) then
    let diffs := gaps sorted_times in
    let diffs_sorted := merge_sort Qle diffs in
    let n := length diffs_sorted in
    let cut := Nat.max 1 (n / 10) in
    let trimmed :=
      if Nat.ltb (2 * cut) n then slice cut (n - cut) diffs_sorted
      else diffs_sorted in
    match trimmed with
    | [] => (0%Q, [])
    | _ => speed_tier (mean trimmed)
    end
  else (0%Q, []).

Definition is_suspicious (ua : string) : bool :=
  let ua_l := lower ua in
  existsb (fun bot => contains bot ua_l) SUSPICIOUS_USER_AGENTS.

(** [# Tool detection] *)
Definition score_tool_detection (user_agents : list string) : Q * list Reason :=
  match find is_suspicious user_agents with
  | Some ua =>
      (tool_detection SCORING_WEIGHTS, [AutomatedTool (String.substring 0 40 ua)])
  | None => (0%Q, [])
  end.

(** The loop of [# Geographic risk], from [geo_score] and the reasons so far. *)
Fixpoint geo_loop (countries : list string) (geo_score : Q) (reasons : list Reason)
  : Q * list Reason :=
  match countries with
  | [] => (geo_score, reasons)
  | c :: rest =>
      if in_list c HIGH_RISK_COUNTRIES then
        (py_max geo_score (geographic_risk SCORING_WEIGHTS),
         reasons ++ [HighRiskCountry c])
      else if in_list c MEDIUM_RISK_COUNTRIES then
        geo_loop rest
          (py_max geo_score (inject_Z (Qfloor (geographic_risk SCORING_WEIGHTS / 2))))
          (reasons ++ [MediumRiskCountry c])
      else geo_loop rest geo_score reasons
  end.

(** [# Geographic risk] *)
Definition score_geographic_risk (countries : list string) : Q * list Reason :=
  geo_loop countries 0%Q [].

(** [# User spread] *)
Definition score_user_spread (num_users : nat) : Q * list Reason :=
  let w := user_spread SCORING_WEIGHTS in
  if Nat.leb 15 num_users then (w, [CredentialStuffing num_users])
  else if Nat.leb 8 num_users then
    (round2 (float_mul w (float (8 # 10))), [MultipleUsers num_users])
  else if Nat.leb USER_SPREAD_THRESHOLD num_users then
    (round2 (float_mul w (float (5 # 10))), [SeveralUsers num_users])
  else (0%Q, []).

(** [# Persistence] *)
Definition score_persistence (sorted_times : list Z) : Q * list Reason :=
  if Nat.leb 2 (length sorted_times) then
    match head sorted_times, last sorted_times with
    | Some t_first, Some t_last =>
        let span_minutes := float_div (total_seconds (t_last - t_first)) 60 in
        let pers_weight := persistence SCORING_WEIGHTS in
        if Qgeb span_minutes PERSISTENCE_MINUTES then
          (pers_weight, [PersistentAttack span_minutes])
        else if Qgeb span_minutes (PERSISTENCE_MINUTES / 2) then
          (round2 (float_mul pers_weight (float (6 # 10))),
           [SustainedAttack span_minutes])
        else (0%Q, [])
    | _, _ => (0%Q, [])
    end
  else (0%Q, []).

(** [# High value targets bonus], applied to the user-spread component. *)
Definition hvt_bonus (targeted_hvt : list string) (spread : Q) : Q * list Reason :=
  match targeted_hvt with
  | [] => (spread, [])
  | _ => (py_min 100 (spread + 5), [SensitiveAccounts (firstn 3 targeted_hvt)])
  end.

(** [sum(score_components.values())] *)
Definition sum_components (c : ScoreComponents) : Q :=
  Qsum [failed_attempts c; attack_speed c; tool_detection c;
        geographic_risk c; user_spread c; persistence c].

Definition zero_components : ScoreComponents := {|
  failed_attempts := 0; attack_speed := 0; tool_detection := 0;
  geographic_risk := 0; user_spread := 0; persistence := 0
|}.

(** What [calculate_threat_score_ip] returns:
    [(score, reasons, score_components, aggregated_stats)]. *)
Definition Scored : Type :=
  Q * list Reason * ScoreComponents * option AggregatedStats.

Definition scored_score (r : Scored) : Q := r.1.1.1.
Definition scored_reasons (r : Scored) : list Reason := r.1.1.2.
Definition scored_components (r : Scored) : ScoreComponents := r.1.2.
Definition scored_stats (r : Scored) : option AggregatedStats := r.2.

(** The part of [calculate_threat_score_ip] after [recent] is known. *)
Definition score_recent (now : Z) (recent : list Event) : Scored :=
  let a := tally now recent in
  let sorted_times := merge_sort Z.le (times a) in
  let aggregated_stats := stats_of recent a sorted_times in
  let '(c_failed, r_failed) :=
    score_failed_attempts (st_failed_attempts aggregated_stats) (length recent) in
  let '(c_speed, r_speed) := score_attack_speed sorted_times in
  let '(c_tool, r_tool) := score_tool_detection (st_user_agents aggregated_stats) in
  let '(c_geo, r_geo) := score_geographic_risk (st_countries aggregated_stats) in
  let '(c_spread, r_spread) :=
    score_user_spread (length (st_unique_users aggregated_stats)) in
  let '(c_pers, r_pers) := score_persistence sorted_times in
  let '(c_spread', r_hvt) := hvt_bonus (st_targeted_hvt aggregated_stats) c_spread in
  let score_components := {|
    failed_attempts := c_failed; attack_speed := c_speed;
    tool_detection := c_tool; geographic_risk := c_geo;
    user_spread := c_spread'; persistence := c_pers |} in
  let reasons :=
    r_failed ++ r_speed ++ r_tool ++ r_geo ++ r_spread ++ r_pers ++ r_hvt in
  let score := round2 (sum_components score_components) in
  (py_min score 100, reasons, score_components, Some aggregated_stats).

(** [calculate_threat_score_ip(events, ip)] *)
Definition calculate_threat_score_ip (now : Z) (events : list Event) (ip : string)
  : Scored :=
  let ip_events := filter (fun e => ev_ip e = Some ip) events in
  match ip_events with
  | [] => (0%Q, [], zero_components, None)
  | _ => score_recent now (lastn 200 ip_events)
  end.

(** ** Sanctions *)

(** The record [apply_sanction] stores, from the entry of [SANCTIONS] for the
    severity; [now] is what [dt.now()] returns. *)
Definition sanction_entry (now : Z) (sanction_config : SanctionConfig)
    (entity_type value : string) (score : Q) (severity : Severity)
    (reasons : list Reason) (components : ScoreComponents) : Sanction :=
  let expires_at :=
    match cfg_duration_minutes sanction_config with
    | Some d => if Z.eqb d 0 then None else Some (isoformat (now + minutes d))
    | None => None
    end in
  {| sn_entity_type := entity_type;
     sn_entity_value := value;
     sn_score := score;
     sn_severity := severity;
     sn_action := cfg_action sanction_config;
     sn_description := cfg_description sanction_config;
     sn_blocked := cfg_block sanction_config;
     sn_active := true;
     sn_created_at := isoformat now;
     sn_expires_at := expires_at;
     sn_reasons := firstn 5 reasons;
     sn_components := components;
     sn_rate_limit := cfg_rate_limit sanction_config;
     sn_requires_manual_review :=
       match cfg_requires_manual_review sanction_config with
       | Some true => Some true
       | _ => None
       end |}.

(** [apply_sanction(entity_type, value, score, severity, reasons, components)] *)
Definition apply_sanction (now : Z) (entity_type value : string) (score : Q)
    (severity : Severity) (reasons : list Reason) (components : ScoreComponents)
    (w : World) : World :=
  match SANCTIONS severity with
  | None => w
  | Some sanction_config =>
      let sanctions := load_sanctions w in
      let key := entity_type +:+ ":" +:+ value in
      let sanction :=
        sanction_entry now sanction_config entity_type value score severity
          reasons components in
      save_sanctions (<[key := sanction]> sanctions) w
  end.

(** ** Detection cycle *)

(** [ip_groups[ip].append(e)] on a dictionary that keeps the order in which
    its keys were first inserted. *)
Fixpoint group_append (ip : string) (e : Event) (groups : list (string * list Event))
  : list (string * list Event) :=
  match groups with
  | [] => [(ip, [e])]
  | (k, es) :: rest =>
      if String.eqb k ip then (k, es ++ [e]) :: rest
      else (k, es) :: group_append ip e rest
  end.

(** The loop that fills [ip_groups]. *)
Definition group_by_ip (latest : list Event) : list (string * list Event) :=
  fold_left
    (fun groups e =>
       match truthy (ev_ip e) with
       | Some ip => if in_list ip LOCAL_IPS then groups else group_append ip e groups
       | None => groups
       end)
    latest [].

(** [{a.get("ip") for a in alerts if a.get("type") == "Threat Detection"}] *)
Definition alerted_ips_of (alerts : list Alert) : gset (option string) :=
  list_to_set
    (al_ip <$> filter (fun a => al_type a = Some "Threat Detection") alerts).

(** The variables of [detect_threats_by_ip] that its loop updates, and the
    files. *)
Record Cycle := {
  cy_alerts : list Alert;
  cy_scores : gmap string ThreatScore;
  cy_alerted_ips : gset (option string);
  cy_world : World
}.

(** The record stored under ["IP:" + ip] in [scores]. *)
Definition threat_entry (ip : string) (score : Q) (severity : Severity)
    (reasons : list Reason) (components : ScoreComponents)
    (stats : option AggregatedStats) : ThreatScore := {|
  ts_entity_type := "IP";
  ts_entity_value := ip;
  ts_score := score;
  ts_severity := severity;
  ts_reasons := reasons;
  ts_components := components;
  ts_stats := stats
|}.

(** The record appended to [alerts]. *)
Definition alert_entry (ip : string) (score : Q) (severity : Severity)
    (reasons : list Reason) (stats : AggregatedStats) (sample : Event) : Alert := {|
  al_type := Some "Threat Detection";
  al_ip := Some ip;
  al_score := score;
  al_severity := severity;
  al_reasons := firstn 3 reasons;
  al_total_attempts := st_total_attempts stats;
  al_failed_attempts := st_failed_attempts stats;
  al_unique_users := length (st_unique_users stats);
  al_countries := st_countries stats;
  al_date := default "" (ev_date sample);
  al_time := default "" (ev_time sample)
|}.

(** The body of [for ip, ip_events in ip_groups.items()]; [None] stands for
    an exception ([ip_events[-1]] on an empty list, [stats[...]] on the empty
    dict). *)
Definition detect_ip (now : Z) (events : list Event) (c : Cycle)
    (group : string * list Event) : option Cycle :=
  let '(ip, ip_events) := group in
  if Nat.ltb (length ip_events) 3 then Some c
  else
    let '(score, reasons, components, stats) :=
      calculate_threat_score_ip now events ip in
    let severity := get_severity_level score in
    if Qgeb score 31 then
      let scores' :=
        <["IP:" +:+ ip := threat_entry ip score severity reasons components stats]>
          (cy_scores c) in
      let world' :=
        apply_sanction now "IP" ip score severity reasons components (cy_world c) in
      if bool_decide (Some ip ∈ cy_alerted_ips c) then
        Some {| cy_alerts := cy_alerts c; cy_scores := scores';
                cy_alerted_ips := cy_alerted_ips c; cy_world := world' |}
      else
        sample ← last ip_events;
        st ← stats;
        Some {| cy_alerts :=
                  cy_alerts c ++ [alert_entry ip score severity reasons st sample];
                cy_scores := scores';
                cy_alerted_ips := cy_alerted_ips c ∪ {[Some ip]};
                cy_world := world' |}
    else Some c.

Fixpoint detect_loop (now : Z) (events : list Event)
    (groups : list (string * list Event)) (c : Cycle) : option Cycle :=
  match groups with
  | [] => Some c
  | group :: rest =>
      c' ← detect_ip now events c group;
      detect_loop now events rest c'
  end.

(** [detect_threats_by_ip(events)]; [now] is what [dt.now()] returns during
    the cycle. *)
Definition detect_threats_by_ip (now : Z) (events : list Event) (w : World)
  : option World :=
  let alerts := load_alerts w in
  let scores := load_scores w in
  let latest := lastn 1000 events in
  let ip_groups := group_by_ip latest in
  let alerted_ips := alerted_ips_of alerts in
  c ← detect_loop now events ip_groups
        {| cy_alerts := alerts; cy_scores := scores;
           cy_alerted_ips := alerted_ips; cy_world := w |};
  Some (save_scores (cy_scores c) (save_alerts (cy_alerts c) (cy_world c))).

(** ** The event store *)

(** [if len(events) > 2000: events = events[-2000:]], as [generate_live_logs]
    does after every addition to [events]. *)
Definition keep_recent (events : list Event) : list Event :=
  if Nat.ltb 2000 (length events) then lastn 2000 events else events.

(** [events.append(event)] followed by the trimming. *)
Definition record_event (events : list Event) (event : Event) : list Event :=
  keep_recent (events ++ [event]).

End WithRuntime.

End Generator.

(** * app/dashboard.py *)

Module Dashboard.

(** [get_severity_level(score)] *)
Definition get_severity_level (score : Q) : Severity :=
  if Qgeb score 86 then CRITICAL
  else if Qgeb score 61 then HIGH
  else if Qgeb score 31 then MEDIUM
  else LOW.

Section WithRuntime.
Context `{RT : Runtime}.

(** [sanction["severity"] = severity] *)
Definition set_severity (severity : Severity) (sanction : Sanction) : Sanction := {|
  sn_entity_type := sn_entity_type sanction;
  sn_entity_value := sn_entity_value sanction;
  sn_score := sn_score sanction;
  sn_severity := severity;
  sn_action := sn_action sanction;
  sn_description := sn_description sanction;
  sn_blocked := sn_blocked sanction;
  sn_active := sn_active sanction;
  sn_created_at := sn_created_at sanction;
  sn_expires_at := sn_expires_at sanction;
  sn_reasons := sn_reasons sanction;
  sn_components := sn_components sanction;
  sn_rate_limit := sn_rate_limit sanction;
  sn_requires_manual_review := sn_requires_manual_review sanction
|}.

(** The body of [for entity, sanction in sanctions.items()] in
    [get_sanctions]: the sanction kept in [cleaned], if any, and whether the
    iteration sets [changed]. [now] is what [datetime.now()] returns. *)
Definition review_sanction (now : Z) (scores : gmap string ThreatScore)
    (entity : string) (sanction : Sanction) : option Sanction * bool :=
  match scores !! entity with
  | None => (None, true)
  | Some threat =>
      let score := ts_score threat in
      if Qltb score 31 then (None, true)
      else
        let correct_severity := get_severity_level score in
        let '(sanction', changed) :=
          if bool_decide (sn_severity sanction ≠ correct_severity) then
            (set_severity correct_severity sanction, true)
          else (sanction, false) in
        match truthy (sn_expires_at sanction') with
        | Some text =>
            match fromisoformat text with
            | Some expires =>
                if Z.gtb now expires then (None, true)
                else (Some sanction', changed)
            | None => (Some sanction', changed)
            end
        | None => (Some sanction', changed)
        end
  end.

(** [get_sanctions()]: the JSON answer [cleaned] and the files afterwards. *)
Definition get_sanctions (now : Z) (w : World) : gmap string Sanction * World :=
  let sanctions := load_sanctions w in
  let scores := load_scores w in
  let cleaned :=
    map_imap (fun entity sanction => fst (review_sanction now scores entity sanction))
      sanctions in
  let changed :=
    existsb (fun '(entity, sanction) => snd (review_sanction now scores entity sanction))
      (map_to_list sanctions) in
  (cleaned, if changed then save_sanctions cleaned w else w).

(** What [remove_sanction] answers. *)
Inductive Response :=
| MissingParameters
| SanctionNotFound
| SanctionLifted (s_type value : string).

Definition status_code (r : Response) : nat :=
  match r with
  | MissingParameters => 400
  | SanctionNotFound => 404
  | SanctionLifted _ _ => 200
  end.

(** [sanctions[key]["active"] = False] *)
Definition deactivate (sanction : Sanction) : Sanction := {|
  sn_entity_type := sn_entity_type sanction;
  sn_entity_value := sn_entity_value sanction;
  sn_score := sn_score sanction;
  sn_severity := sn_severity sanction;
  sn_action := sn_action sanction;
  sn_description := sn_description sanction;
  sn_blocked := sn_blocked sanction;
  sn_active := false;
  sn_created_at := sn_created_at sanction;
  sn_expires_at := sn_expires_at sanction;
  sn_reasons := sn_reasons sanction;
  sn_components := sn_components sanction;
  sn_rate_limit := sn_rate_limit sanction;
  sn_requires_manual_review := sn_requires_manual_review sanction
|}.

(** [remove_sanction()], on the [type] and [value] of the request body. *)
Definition remove_sanction (s_type value : option string) (w : World)
  : Response * World :=
  match truthy s_type, truthy value with
  | Some s_type, Some value =>
      let sanctions := load_sanctions w in
      let key := s_type +:+ ":" +:+ value in
      match sanctions !! key with
      | None => (SanctionNotFound, w)
      | Some sanction =>
          (SanctionLifted s_type value,
           save_sanctions (<[key := deactivate sanction]> sanctions) w)
      end
  | _, _ => (MissingParameters, w)
  end.

(** ** The read-only routes *)

(** The seven [ev.setdefault(key, default)] of [get_events]. *)
Definition with_defaults (e : Event) : Event := {|
  ev_date := Some (default "" (ev_date e));
  ev_time := Some (default "" (ev_time e));
  ev_ip := Some (default "0.0.0.0" (ev_ip e));
  ev_user := Some (default "unknown" (ev_user e));
  ev_status := Some (default "UNKNOWN" (ev_status e));
  ev_ua := Some (default "-" (ev_ua e));
  ev_country := Some (default "Unknown" (ev_country e))
|}.

(** [get_events()], on the content of [events.json]. *)
Definition get_events (events : list Event) : list Event :=
  with_defaults <$> events.

(** [severity_counts]: one counter per key. *)
Record SeverityCounts := {
  n_low : nat;
  n_medium : nat;
  n_high : nat;
  n_critical : nat
}.

(** [severity_counts[severity] = severity_counts.get(severity, 0) + 1] *)
Definition count_severity (severity : Severity) (c : SeverityCounts)
  : SeverityCounts :=
  match severity with
  | LOW => {| n_low := S (n_low c); n_medium := n_medium c;
              n_high := n_high c; n_critical := n_critical c |}
  | MEDIUM => {| n_low := n_low c; n_medium := S (n_medium c);
                 n_high := n_high c; n_critical := n_critical c |}
  | HIGH => {| n_low := n_low c; n_medium := n_medium c;
               n_high := S (n_high c); n_critical := n_critical c |}
  | CRITICAL => {| n_low := n_low c; n_medium := n_medium c;
                   n_high := n_high c; n_critical := S (n_critical c) |}
  end.

(** The loop [for score_data in scores.values()]. *)
Definition severity_histogram (scores : gmap string ThreatScore) : SeverityCounts :=
  map_fold (fun _ score_data c => count_severity (ts_severity score_data) c)
    {| n_low := 0; n_medium := 0; n_high := 0; n_critical := 0 |} scores.

(** The answer of [get_stats]. *)
Record Stats := {
  total_events : nat;
  total_alerts : nat;
  failed_logins : nat;
  success_logins : nat;
  success_rate : Q;
  unique_ips : nat;
  total_threats : nat;
  severity_counts : SeverityCounts
}.

(** [get_stats()], on the content of [events.json] and the files. *)
Definition get_stats (events : list Event) (w : World) : Stats :=
  let alerts := load_alerts w in
  let scores := load_scores w in
  let total_events := length events in
  let failed_logins := length (filter (fun e => ev_status e = Some "FAIL") events) in
  let success_logins :=
    length (filter (fun e => ev_status e = Some "SUCCESS") events) in
  let unique_ips :=
    size (list_to_set (omap (fun e => truthy (ev_ip e)) events) : gset string) in
  {| total_events := total_events;
     total_alerts := length alerts;
     failed_logins := failed_logins;
     success_logins := success_logins;
     success_rate :=
       round2 (if Nat.eqb total_events 0 then 0%Q
               else float_mul
                      (float_div (inject_Z (Z.of_nat success_logins))
                         (inject_Z (Z.of_nat total_events)))
                      100);
     unique_ips := unique_ips;
     total_threats := size scores;
     severity_counts := severity_histogram scores |}.

(** What [get_ip_details] answers. *)
Inductive Details :=
| MissingIp
| IpDetails (threat : ThreatScore)
| IpNotFound.

Definition details_code (d : Details) : nat :=
  match d with
  | MissingIp => 400
  | IpDetails _ => 200
  | IpNotFound => 404
  end.

(** [get_ip_details()], on the [ip] argument of the request. *)
Definition get_ip_details (ip : option string) (w : World) : Details :=
  match truthy ip with
  | None => MissingIp
  | Some ip =>
      let scores := load_scores w in
      let key := "IP:" +:+ ip in
      match scores !! key with
      | Some threat => IpDetails threat
      | None => IpNotFound
      end
  end.

(** ** Advanced statistics *)

(** [d[k] = d.get(k, 0) + 1] on a dictionary that keeps the order in which
    its keys were first inserted. *)
Fixpoint bump (k : string) (d : list (string * nat)) : list (string * nat) :=
  match d with
  | [] => [(k, 1%nat)]
  | (k', n) :: rest =>
      if String.eqb k' k then (k', S n) :: rest else (k', n) :: bump k rest
  end.

(** The loop that fills [countries]. *)
Definition count_countries (events : list Event) : list (string * nat) :=
  fold_left (fun countries e => bump (default "Unknown" (ev_country e)) countries)
    events [].

(** One value of [ip_stats]. *)
Record IpStat := {
  ips_total : nat;
  ips_failed : nat;
  ips_success : nat;
  ips_users : gset string
}.

(** What one event does to the entry of its address. *)
Definition ip_stat_event (e : Event) (st : IpStat) : IpStat := {|
  ips_total := S (ips_total st);
  ips_failed :=
    if bool_decide (ev_status e = Some "FAIL") then S (ips_failed st)
    else ips_failed st;
  ips_success :=
    if bool_decide (ev_status e = Some "FAIL") then ips_success st
    else if bool_decide (ev_status e = Some "SUCCESS") then S (ips_success st)
    else ips_success st;
  ips_users :=
    match truthy (ev_user e) with
    | Some user => ips_users st ∪ {[user]}
    | None => ips_users st
    end
|}.

Definition new_ip_stat : IpStat :=
  {| ips_total := 0; ips_failed := 0; ips_success := 0; ips_users := ∅ |}.

(** [ip_stats[ip]] created when absent, then updated, in insertion order. *)
Fixpoint ip_stat_update (ip : string) (e : Event) (d : list (string * IpStat))
  : list (string * IpStat) :=
  match d with
  | [] => [(ip, ip_stat_event e new_ip_stat)]
  | (k, st) :: rest =>
      if String.eqb k ip then (k, ip_stat_event e st) :: rest
      else (k, st) :: ip_stat_update ip e rest
  end.

(** The loop that fills [ip_stats]. *)
Definition collect_ip_stats (events : list Event) : list (string * IpStat) :=
  fold_left
    (fun ip_stats e =>
       match truthy (ev_ip e) with
       | Some ip => ip_stat_update ip e ip_stats
       | None => ip_stats
       end)
    events [].

(** Where a pair goes in a list sorted by decreasing count: after the pairs
    of the same count, as a stable sort leaves it. *)
Fixpoint insert_desc (x : string * nat) (l : list (string * nat))
  : list (string * nat) :=
  match l with
  | [] => [x]
  | y :: rest =>
      if Nat.ltb y.2 x.2 then x :: l else y :: insert_desc x rest
  end.

(** [sorted(l, key=lambda x: x[1], reverse=True)] *)
Definition sorted_desc (l : list (string * nat)) : list (string * nat) :=
  fold_left (fun acc x => insert_desc x acc) l [].

(** [dict(sorted(..., key=lambda x: x[1], reverse=True)[:10])] *)
Definition top10 (l : list (string * nat)) : list (string * nat) :=
  firstn 10 (sorted_desc l).

(** The answer of [get_advanced_statistics]. *)
Record AdvancedStatistics := {
  adv_total_events : nat;
  adv_total_alerts : nat;
  adv_total_threats : nat;
  adv_unique_ips : nat;
  adv_threats_by_severity : SeverityCounts;
  adv_top_countries : list (string * nat);
  adv_top_ips_attempts : list (string * nat);
  adv_top_ips_failures : list (string * nat)
}.

(** [get_advanced_statistics()], on the content of [events.json] and the
    files. *)
Definition get_advanced_statistics (events : list Event) (w : World)
  : AdvancedStatistics :=
  let alerts := load_alerts w in
  let scores := load_scores w in
  let countries := count_countries events in
  let ip_stats := collect_ip_stats events in
  {| adv_total_events := length events;
     adv_total_alerts := length alerts;
     adv_total_threats := size scores;
     adv_unique_ips := length ip_stats;
     adv_threats_by_severity := severity_histogram scores;
     adv_top_countries := top10 countries;
     adv_top_ips_attempts :=
       top10 ((fun '(ip, data) => (ip, ips_total data)) <$> ip_stats);
     adv_top_ips_failures :=
       top10 ((fun '(ip, data) => (ip, ips_failed data)) <$> ip_stats) |}.

(** What [get_events_by_ip] answers: [None] is the 400 for a missing [ip]. *)
Definition get_events_by_ip (ip : option string) (events : list Event)
  : option (list Event) :=
  match truthy ip with
  | None => None
  | Some ip => Some (filter (fun e => ev_ip e = Some ip) events)
  end.

End WithRuntime.

End Dashboard.

(** * The attack-speed component as the specification words it *)

Module Claimed.

(** "Compute inter-event gaps, sort them, trim the top and bottom 10% (at
    least 1 each side)": the gaps that are left. *)
Definition trimmed_gaps (sorted_times : list Z) : list Q :=
  let diffs_sorted := merge_sort Qle (Generator.gaps sorted_times) in
  let n := length diffs_sorted in
  let cut := Nat.max 1 (n / 10) in
  slice cut (n - cut) diffs_sorted.

(** "average the remainder", and the tiers on that average. *)
Definition attack_speed (sorted_times : list Z) : Q * list Reason :=
  Generator.speed_tier (Generator.mean (trimmed_gaps sorted_times)).

End Claimed.

(** * A runtime to evaluate the embedding with

    [Reference] reads and writes the zero-padded spellings that
    [strftime("%Y-%m-%d")], [strftime("%H:%M:%S.%f")] and [isoformat()]
    produce, with the values Python gives them, and rejects every other
    spelling. Its [exp] is a rational approximation of [math.exp], its
    [lower] is [str.lower] on ASCII strings, and it lists a set in one fixed
    order. *)

Module Reference.

Definition digit_of (c : ascii) : option Z :=
  let n := nat_of_ascii c in
  if (Nat.leb 48 n && Nat.leb n 57)%bool then Some (Z.of_nat (n - 48)) else None.

(** The value of a string of decimal digits, after [acc]. *)
Fixpoint digits_from (acc : Z) (s : string) : option Z :=
  match s with
  | EmptyString => Some acc
  | String c rest =>
      match digit_of c with
      | Some d => digits_from (10 * acc + d) rest
      | None => None
      end
  end.

(** The value of a non-empty field of exactly [width] digits. *)
Definition field (width : nat) (s : string) : option Z :=
  if Nat.eqb (String.length s) width then
    match s with EmptyString => None | _ => digits_from 0 s end
  else None.

Definition is_leap (y : Z) : bool :=
  ((y mod 4 =? 0) && (negb (y mod 100 =? 0) || (y mod 400 =? 0)))%bool.

Definition days_in_month (y m : Z) : Z :=
  if m =? 2 then (if is_leap y then 29 else 28)
  else if (m =? 4) || (m =? 6) || (m =? 9) || (m =? 11) then 30
  else 31.

(** Days from 1970-01-01 to the given civil date. *)
Definition days_from_civil (y m d : Z) : Z :=
  let y' := if m <=? 2 then y - 1 else y in
  let era := y' / 400 in
  let yoe := y' - era * 400 in
  let mp := (m + 9) mod 12 in
  let doy := (153 * mp + 2) / 5 + d - 1 in
  let doe := yoe * 365 + yoe / 4 - yoe / 100 + doy in
  era * 146097 + doe - 719468.

(** The civil date [(y, m, d)] that many days after 1970-01-01. *)
Definition civil_from_days (days : Z) : Z * Z * Z :=
  let z := days + 719468 in
  let era := z / 146097 in
  let doe := z - era * 146097 in
  let yoe := (doe - doe / 1460 + doe / 36524 - doe / 146096) / 365 in
  let doy := doe - (365 * yoe + yoe / 4 - yoe / 100) in
  let mp := (5 * doy + 2) / 153 in
  let d := doy - (153 * mp + 2) / 5 + 1 in
  let m := if mp <? 10 then mp + 3 else mp - 9 in
  let y := yoe + era * 400 in
  (if m <=? 2 then y + 1 else y, m, d).

Definition microseconds_of (y m d hh mm ss us : Z) : option Z :=
  if ((1 <=? y) && (y <=? 9999) && (1 <=? m) && (m <=? 12) && (1 <=? d)
      && (d <=? days_in_month y m) && (hh <? 24) && (mm <? 60) && (ss <? 60))%bool
  then Some ((((days_from_civil y m d * 24 + hh) * 60 + mm) * 60 + ss) * 1000000 + us)
  else None.

(** One to six digits of a fraction of a second, as microseconds. *)
Definition fraction (s : string) : option Z :=
  let n := String.length s in
  if (Nat.leb 1 n && Nat.leb n 6)%bool then
    v ← digits_from 0 s; Some (v * 10 ^ Z.of_nat (6 - n))
  else None.

Definition sep (c : string) (i : nat) (s : string) : bool :=
  String.eqb (String.substring i 1 s) c.

(** [YYYY-MM-DD?HH:MM:SS], with [mid] between date and time, and the rest. *)
Definition read_datetime (mid : string) (s : string) : option (Z * string) :=
  if (sep "-" 4 s && sep "-" 7 s && sep mid 10 s && sep ":" 13 s && sep ":" 16 s)%bool
  then
    y ← field 4 (String.substring 0 4 s);
    m ← field 2 (String.substring 5 2 s);
    d ← field 2 (String.substring 8 2 s);
    hh ← field 2 (String.substring 11 2 s);
    mm ← field 2 (String.substring 14 2 s);
    ss ← field 2 (String.substring 17 2 s);
    t ← microseconds_of y m d hh mm ss 0;
    Some (t, String.substring 19 (String.length s - 19) s)
  else None.

Definition with_fraction (rest : string) (t : Z) : option Z :=
  match rest with
  | String "." frac => us ← fraction frac; Some (t + us)
  | _ => None
  end.

Definition strptime (s fmt : string) : option Z :=
  if String.eqb fmt "%Y-%m-%d %H:%M:%S.%f" then
    '(t, rest) ← read_datetime " " s; with_fraction rest t
  else if String.eqb fmt "%Y-%m-%d %H:%M:%S" then
    '(t, rest) ← read_datetime " " s;
    if String.eqb rest "" then Some t else None
  else None.

Definition fromisoformat (s : string) : option Z :=
  '(t, rest) ← read_datetime "T" s;
  if String.eqb rest "" then Some t else with_fraction rest t.

Definition digit_char (d : Z) : string :=
  String (ascii_of_nat (48 + Z.to_nat d)) EmptyString.

(** [n] in decimal on [width] digits, zero-padded. *)
Fixpoint padded (width : nat) (n : Z) : string :=
  match width with
  | O => ""
  | S w => padded w (n / 10) +:+ digit_char (n mod 10)
  end.

Definition write_datetime (mid : string) (t : Z) : string :=
  let secs := t / 1000000 in
  let '(y, m, d) := civil_from_days (secs / 86400) in
  let sod := secs mod 86400 in
  padded 4 y +:+ "-" +:+ padded 2 m +:+ "-" +:+ padded 2 d +:+ mid
  +:+ padded 2 (sod / 3600) +:+ ":" +:+ padded 2 (sod / 60 mod 60)
  +:+ ":" +:+ padded 2 (sod mod 60).

Definition strftime (t : Z) (fmt : string) : string :=
  if String.eqb fmt "%Y-%m-%d %H:%M:%S" then write_datetime " " t else fmt.

Definition isoformat (t : Z) : string :=
  let us := t mod 1000000 in
  if us =? 0 then write_datetime "T" t
  else write_datetime "T" t +:+ "." +:+ padded 6 us.

(** [1 + y/k * (1 + y/(k+1) * (...))], [n] factors deep: the series of
    [e^y] by Horner's rule. *)
Fixpoint series (n : nat) (k : positive) (y : Q) : Q :=
  match n with
  | O => 1
  | S n' => 1 + y * (1 # k) * series n' (Pos.succ k) y
  end.

(** [e^x] as [1/e^(-x)] for [x <= 0]. *)
Definition exp (x : Q) : Q :=
  if Qle_bool x 0 then Qred (/ series 12 1 (- x)) else Qred (series 12 1 x).

Definition lower_char (c : ascii) : ascii :=
  let n := nat_of_ascii c in
  if (Nat.leb 65 n && Nat.leb n 90)%bool then ascii_of_nat (n + 32) else c.

(** [s.lower()] for a string of ASCII characters. *)
Fixpoint lower (s : string) : string :=
  match s with
  | EmptyString => EmptyString
  | String c rest => String (lower_char c) (lower rest)
  end.

(** One order for every set: that of [elements]. *)
Definition listing (s : gset string) : list string := elements s.

Definition runtime : Runtime :=
  Build_Runtime strptime strftime exp isoformat fromisoformat lower listing
    (fun s => Permutation_refl (listing s)).

End Reference.

(** * Vocabulary of the properties *)

(** The "Threat Detection" alerts of an IP. *)
Definition threat_alerts (ip : string) (alerts : list Alert) : list Alert :=
  filter (fun a => al_type a = Some "Threat Detection" /\ al_ip a = Some ip) alerts.

(** The events of an IP in the trailing window of the detection cycle. *)
Definition window_events (ip : string) (events : list Event) : list Event :=
  filter (fun e => ev_ip e = Some ip) (lastn 1000 events).

(** The 200 most recent events of an IP in a list of events. *)
Definition recent_events (ip : string) (events : list Event) : list Event :=
  lastn 200 (filter (fun e => ev_ip e = Some ip) events).

(** The addresses the detection cycle groups: not empty, not local. *)
Definition grouped (ip : string) : Prop :=
  ip <> "" /\ in_list ip Generator.LOCAL_IPS = false.

(** The events grouped under an address, if any. *)
Fixpoint group_lookup (ip : string) (groups : list (string * list Event))
  : option (list Event) :=
  match groups with
  | [] => None
  | (k, es) :: rest => if String.eqb k ip then Some es else group_lookup ip rest
  end.

(** What one cycle does for an address passes two gates: three events in its
    group, and a score of 31. *)
Definition qualifies `{RT : Runtime} (now : Z) (events : list Event)
    (ip : string) (ip_events : list Event) : Prop :=
  (3 <= length ip_events)%nat
  /\ (31 <= Generator.scored_score
              (Generator.calculate_threat_score_ip now events ip))%Q.

(** The record a cycle stores in [threat_scores.json] for a scored address. *)
Definition threat_of (ip : string) (r : Generator.Scored) : ThreatScore :=
  Generator.threat_entry ip (Generator.scored_score r)
    (Generator.get_severity_level (Generator.scored_score r))
    (Generator.scored_reasons r) (Generator.scored_components r)
    (Generator.scored_stats r).

(** The files after the sanction of a scored address is applied. *)
Definition sanctioned `{RT : Runtime} (now : Z) (ip : string)
    (r : Generator.Scored) (w : World) : World :=
  Generator.apply_sanction now "IP" ip (Generator.scored_score r)
    (Generator.get_severity_level (Generator.scored_score r))
    (Generator.scored_reasons r) (Generator.scored_components r) w.

(** Every "Threat Detection" alert collected so far is of an address in
    [alerted_ips]. *)
Definition alerts_tracked (c : Generator.Cycle) : Prop :=
  forall a, a ∈ Generator.cy_alerts c ->
            al_type a = Some "Threat Detection" ->
            al_ip a ∈ Generator.cy_alerted_ips c.

(** The set a non-empty string adds to. *)
Definition said (text : string) : gset string :=
  match text with "" => ∅ | _ => {[text]} end.

(** The number of stored threats of one severity. *)
Definition threats_of_severity (sev : Severity) (scores : gmap string ThreatScore)
  : nat :=
  length (filter (fun kv : string * ThreatScore => ts_severity kv.2 = sev)
            (map_to_list scores)).

(** The fields of an event, in the order of the record. *)
Definition fields (e : Event) : list (option string) :=
  [ev_date e; ev_time e; ev_ip e; ev_user e; ev_status e; ev_ua e; ev_country e].

(** An event that has its seven keys. *)
Definition complete (e : Event) : Prop := Forall is_Some (fields e).

(** Every key [e] has, [e'] has with the same value. *)
Definition extends (e e' : Event) : Prop :=
  Forall2 (fun a b : option string => forall v, a = Some v -> b = Some v)
    (fields e) (fields e').

(** The value a dictionary kept in insertion order holds for a key, if it
    has the key. *)
Fixpoint entry_of {A} (k : string) (d : list (string * A)) : option A :=
  match d with
  | [] => None
  | (k', v) :: rest => if String.eqb k' k then Some v else entry_of k rest
  end.

(** Pairs in decreasing order of their counts. *)
Definition decreasing (x y : string * nat) : Prop := (y.2 <= x.2)%nat.

(** The events counted for a country: a missing country is "Unknown". *)
Definition events_of_country (c : string) (events : list Event) : list Event :=
  filter (fun e => default "Unknown" (ev_country e) = c) events.

(** The events of an address. *)
Definition events_of_ip (ip : string) (events : list Event) : list Event :=
  filter (fun e => ev_ip e = Some ip) events.

(** * Inputs the properties are evaluated on *)

Module Scenario.

(** An event with all seven keys. *)
Definition ev (date time ip user status ua country : string) : Event := {|
  ev_date := Some date; ev_time := Some time; ev_ip := Some ip;
  ev_user := Some user; ev_status := Some status; ev_ua := Some ua;
  ev_country := Some country |}.

Definition browser : string :=
  "Mozilla/5.0 (Windows NT 10.0; Win64; x64) Chrome/122.0".

Definition empty_world : World := {|
  alerts_json := []; scores_json := ∅; sanctions_json := ∅; saved := [] |}.

(** Fifteen successful logins of fifteen users, one of them [admin], from one
    French address, two seconds apart. *)
Definition spread_users : list string :=
  ["admin"; "ahmed"; "sara"; "mehdi"; "ilias"; "youssef"; "fatima"; "karim";
   "noura"; "hassan"; "amina"; "samir"; "leila"; "mohamed"; "sanae"].

Definition spread_events : list Event :=
  imap (fun i user =>
          ev "2024-03-01" ("10:00:" +:+ Reference.padded 2 (2 * Z.of_nat i) +:+ ".000")
             "5.39.7.7" user "SUCCESS" browser "FR")
       spread_users.


(** Three logins from one address, thirty seconds apart; the date of the
    last one is written day first, which neither format of [parse_datetime]
    reads. [noon] is two hours after the first. *)
Definition dated_events : list Event :=
  [ev "2024-03-01" "10:00:00.000" "5.39.3.3" "sara" "SUCCESS" browser "FR";
   ev "2024-03-01" "10:00:30.000" "5.39.3.3" "sara" "SUCCESS" browser "FR"].

Definition misdated_event : Event :=
  ev "01/03/2024" "10:01:00.000" "5.39.3.3" "sara" "SUCCESS" browser "FR".

Definition noon : Z := 1709294400000000.







(** A rate-limit sanction and a threat score as the engine writes them. *)
Definition sanction_for (ip : string) (score : Q) (expires_at : option string)
  : Sanction := {|
  sn_entity_type := "IP"; sn_entity_value := ip; sn_score := score;
  sn_severity := MEDIUM; sn_action := "RATE_LIMIT";
  sn_description := "Limitation du taux de requêtes (1/5s)";
  sn_blocked := false; sn_active := true;
  sn_created_at := "2024-03-01T10:00:00"; sn_expires_at := expires_at;
  sn_reasons := []; sn_components := Generator.zero_components;
  sn_rate_limit := Some "1/5s"; sn_requires_manual_review := None |}.

Definition threat_for (ip : string) (score : Q) : ThreatScore := {|
  ts_entity_type := "IP"; ts_entity_value := ip; ts_score := score;
  ts_severity := Generator.get_severity_level score; ts_reasons := [];
  ts_components := Generator.zero_components; ts_stats := None |}.

(** Four sanctions: one that expired at 11:00, one whose score is gone, one
    whose expiry is not a timestamp and whose score rose to 70, and one that
    is current. *)
Definition sanctioned_world : World := {|
  alerts_json := [];
  scores_json :=
    <["IP:5.39.1.1" := threat_for "5.39.1.1" 45]>
      (<["IP:5.39.3.3" := threat_for "5.39.3.3" 70]>
        (<["IP:5.39.4.4" := threat_for "5.39.4.4" 45]> ∅));
  sanctions_json :=
    <["IP:5.39.1.1" := sanction_for "5.39.1.1" 45 (Some "2024-03-01T11:00:00")]>
      (<["IP:5.39.2.2" := sanction_for "5.39.2.2" 45 (Some "2024-03-01T13:00:00")]>
        (<["IP:5.39.3.3" := sanction_for "5.39.3.3" 45 (Some "in one hour")]>
          (<["IP:5.39.4.4" := sanction_for "5.39.4.4" 45 (Some "2024-03-01T13:00:00")]> ∅)));
  saved := [] |}.


(** A burst from a Russian address with [curl], 0.1 s apart, by one user. *)
Definition burst_event (time : string) : Event :=
  ev "2024-03-01" time "45.12.9.9" "sara" "FAIL" "curl/8.1.2" "RU".

Definition burst_events : list Event :=
  [burst_event "10:20:00.000"; burst_event "10:20:00.100";
   burst_event "10:20:00.200"].

(** A login to [admin] from the same address twenty minutes before. *)
Definition early_event : Event :=
  ev "2024-03-01" "10:00:00.000" "45.12.9.9" "admin" "FAIL" "curl/8.1.2" "RU".

Definition lan_event : Event :=
  ev "2024-03-01" "10:10:00.000" "192.168.1.10" "ahmed" "SUCCESS" browser "LAN".

(** 1001 events: the early login, 997 logins from the local network, the
    burst. The trailing window of 1000 begins after the early login. *)
Definition long_log : list Event :=
  early_event :: repeat lan_event 997 ++ burst_events.

(** The files when the bursting address already has its alert. *)
Definition alerted_world : World := {|
  alerts_json := [{|
    al_type := Some "Threat Detection"; al_ip := Some "45.12.9.9";
    al_score := 45; al_severity := MEDIUM; al_reasons := [];
    al_total_attempts := 3; al_failed_attempts := 3; al_unique_users := 1;
    al_countries := ["RU"]; al_date := "2024-03-01"; al_time := "10:19:00.000" |}];
  scores_json := ∅; sanctions_json := ∅; saved := [] |}.


(** A successful login from France. *)
Definition calm_event (ip user ua date time : string) : Event :=
  ev date time ip user "SUCCESS" ua "FR".

(** Four successful logins of one user from one address in France. *)
Definition four_calm (ip user ua d1 t1 d2 t2 d3 t3 d4 t4 : string) : list Event :=
  [calm_event ip user ua d1 t1; calm_event ip user ua d2 t2;
   calm_event ip user ua d3 t3; calm_event ip user ua d4 t4].

(** The times of four logins three minutes apart, from [t0]. *)
Definition calm_times (t0 : Z) : list Z :=
  [t0; t0 + minutes 3; t0 + minutes 6; t0 + minutes 9].

(** Those of [sara] at 10:00, 10:03, 10:06 and 10:09. *)
Definition calm_events : list Event :=
  four_calm "5.39.1.1" "sara" browser
    "2024-03-01" "10:00:00.000" "2024-03-01" "10:03:00.000"
    "2024-03-01" "10:06:00.000" "2024-03-01" "10:09:00.000".

End Scenario.

(** * Properties *)

(** ** Comparisons and rounding *)

Lemma Qgeb_true x y : Qgeb x y = true <-> (y <= x)%Q.
Proof. unfold Qgeb. apply Qle_bool_iff. Qed.

Lemma Qgeb_false x y : Qgeb x y = false <-> (x < y)%Q.
Proof.
  unfold Qgeb. split; intros H.
  - apply Qnot_le_lt. intros Hle. apply Qle_bool_iff in Hle. congruence.
  - destruct (Qle_bool y x) eqn:E; [|reflexivity].
    apply Qle_bool_iff in E. lra.
Qed.

Lemma Qltb_true x y : Qltb x y = true <-> (x < y)%Q.
Proof. unfold Qltb. rewrite negb_true_iff. apply (Qgeb_false x y). Qed.

Lemma Qltb_false x y : Qltb x y = false <-> (y <= x)%Q.
Proof. unfold Qltb. rewrite negb_false_iff. apply (Qgeb_true x y). Qed.

Lemma py_min_spec a b : (py_min a b == Qmin a b)%Q.
Proof.
  unfold py_min. destruct (Qltb b a) eqn:E.
  - apply Qltb_true in E. symmetry. apply Q.min_r. lra.
  - apply Qltb_false in E. symmetry. apply Q.min_l. exact E.
Qed.

Lemma py_min_le_l a b : (py_min a b <= a)%Q.
Proof.
  unfold py_min. destruct (Qltb b a) eqn:E; [|lra].
  apply Qltb_true in E. lra.
Qed.

Lemma py_min_ge a b c : (c <= a)%Q -> (c <= b)%Q -> (c <= py_min a b)%Q.
Proof. intros Ha Hb. unfold py_min. destruct (Qltb b a); assumption. Qed.

Lemma py_max_between a b lo hi :
  (lo <= a <= hi)%Q -> (lo <= b <= hi)%Q -> (lo <= py_max a b <= hi)%Q.
Proof. intros Ha Hb. unfold py_max. destruct (Qltb a b); assumption. Qed.

Lemma round_half_even_nonneg q : (0 <= q)%Q -> (0 <= round_half_even q)%Z.
Proof.
  intros Hq. unfold round_half_even.
  assert (Hf : (0 <= Qfloor q)%Z).
  { change 0%Z with (Qfloor 0). apply Qfloor_resp_le. exact Hq. }
  destruct (Qcompare _ _); [destruct (Z.even _)| |]; lia.
Qed.

Lemma round2_nonneg q : (0 <= q)%Q -> (0 <= round2 q)%Q.
Proof.
  intros Hq. unfold round2, Qle. simpl.
  assert (H : (0 <= round_half_even (q * 100))%Z).
  { apply round_half_even_nonneg. lra. }
  lia.
Qed.

(** ** C2: the classifier *)

Lemma get_severity_level_same score :
  Dashboard.get_severity_level score = Generator.get_severity_level score.
Proof. reflexivity. Qed.

(** C2. The classifier has inclusive lower bounds: CRITICAL exactly from 86
    up, HIGH exactly on [61, 86), MEDIUM exactly on [31, 61), LOW exactly
    below 31, in the generator and in the dashboard alike; 85.99 is HIGH,
    86.00 CRITICAL, 60.99 MEDIUM, 61.00 HIGH, 30.99 LOW and 31.00 MEDIUM. *)
Theorem C2_severity_thresholds (score : Q) :
  (Generator.get_severity_level score = CRITICAL <-> (86 <= score)%Q)
  /\ (Generator.get_severity_level score = HIGH <-> (61 <= score < 86)%Q)
  /\ (Generator.get_severity_level score = MEDIUM <-> (31 <= score < 61)%Q)
  /\ (Generator.get_severity_level score = LOW <-> (score < 31)%Q)
  /\ Dashboard.get_severity_level score = Generator.get_severity_level score
  /\ Generator.get_severity_level (8599 # 100) = HIGH
  /\ Generator.get_severity_level (8600 # 100) = CRITICAL
  /\ Generator.get_severity_level (6099 # 100) = MEDIUM
  /\ Generator.get_severity_level (6100 # 100) = HIGH
  /\ Generator.get_severity_level (3099 # 100) = LOW
  /\ Generator.get_severity_level (3100 # 100) = MEDIUM.
Proof.
  unfold Dashboard.get_severity_level, Generator.get_severity_level.
  destruct (Qgeb score 86) eqn:E86;
    [apply Qgeb_true in E86 | apply Qgeb_false in E86];
  (destruct (Qgeb score 61) eqn:E61;
    [apply Qgeb_true in E61 | apply Qgeb_false in E61]);
  (destruct (Qgeb score 31) eqn:E31;
    [apply Qgeb_true in E31 | apply Qgeb_false in E31]);
  repeat split; intros; try reflexivity; try discriminate; try lra.
Qed.

(** ** Rounding *)

Section Rounding.

Lemma round_half_even_between q :
  Qfloor q <= round_half_even q <= Qfloor q + 1.
Proof.
  unfold round_half_even.
  destruct (Qcompare _ _); [destruct (Z.even _)| |]; lia.
Qed.

Lemma round_half_even_mono q q' :
  (q <= q')%Q -> round_half_even q <= round_half_even q'.
Proof.
  intros Hle. pose proof (Qfloor_resp_le _ _ Hle) as Hf.
  destruct (Z.eq_dec (Qfloor q) (Qfloor q')) as [Heq|Hne].
  - unfold round_half_even. rewrite Heq.
    destruct (Qcompare_spec (q - inject_Z (Qfloor q')) (1 # 2)) as [H1|H1|H1];
      destruct (Qcompare_spec (q' - inject_Z (Qfloor q')) (1 # 2)) as [H2|H2|H2];
      try (destruct (Z.even (Qfloor q'))); try lia; exfalso; lra.
  - pose proof (round_half_even_between q). pose proof (round_half_even_between q').
    lia.
Qed.

Lemma round2_mono q q' : (q <= q')%Q -> (round2 q <= round2 q')%Q.
Proof.
  intros Hle. unfold round2, Qle. cbn [Qnum Qden].
  assert (H : round_half_even (q * 100) <= round_half_even (q' * 100)).
  { apply round_half_even_mono. lra. }
  nia.
Qed.

Lemma round_half_even_le q (n : Z) : (q <= inject_Z n)%Q -> round_half_even q <= n.
Proof.
  intros Hle. apply round_half_even_mono in Hle.
  assert (Hn : round_half_even (inject_Z n) = n).
  { unfold round_half_even. rewrite Qfloor_Z.
    destruct (Qcompare_spec (inject_Z n - inject_Z n) (1 # 2)) as [H|H|H];
      [exfalso; lra | reflexivity | exfalso; lra]. }
  lia.
Qed.

Lemma py_min_mono a b b' : (b <= b')%Q -> (py_min a b <= py_min a b')%Q.
Proof.
  intros Hle. rewrite !py_min_spec. apply Q.min_le_compat_l, Hle.
Qed.

End Rounding.

(** ** Floats *)

Section Floats.

Lemma round_half_even_Z (n : Z) : round_half_even (inject_Z n) = n.
Proof.
  unfold round_half_even. rewrite Qfloor_Z.
  destruct (Qcompare_spec (inject_Z n - inject_Z n) (1 # 2)) as [H|H|H];
    [exfalso; lra | reflexivity | exfalso; lra].
Qed.


Lemma pow2_pos e : (0 < pow2 e)%Q.
Proof. apply Qpower_0_lt. reflexivity. Qed.

Lemma pow2_le a b : a <= b -> (pow2 a <= pow2 b)%Q.
Proof. intros H. apply Qpower_le_compat_l; [exact H | discriminate]. Qed.

Lemma pow2_Z a : 0 <= a -> (pow2 a == inject_Z (2 ^ a))%Q.
Proof. intros H. unfold pow2. rewrite Zpower_Qpower by exact H. reflexivity. Qed.

Lemma pow2_ratio a b :
  0 <= a -> 0 <= b -> (pow2 (a - b) == inject_Z (2 ^ a) / inject_Z (2 ^ b))%Q.
Proof.
  intros Ha Hb. unfold pow2. rewrite Qpower_minus by discriminate.
  rewrite !Zpower_Qpower by assumption. reflexivity.
Qed.

(** [last_place] brackets its argument. *)
Lemma floor_log2 (x : Q) :
  (0 < x)%Q ->
  let k := Z.log2 (Qnum x) - Z.log2 (Zpos (Qden x)) in
  let l := if Qle_bool (pow2 k) x then k else k - 1 in
  (pow2 l <= x < pow2 (l + 1))%Q.
Proof.
  intros Hx. destruct x as [n d]. cbn [Qnum Qden].
  assert (Hn : 0 < n). { unfold Qlt in Hx. cbn in Hx. lia. }
  pose proof (Z.log2_spec n Hn) as [Hn1 Hn2].
  pose proof (Z.log2_spec (Zpos d) (Pos2Z.is_pos d)) as [Hd1 Hd2].
  pose proof (Z.log2_nonneg n) as Ha. pose proof (Z.log2_nonneg (Zpos d)) as Hb.
  set (a := Z.log2 n) in *. set (b := Z.log2 (Zpos d)) in *.
  assert (HA : 0 < 2 ^ a) by (apply Z.pow_pos_nonneg; lia).
  assert (HB : 0 < 2 ^ b) by (apply Z.pow_pos_nonneg; lia).
  rewrite !Z.pow_succ_r in * by lia.
  assert (Hq : forall p q : Z, 0 < q ->
            (inject_Z p / inject_Z q == p # Z.to_pos q)%Q).
  { intros p q Hq. rewrite (Qmake_Qdiv p (Z.to_pos q)), Z2Pos.id by exact Hq.
    reflexivity. }
  assert (Hup : (n # d < pow2 (a - b + 1))%Q).
  { replace (a - b + 1) with ((a + 1) - b) by lia.
    rewrite pow2_ratio by lia. rewrite Hq by exact HB.
    unfold Qlt. cbn [Qnum Qden]. rewrite Z2Pos.id by exact HB.
    replace (a + 1) with (Z.succ a) by lia. rewrite Z.pow_succ_r by lia. nia. }
  assert (Hdown : (pow2 (a - b - 1) <= n # d)%Q).
  { replace (a - b - 1) with (a - (b + 1)) by lia.
    rewrite pow2_ratio by lia.
    assert (HB' : 0 < 2 ^ (b + 1)) by (apply Z.pow_pos_nonneg; lia).
    rewrite Hq by exact HB'.
    unfold Qle. cbn [Qnum Qden]. rewrite Z2Pos.id by exact HB'.
    replace (b + 1) with (Z.succ b) by lia. rewrite Z.pow_succ_r by lia. nia. }
  cbv zeta.
  destruct (Qle_bool (pow2 (a - b)) (n # d)) eqn:E.
  - apply Qle_bool_iff in E. split; [exact E | exact Hup].
  - split; [exact Hdown|].
    replace (a - b - 1 + 1) with (a - b) by lia.
    apply Qnot_le_lt. intros H. apply Qle_bool_iff in H. congruence.
Qed.

Lemma last_place_spec (x : Q) :
  (0 < x)%Q ->
  -1074 <= last_place x
  /\ (x < pow2 (last_place x + 53))%Q
  /\ (-1074 < last_place x -> (pow2 (last_place x + 52) <= x)%Q).
Proof.
  intros Hx. pose proof (floor_log2 x Hx) as H. cbv zeta in H.
  unfold last_place.
  set (l := if Qle_bool _ _ then _ else _) in *. clearbody l.
  destruct H as [H1 H2]. split_and!.
  - lia.
  - eapply Qlt_le_trans; [exact H2|]. apply pow2_le. lia.
  - intros He. replace (Z.max (l - 52) (-1074) + 52) with l by lia. exact H1.
Qed.

Lemma nearest_double_spec (x : Q) :
  (0 < x)%Q ->
  (0 <= nearest_double x <= pow2 (last_place x + 53))%Q
  /\ (-1074 < last_place x -> (pow2 (last_place x + 52) <= nearest_double x)%Q).
Proof.
  intros Hx. destruct (last_place_spec x Hx) as (He & Hup & Hdown).
  unfold nearest_double. set (e := last_place x) in *. clearbody e.
  pose proof (pow2_pos e) as Hp.
  assert (H53 : (pow2 (e + 53) == inject_Z (2 ^ 53) * pow2 e)%Q).
  { unfold pow2. rewrite Z.add_comm, Qpower_plus by discriminate. reflexivity. }
  assert (H52 : (pow2 (e + 52) == inject_Z (2 ^ 52) * pow2 e)%Q).
  { unfold pow2. rewrite Z.add_comm, Qpower_plus by discriminate. reflexivity. }
  assert (Hm0 : 0 <= round_half_even (x / pow2 e)).
  { rewrite <- (round_half_even_Z 0). apply round_half_even_mono.
    apply Qle_shift_div_l; [exact Hp|].
    change (inject_Z 0) with 0%Q. rewrite Qmult_0_l. lra. }
  assert (Hm1 : round_half_even (x / pow2 e) <= 2 ^ 53).
  { rewrite <- (round_half_even_Z (2 ^ 53)). apply round_half_even_mono.
    apply Qle_shift_div_r; [exact Hp|]. rewrite <- H53. lra. }
  split_and!.
  - apply Qmult_le_0_compat; [|lra].
    change 0%Q with (inject_Z 0). rewrite <- Zle_Qle. exact Hm0.
  - rewrite H53. apply Qmult_le_compat_r; [|lra]. rewrite <- Zle_Qle. exact Hm1.
  - intros Hn. specialize (Hdown Hn). rewrite H52.
    apply Qmult_le_compat_r; [|lra]. rewrite <- Zle_Qle.
    rewrite <- (round_half_even_Z (2 ^ 52)). apply round_half_even_mono.
    apply Qle_shift_div_l; [exact Hp|]. rewrite <- H52. exact Hdown.
Qed.

Lemma nearest_double_mono (x y : Q) :
  (0 < x)%Q -> (x <= y)%Q -> (nearest_double x <= nearest_double y)%Q.
Proof.
  intros Hx Hxy. assert (Hy : (0 < y)%Q) by lra.
  destruct (last_place_spec x Hx) as (Hex & Hxup & Hxdown).
  destruct (last_place_spec y Hy) as (Hey & Hyup & Hydown).
  destruct (nearest_double_spec x Hx) as ((_ & Hnx) & _).
  destruct (nearest_double_spec y Hy) as (_ & Hny).
  destruct (Z.lt_trichotomy (last_place x) (last_place y)) as [Hlt|[Heq|Hgt]].
  - apply (Qle_trans _ _ _ Hnx).
    apply (Qle_trans _ (pow2 (last_place y + 52))); [apply pow2_le; lia|].
    apply Hny. lia.
  - unfold nearest_double. rewrite Heq.
    pose proof (pow2_pos (last_place y)) as Hp.
    apply Qmult_le_compat_r; [|lra]. rewrite <- Zle_Qle.
    apply round_half_even_mono.
    apply Qle_shift_div_l; [exact Hp|].
    unfold Qdiv. rewrite <- Qmult_assoc, (Qmult_comm (/ _)), Qmult_inv_r, Qmult_1_r
      by lra. exact Hxy.
  - exfalso. specialize (Hxdown ltac:(lia)).
    assert (H : (pow2 (last_place y + 53) <= pow2 (last_place x + 52))%Q)
      by (apply pow2_le; lia).
    lra.
Qed.

Lemma float_mono (x y : Q) : (x <= y)%Q -> (float x <= float y)%Q.
Proof.
  intros Hxy. unfold float. rewrite !Qred_correct.
  destruct (Qcompare_spec x 0) as [Hx|Hx|Hx];
    destruct (Qcompare_spec y 0) as [Hy|Hy|Hy]; try (exfalso; lra).
  - lra.
  - destruct (nearest_double_spec y Hy) as ((H & _) & _). exact H.
  - destruct (nearest_double_spec (- x)) as ((H & _) & _); [lra|]. lra.
  - assert (H : (nearest_double (- y) <= nearest_double (- x))%Q)
      by (apply nearest_double_mono; lra).
    lra.
  - destruct (nearest_double_spec (- x)) as ((H & _) & _); [lra|].
    destruct (nearest_double_spec y Hy) as ((H' & _) & _). lra.
  - apply nearest_double_mono; assumption.
Qed.

(** [float] reads its argument as a number. *)
Lemma float_comp (x y : Q) : (x == y)%Q -> float x = float y.
Proof.
  intros Hxy. apply Qred_complete.
  apply Qle_antisym.
  - pose proof (float_mono x y ltac:(lra)) as H. unfold float in H.
    rewrite !Qred_correct in H. exact H.
  - pose proof (float_mono y x ltac:(lra)) as H. unfold float in H.
    rewrite !Qred_correct in H. exact H.
Qed.

(** A number between two floats is rounded between them. *)
Lemma float_between (lo hi x : Q) :
  float lo = lo -> float hi = hi -> (lo <= x <= hi)%Q -> (lo <= float x <= hi)%Q.
Proof.
  intros Hlo Hhi [H1 H2].
  split; [rewrite <- Hlo | rewrite <- Hhi]; apply float_mono; assumption.
Qed.

End Floats.

(** ** C1: the range of the components *)

Section ComponentBounds.
Context `{RT : Runtime}.
Import Generator.

Lemma Qle_closed (a b : Q) : Qle_bool a b = true -> (a <= b)%Q.
Proof. apply Qle_bool_iff. Qed.

Ltac closed_Qle := apply Qle_closed; vm_compute; reflexivity.

(** The argument of [math.exp] in the failed-attempts block is negative,
    and decreases with the number of failures. *)
Lemma overshoot_negative (over over' : Z) :
  1 <= over <= over' ->
  (float_div (inject_Z (- over')) 3 <= float_div (inject_Z (- over)) 3)%Q
  /\ (float_div (inject_Z (- over)) 3 < 0)%Q.
Proof.
  intros [H1 H2]. unfold float_div.
  assert (Ho : (inject_Z (- over') / 3 <= inject_Z (- over) / 3)%Q).
  { unfold Qdiv. change (/ 3)%Q with (1 # 3)%Q.
    apply Qmult_le_compat_r; [|discriminate]. rewrite <- Zle_Qle. lia. }
  split; [apply float_mono, Ho|].
  apply Qle_lt_trans with (float (- (1 # 3))); [|vm_compute; reflexivity].
  apply float_mono. unfold Qdiv. change (/ 3)%Q with (1 # 3)%Q.
  assert (H : (inject_Z (- over) <= inject_Z (- 1))%Q) by (rewrite <- Zle_Qle; lia).
  change (inject_Z (- 1)) with (- (1))%Q in H. lra.
Qed.

(** The product the failed-attempts component rounds is not negative. *)
Lemma failed_product_nonneg (e : Q) :
  (e <= 1)%Q -> (0 <= float_mul 25 (float (1 - e)))%Q.
Proof.
  intros He.
  assert (Hf : (0 <= float (1 - e))%Q).
  { change 0%Q with (float 0) at 1. apply float_mono. lra. }
  unfold float_mul. change 0%Q with (float 0) at 1. apply float_mono.
  set (f := float (1 - e)) in *. clearbody f. lra.
Qed.

Lemma score_failed_attempts_bounds num_fails total :
  (forall x, (x < 0)%Q -> (exp x <= 1)%Q) ->
  (0 <= (score_failed_attempts num_fails total).1 <= 25)%Q.
Proof.
  intros Hexp. unfold score_failed_attempts.
  destruct (Nat.leb BRUTE_FORCE_FAIL_THRESHOLD num_fails) eqn:E; cbn [fst];
    [|split; closed_Qle].
  apply Nat.leb_le in E. unfold BRUTE_FORCE_FAIL_THRESHOLD in *.
  change (failed_attempts SCORING_WEIGHTS) with 25%Q.
  split; [|apply py_min_le_l].
  apply py_min_ge; [closed_Qle|].
  apply round2_nonneg, failed_product_nonneg, Hexp.
  set (over := Z.of_nat num_fails - (Z.of_nat 5 - 1)).
  destruct (overshoot_negative over over) as [_ H]; [lia | exact H].
Qed.

Lemma speed_tier_bounds avg : (0 <= (speed_tier avg).1 <= 20)%Q.
Proof.
  unfold speed_tier.
  repeat (match goal with |- context [Qltb ?a ?b] => destruct (Qltb a b) end);
    simpl; split; closed_Qle.
Qed.

Lemma score_attack_speed_bounds ts : (0 <= (score_attack_speed ts).1 <= 20)%Q.
Proof.
  unfold score_attack_speed.
  destruct (Nat.leb 3 (length ts)); [|simpl; split; closed_Qle].
  cbv zeta.
  match goal with |- context [match ?l with [] => _ | _ => _ end] => destruct l end;
    [simpl; split; closed_Qle | apply speed_tier_bounds].
Qed.

Lemma score_tool_detection_bounds uas : (0 <= (score_tool_detection uas).1 <= 15)%Q.
Proof.
  unfold score_tool_detection. destruct (find is_suspicious uas); simpl; split; closed_Qle.
Qed.

Lemma geo_loop_bounds countries g reasons :
  (0 <= g <= 10)%Q -> (0 <= (geo_loop countries g reasons).1 <= 10)%Q.
Proof.
  revert g reasons.
  induction countries as [|c rest IH]; intros g reasons Hg; cbn [geo_loop].
  - exact Hg.
  - destruct (in_list c HIGH_RISK_COUNTRIES).
    + cbn [fst]. apply py_max_between; [exact Hg | split; closed_Qle].
    + destruct (in_list c MEDIUM_RISK_COUNTRIES); apply IH; [|exact Hg].
      apply py_max_between; [exact Hg | split; closed_Qle].
Qed.

Lemma score_geographic_risk_bounds countries :
  (0 <= (score_geographic_risk countries).1 <= 10)%Q.
Proof. apply geo_loop_bounds. split; closed_Qle. Qed.

Lemma score_user_spread_bounds n : (0 <= (score_user_spread n).1 <= 15)%Q.
Proof.
  unfold score_user_spread.
  repeat (match goal with |- context [Nat.leb ?a ?b] => destruct (Nat.leb a b) end);
    simpl; split; closed_Qle.
Qed.

Lemma score_persistence_bounds ts : (0 <= (score_persistence ts).1 <= 15)%Q.
Proof.
  unfold score_persistence.
  destruct (Nat.leb 2 (length ts)); [|cbn [fst]; split; closed_Qle].
  destruct (head ts), (last ts); cbv zeta;
    repeat (match goal with |- context [Qgeb ?a ?b] => destruct (Qgeb a b) end);
    cbn [fst]; split; closed_Qle.
Qed.

Lemma hvt_bonus_bounds targeted spread :
  (0 <= spread <= 15)%Q ->
  (0 <= (hvt_bonus targeted spread).1 <= 20)%Q
  /\ (targeted = [] -> (hvt_bonus targeted spread).1 = spread).
Proof.
  intros Hs. unfold hvt_bonus. destruct targeted as [|t l]; simpl.
  - split; [lra | reflexivity].
  - split; [|discriminate].
    pose proof (py_min_spec 100 (spread + 5)) as H.
    rewrite H. rewrite Q.min_r by lra. lra.
Qed.

Lemma round2_zero : (round2 0 == 0)%Q.
Proof. reflexivity. Qed.

End ComponentBounds.

Section ScoreRange.
Context `{RT : Runtime}.
Import Generator.

Hypothesis exp_le_1 : forall x, (x < 0)%Q -> (exp x <= 1)%Q.

Lemma score_recent_components now recent :
  let r := score_recent now recent in
  let c := scored_components r in
  (0 <= failed_attempts c <= 25)%Q
  /\ (0 <= attack_speed c <= 20)%Q
  /\ (0 <= tool_detection c <= 15)%Q
  /\ (0 <= geographic_risk c <= 10)%Q
  /\ (0 <= user_spread c <= 20)%Q
  /\ (0 <= persistence c <= 15)%Q
  /\ (forall st, scored_stats r = Some st -> st_targeted_hvt st = [] ->
      (user_spread c <= 15)%Q)
  /\ scored_score r = py_min (round2 (sum_components c)) 100.
Proof.
  unfold score_recent.
  set (a := tally now recent). set (ts := merge_sort Z.le (times a)).
  set (st := stats_of recent a ts).
  pose proof (score_failed_attempts_bounds (st_failed_attempts st) (length recent)
                exp_le_1) as Hf.
  pose proof (score_attack_speed_bounds ts) as Hs.
  pose proof (score_tool_detection_bounds (st_user_agents st)) as Ht.
  pose proof (score_geographic_risk_bounds (st_countries st)) as Hg.
  pose proof (score_user_spread_bounds (length (st_unique_users st))) as Hu.
  pose proof (score_persistence_bounds ts) as Hp.
  destruct (score_failed_attempts _ _) as [c1 r1].
  destruct (score_attack_speed _) as [c2 r2].
  destruct (score_tool_detection _) as [c3 r3].
  destruct (score_geographic_risk _) as [c4 r4].
  destruct (score_user_spread _) as [c5 r5].
  destruct (score_persistence _) as [c6 r6].
  cbn [fst] in *.
  pose proof (hvt_bonus_bounds (st_targeted_hvt st) c5 Hu) as [Hb Hb'].
  destruct (hvt_bonus _ _) as [c5' r7]. cbn [fst] in *.
  unfold scored_components, scored_score, scored_stats. cbn.
  repeat split; try tauto.
  intros st' [= <-] Hnil. rewrite (Hb' Hnil). tauto.
Qed.

End ScoreRange.

Lemma Reference_series_ge_1 n k y : (0 <= y)%Q -> (1 <= Reference.series n k y)%Q.
Proof.
  intros Hy. revert k. induction n as [|n IH]; intros k; cbn [Reference.series].
  - lra.
  - specialize (IH (Pos.succ k)).
    assert (Hk : (0 <= y * (1 # k))%Q).
    { apply Qmult_le_0_compat; [exact Hy | unfold Qle; simpl; lia]. }
    assert (H : (0 <= y * (1 # k) * Reference.series n (Pos.succ k) y)%Q).
    { apply Qmult_le_0_compat; [exact Hk | lra]. }
    lra.
Qed.

Lemma Reference_exp_le_1 x : (x < 0)%Q -> (Reference.exp x <= 1)%Q.
Proof.
  intros Hx. unfold Reference.exp.
  assert (E : Qle_bool x 0 = true) by (apply Qle_bool_iff; lra).
  rewrite E, Qred_correct.
  apply Qle_shift_inv_r.
  - pose proof (Reference_series_ge_1 12 1 (- x)). lra.
  - pose proof (Reference_series_ge_1 12 1 (- x)). lra.
Qed.

(** C1, as amended. The components of every score are non-negative; five of
    them stay within their weights (25, 20, 15, 10 and 15 for persistence);
    the user-spread component stays within its weight 15 when no high-value
    account is targeted and within 20, the weight plus the bonus of 5,
    otherwise; the total is [min(100, round(sum, 2))]. *)
Theorem C1_component_ranges `{RT : Runtime}
    (exp_le_1 : forall x, (x < 0)%Q -> (exp x <= 1)%Q)
    (now : Z) (events : list Event) (ip : string) :
  let r := Generator.calculate_threat_score_ip now events ip in
  let c := Generator.scored_components r in
  (0 <= failed_attempts c <= failed_attempts Generator.SCORING_WEIGHTS)%Q
  /\ (0 <= attack_speed c <= attack_speed Generator.SCORING_WEIGHTS)%Q
  /\ (0 <= tool_detection c <= tool_detection Generator.SCORING_WEIGHTS)%Q
  /\ (0 <= geographic_risk c <= geographic_risk Generator.SCORING_WEIGHTS)%Q
  /\ (0 <= user_spread c <= user_spread Generator.SCORING_WEIGHTS + 5)%Q
  /\ (0 <= persistence c <= persistence Generator.SCORING_WEIGHTS)%Q
  /\ (forall st, Generator.scored_stats r = Some st -> st_targeted_hvt st = [] ->
      (user_spread c <= user_spread Generator.SCORING_WEIGHTS)%Q)
  /\ (Generator.scored_stats r = None -> (user_spread c == 0)%Q)
  /\ (Generator.scored_score r ==
      Qmin 100 (round2 (failed_attempts c + attack_speed c + tool_detection c
                        + geographic_risk c + user_spread c + persistence c)))%Q.
Proof.
  intros r c.
  assert (Hsum : forall c', (Generator.sum_components c' ==
            failed_attempts c' + attack_speed c' + tool_detection c'
            + geographic_risk c' + user_spread c' + persistence c')%Q).
  { intros c'. unfold Generator.sum_components, Qsum. cbn [fold_left]. lra. }
  assert (Hround : forall x y, (x == y)%Q -> round2 x = round2 y).
  { intros x y Hxy. unfold round2, round_half_even.
    assert (Hm : (x * 100 == y * 100)%Q) by (rewrite Hxy; reflexivity).
    rewrite (Qfloor_comp _ _ Hm).
    assert (Hc : Qcompare (x * 100 - inject_Z (Qfloor (y * 100))) (1 # 2)
                 = Qcompare (y * 100 - inject_Z (Qfloor (y * 100))) (1 # 2)).
    { apply Qcompare_comp; [rewrite Hm|]; reflexivity. }
    rewrite Hc. reflexivity. }
  subst r c. unfold Generator.calculate_threat_score_ip.
  destruct (filter _ events) as [|e l] eqn:Hf.
  - unfold Generator.scored_components, Generator.scored_score,
      Generator.scored_stats. cbn.
    repeat split; try (apply Qle_bool_iff; reflexivity); try discriminate.
  - pose proof (score_recent_components exp_le_1 now
                  (lastn 200 (e :: l))) as H.
    cbv zeta in H.
    destruct H as (H1 & H2 & H3 & H4 & H5 & H6 & H7 & H8).
    change (failed_attempts Generator.SCORING_WEIGHTS) with 25%Q.
    change (attack_speed Generator.SCORING_WEIGHTS) with 20%Q.
    change (tool_detection Generator.SCORING_WEIGHTS) with 15%Q.
    change (geographic_risk Generator.SCORING_WEIGHTS) with 10%Q.
    change (user_spread Generator.SCORING_WEIGHTS) with 15%Q.
    change (persistence Generator.SCORING_WEIGHTS) with 15%Q.
    split; [lra|]. split; [lra|]. split; [lra|]. split; [lra|].
    split; [lra|]. split; [lra|]. split; [exact H7|]. split.
    + intros Hnone. exfalso. revert Hnone. unfold Generator.score_recent.
      repeat (match goal with |- context [let '(_, _) := ?x in _] => destruct x end).
      discriminate.
    + rewrite H8, py_min_spec, Q.min_comm.
      rewrite (Hround _ _ (Hsum _)). reflexivity.
Qed.

(** Witness of C1 as amended: the reference runtime on fifteen logins. *)
Lemma C1_component_ranges_witness :
  let r := Generator.calculate_threat_score_ip (RT := Reference.runtime) 0
             Scenario.spread_events "5.39.7.7" in
  (0 <= user_spread (Generator.scored_components r) <= 20)%Q
  /\ (Generator.scored_score r == 20)%Q.
Proof.
  pose proof (C1_component_ranges (RT := Reference.runtime) Reference_exp_le_1 0
                Scenario.spread_events "5.39.7.7") as H.
  cbv zeta in H. destruct H as (_ & _ & _ & _ & H5 & _).
  split; [exact H5 | vm_compute; reflexivity].
Defined.

(** C1 fails as stated: with fifteen users, one of them a high-value
    account, the user-spread component is 20, above its weight 15. *)
Lemma C1_user_spread_exceeds_weight :
  let c := Generator.scored_components
             (Generator.calculate_threat_score_ip (RT := Reference.runtime) 0
                Scenario.spread_events "5.39.7.7") in
  (user_spread c == 20)%Q
  /\ ~ (0 <= user_spread c <= user_spread Generator.SCORING_WEIGHTS)%Q.
Proof.
  split.
  - vm_compute. reflexivity.
  - intros [_ H]. apply Qle_bool_iff in H. vm_compute in H. discriminate.
Qed.

(** ** C3: events whose date and time do not parse *)

Lemma tally_times_length `{RT : Runtime} now recent a :
  length (Generator.times (fold_left (Generator.tally_event now) recent a))
  = (length (Generator.times a) + length recent)%nat.
Proof.
  revert a. induction recent as [|e rest IH]; intros a; cbn [fold_left length].
  - lia.
  - rewrite IH. unfold Generator.tally_event.
    destruct (truthy (ev_user e)); cbn [Generator.times]; rewrite length_app;
      cbn [length]; lia.
Qed.

(** C3, the code at a failing input. Every event read adds a timestamp to
    [times], parsed or not. On the reference runtime, the day-first date of
    [misdated_event] fails both formats, and [parse_datetime] gives it the
    clock's time; with the clock at noon, the three events then span two
    hours and persistence scores its full weight 15, where the two well-dated
    events alone span thirty seconds and score 0. *)
Theorem C3_unparsable_event_is_timed_now :
  (forall (RT : Runtime) now recent,
     length (Generator.times (Generator.tally now recent)) = length recent)
  /\ Reference.strptime "01/03/2024 10:01:00.000" "%Y-%m-%d %H:%M:%S.%f" = None
  /\ Reference.strptime "01/03/2024 10:01:00.000" "%Y-%m-%d %H:%M:%S" = None
  /\ Generator.times
       (Generator.tally (RT := Reference.runtime) Scenario.noon
          (Scenario.dated_events ++ [Scenario.misdated_event]))
     = [1709287200000000; 1709287230000000; Scenario.noon]
  /\ (persistence (Generator.scored_components
        (Generator.calculate_threat_score_ip (RT := Reference.runtime) Scenario.noon
           (Scenario.dated_events ++ [Scenario.misdated_event]) "5.39.3.3")) == 15)%Q
  /\ (persistence (Generator.scored_components
        (Generator.calculate_threat_score_ip (RT := Reference.runtime) Scenario.noon
           Scenario.dated_events "5.39.3.3")) == 0)%Q.
Proof.
  split.
  { intros RT now recent. unfold Generator.tally. rewrite tally_times_length.
    reflexivity. }
  repeat split; vm_compute; reflexivity.
Qed.

(** ** C6: the attack-speed component *)

Section AttackSpeed.
Import Generator.


Lemma merge_sort_length {A} (R : relation A) `{!RelDecision R} (l : list A) :
  length (merge_sort R l) = length l.
Proof. apply Permutation_length, merge_sort_Permutation. Qed.






End AttackSpeed.




(** ** C8, C9, C10: the sanctions of the dashboard *)

Section Reconciliation.
Context `{RT : Runtime}.
Import Dashboard.

Lemma set_severity_same s : set_severity (sn_severity s) s = s.
Proof. destruct s. reflexivity. Qed.

(** What one iteration of the reconciliation keeps. *)
Lemma review_sanction_kept now scores entity s :
  (review_sanction now scores entity s).1 =
  match scores !! entity with
  | None => None
  | Some threat =>
      if Qltb (ts_score threat) 31 then None
      else
        match truthy (sn_expires_at s) ≫= fromisoformat with
        | Some expires =>
            if Z.gtb now expires then None
            else Some (set_severity (get_severity_level (ts_score threat)) s)
        | None => Some (set_severity (get_severity_level (ts_score threat)) s)
        end
  end.
Proof.
  unfold review_sanction.
  destruct (scores !! entity) as [threat|]; [|reflexivity].
  destruct (Qltb (ts_score threat) 31); [reflexivity|].
  cbv zeta. case_bool_decide as Hsev.
  - cbn [set_severity sn_expires_at].
    destruct (truthy (sn_expires_at s)) as [text|]; cbn; [|reflexivity].
    destruct (fromisoformat text) as [expires|]; [|reflexivity].
    destruct (Z.gtb now expires); reflexivity.
  - rewrite <- Hsev, set_severity_same.
    destruct (truthy (sn_expires_at s)) as [text|]; cbn; [|reflexivity].
    destruct (fromisoformat text) as [expires|]; [|reflexivity].
    destruct (Z.gtb now expires); reflexivity.
Qed.

(** An iteration leaves [changed] alone exactly when it keeps the sanction
    as it was. *)
Lemma review_sanction_changed now scores entity s :
  (review_sanction now scores entity s).2 = false
  <-> (review_sanction now scores entity s).1 = Some s.
Proof.
  unfold review_sanction.
  destruct (scores !! entity) as [threat|]; [|split; discriminate].
  destruct (Qltb (ts_score threat) 31); [split; discriminate|].
  cbv zeta. case_bool_decide as Hsev.
  - assert (Hne : forall sev', sev' = get_severity_level (ts_score threat) ->
                   Some (set_severity sev' s) <> Some s).
    { intros sev' -> [= H]. apply Hsev. rewrite <- H at 1. reflexivity. }
    specialize (Hne _ eq_refl).
    cbn [set_severity sn_expires_at].
    destruct (truthy (sn_expires_at s)) as [text|]; cbn;
      [destruct (fromisoformat text) as [expires|];
         [destruct (Z.gtb now expires)|]|];
      cbn; split; try discriminate; intros H; contradiction.
  - destruct (truthy (sn_expires_at s)) as [text|]; cbn;
      [destruct (fromisoformat text) as [expires|];
         [destruct (Z.gtb now expires)|]|];
      cbn; split; try discriminate; reflexivity.
Qed.

Lemma get_sanctions_cleaned now w entity :
  (get_sanctions now w).1 !! entity
  = sanctions_json w !! entity
    ≫= fun s => (review_sanction now (scores_json w) entity s).1.
Proof. unfold get_sanctions. cbn [fst]. apply map_lookup_imap. Qed.

Lemma get_sanctions_changed now w :
  existsb
    (fun '(entity, sanction) =>
       (review_sanction now (scores_json w) entity sanction).2)
    (map_to_list (sanctions_json w)) = true
  <-> exists entity s,
        sanctions_json w !! entity = Some s
        /\ (get_sanctions now w).1 !! entity <> Some s.
Proof.
  rewrite existsb_exists. split.
  - intros [[entity s] [Hin Hch]].
    apply list_elem_of_In, elem_of_map_to_list in Hin.
    exists entity, s. split; [exact Hin|].
    rewrite get_sanctions_cleaned, Hin. cbn.
    intros Hkept. apply review_sanction_changed in Hkept. congruence.
  - intros (entity & s & Hin & Hne).
    exists (entity, s). split.
    + apply list_elem_of_In, elem_of_map_to_list. exact Hin.
    + rewrite get_sanctions_cleaned, Hin in Hne. cbn in Hne.
      destruct (review_sanction now (scores_json w) entity s).2 eqn:E;
        [reflexivity|].
      apply review_sanction_changed in E. contradiction.
Qed.

End Reconciliation.


(** C10. A stored sanction whose expiry is set but does not read as a
    timestamp is kept by the reconciliation pass, whatever the clock says,
    as long as its key has a threat score of at least 31: it stays in the
    cleaned collection, with the severity of the current score and its
    expiry text untouched. *)
Theorem C10_malformed_expiry_is_kept `{RT : Runtime} (now : Z) (w : World)
    (entity : string) (s : Sanction) (text : string) (threat : ThreatScore) :
  sanctions_json w !! entity = Some s ->
  sn_expires_at s = Some text ->
  fromisoformat text = None ->
  scores_json w !! entity = Some threat ->
  (31 <= ts_score threat)%Q ->
  exists s',
    (Dashboard.get_sanctions now w).1 !! entity = Some s'
    /\ s' = Dashboard.set_severity (Dashboard.get_severity_level (ts_score threat)) s
    /\ sn_expires_at s' = Some text.
Proof.
  intros Hs Hexp Hiso Hsc Hscore.
  exists (Dashboard.set_severity (Dashboard.get_severity_level (ts_score threat)) s).
  split_and!; [|reflexivity | exact Hexp].
  rewrite get_sanctions_cleaned, Hs. cbn. rewrite review_sanction_kept, Hsc.
  apply Qltb_false in Hscore. rewrite Hscore, Hexp.
  destruct text as [|c rest]; cbn; [reflexivity|].
  rewrite Hiso. reflexivity.
Qed.

(** C9. A manual lift with a type and a value: when no sanction is stored
    under [type:value] the answer is the 404 "not found" and nothing is
    written, every file and the log of saves staying as they were; when one
    is stored the answer is the success, the collection is saved with that
    sanction still under its key, its [active] flag off and each of its
    other thirteen fields as it was, and every other key as before. *)
Theorem C9_manual_lift (s_type value : string) (w : World) :
  s_type <> "" -> value <> "" ->
  let key := s_type +:+ ":" +:+ value in
  let answer := Dashboard.remove_sanction (Some s_type) (Some value) w in
  (sanctions_json w !! key = None ->
     answer = (Dashboard.SanctionNotFound, w)
     /\ Dashboard.status_code answer.1 = 404%nat)
  /\ (forall s, sanctions_json w !! key = Some s ->
        answer.1 = Dashboard.SanctionLifted s_type value
        /\ Dashboard.status_code answer.1 = 200%nat
        /\ (exists s',
              sanctions_json answer.2 !! key = Some s'
              /\ sn_active s' = false
              /\ sn_entity_type s' = sn_entity_type s
              /\ sn_entity_value s' = sn_entity_value s
              /\ sn_score s' = sn_score s
              /\ sn_severity s' = sn_severity s
              /\ sn_action s' = sn_action s
              /\ sn_description s' = sn_description s
              /\ sn_blocked s' = sn_blocked s
              /\ sn_created_at s' = sn_created_at s
              /\ sn_expires_at s' = sn_expires_at s
              /\ sn_reasons s' = sn_reasons s
              /\ sn_components s' = sn_components s
              /\ sn_rate_limit s' = sn_rate_limit s
              /\ sn_requires_manual_review s' = sn_requires_manual_review s
              /\ (sn_active s = false -> s' = s))
        /\ sanctions_json answer.2 !! key = Some (Dashboard.deactivate s)
        /\ sn_active (Dashboard.deactivate s) = false
        /\ Dashboard.deactivate s = Dashboard.deactivate (Dashboard.deactivate s)
        /\ (sn_active s = false -> Dashboard.deactivate s = s)
        /\ dom (sanctions_json answer.2) = dom (sanctions_json w)
        /\ (forall other, other <> key ->
              sanctions_json answer.2 !! other = sanctions_json w !! other)
        /\ saved answer.2 = saved w ++ [SANCTIONS_FILE]
        /\ alerts_json answer.2 = alerts_json w
        /\ scores_json answer.2 = scores_json w).
Proof.
  intros Ht Hv key answer.
  assert (Hanswer : answer =
            match sanctions_json w !! key with
            | None => (Dashboard.SanctionNotFound, w)
            | Some sanction =>
                (Dashboard.SanctionLifted s_type value,
                 save_sanctions (<[key := Dashboard.deactivate sanction]> (sanctions_json w)) w)
            end).
  { subst answer. unfold Dashboard.remove_sanction.
    destruct s_type; [contradiction|]. destruct value; [contradiction|].
    reflexivity. }
  split.
  - intros Hnone. rewrite Hanswer, Hnone. split; reflexivity.
  - intros s Hs. rewrite Hanswer, Hs. cbn.
    assert (Hsame : sn_active s = false -> Dashboard.deactivate s = s).
    { intros Hact. destruct s. cbn in Hact. rewrite Hact. reflexivity. }
    split; [reflexivity|]. split; [reflexivity|]. split.
    { exists (Dashboard.deactivate s).
      split; [apply lookup_insert_eq|].
      split; [reflexivity|].
      split; [reflexivity|]. split; [reflexivity|]. split; [reflexivity|].
      split; [reflexivity|]. split; [reflexivity|]. split; [reflexivity|].
      split; [reflexivity|]. split; [reflexivity|]. split; [reflexivity|].
      split; [reflexivity|]. split; [reflexivity|]. split; [reflexivity|].
      split; [reflexivity | exact Hsame]. }
    split; [apply lookup_insert_eq|].
    split; [reflexivity|]. split; [reflexivity|]. split; [exact Hsame|].
    split; [apply dom_insert_lookup_L; rewrite Hs; eauto|].
    split; [intros other Hne; apply lookup_insert_ne; congruence|].
    split_and!; reflexivity.
Qed.

(** Witness of C10: the sanction of 5.39.3.3, whose expiry reads
    "in one hour", at noon on the reference runtime. *)
Lemma C10_malformed_expiry_is_kept_witness :
  exists s',
    (Dashboard.get_sanctions (RT := Reference.runtime) Scenario.noon
       Scenario.sanctioned_world).1 !! "IP:5.39.3.3" = Some s'
    /\ s' = Dashboard.set_severity HIGH
              (Scenario.sanction_for "5.39.3.3" 45 (Some "in one hour"))
    /\ sn_expires_at s' = Some "in one hour".
Proof.
  apply (C10_malformed_expiry_is_kept (RT := Reference.runtime) Scenario.noon
           Scenario.sanctioned_world "IP:5.39.3.3"
           (Scenario.sanction_for "5.39.3.3" 45 (Some "in one hour"))
           "in one hour" (Scenario.threat_for "5.39.3.3" 70)).
  - vm_compute. reflexivity.
  - reflexivity.
  - vm_compute. reflexivity.
  - vm_compute. reflexivity.
  - apply Qle_bool_iff. vm_compute. reflexivity.
Defined.

(** Witness of C9: lifting the sanction of 5.39.4.4. *)
Lemma C9_manual_lift_witness :
  let answer :=
    Dashboard.remove_sanction (Some "IP") (Some "5.39.4.4") Scenario.sanctioned_world in
  answer.1 = Dashboard.SanctionLifted "IP" "5.39.4.4"
  /\ (sn_active <$> sanctions_json answer.2 !! "IP:5.39.4.4") = Some false
  /\ saved answer.2 = [SANCTIONS_FILE].
Proof.
  pose proof (C9_manual_lift "IP" "5.39.4.4" Scenario.sanctioned_world) as H.
  cbv zeta in H.
  destruct H as [_ H]; [discriminate | discriminate |].
  specialize (H (Scenario.sanction_for "5.39.4.4" 45 (Some "2024-03-01T13:00:00"))).
  destruct H as (H1 & _ & _ & H2 & _ & _ & _ & _ & _ & H3 & _).
  { vm_compute. reflexivity. }
  cbv zeta. split_and!.
  - exact H1.
  - exact (f_equal (fmap sn_active) H2).
  - exact H3.
Defined.


(** ** The detection cycle *)

Section Grouping.
Import Generator.

Lemma group_lookup_append ip ip0 e g :
  group_lookup ip (group_append ip0 e g)
  = if String.eqb ip0 ip then Some (default [] (group_lookup ip0 g) ++ [e])
    else group_lookup ip g.
Proof.
  induction g as [|[k es] rest IH]; cbn [group_append group_lookup].
  - destruct (String.eqb_spec ip0 ip); reflexivity.
  - destruct (String.eqb_spec k ip0) as [->|Hk]; cbn [group_lookup].
    + destruct (String.eqb_spec ip0 ip); reflexivity.
    + rewrite IH.
      destruct (String.eqb_spec k ip) as [->|Hki];
        destruct (String.eqb_spec ip0 ip) as [->|Hi]; congruence.
Qed.

Lemma group_append_keys ip0 e g :
  (group_append ip0 e g).*1
  = if bool_decide (ip0 ∈ g.*1) then g.*1 else g.*1 ++ [ip0].
Proof.
  induction g as [|[k es] rest IH]; cbn [group_append fmap list_fmap fst].
  - reflexivity.
  - destruct (String.eqb_spec k ip0) as [->|Hk]; cbn [fmap list_fmap fst].
    + rewrite bool_decide_eq_true_2 by apply list_elem_of_here. reflexivity.
    + fold (@fmap list _ _ _ (@fst string (list Event))). rewrite IH.
      destruct (bool_decide_reflect (ip0 ∈ rest.*1)) as [Hin|Hin].
      * rewrite bool_decide_eq_true_2 by (apply list_elem_of_further, Hin).
        reflexivity.
      * rewrite bool_decide_eq_false_2; [reflexivity|].
        intros [?|?]%elem_of_cons; congruence.
Qed.

Lemma group_append_NoDup ip0 e g : NoDup g.*1 -> NoDup (group_append ip0 e g).*1.
Proof.
  intros Hnd. rewrite group_append_keys. case_bool_decide as Hin; [exact Hnd|].
  apply NoDup_app. split_and!; [exact Hnd | | apply NoDup_singleton].
  intros x Hx ->%list_elem_of_singleton. contradiction.
Qed.

Lemma group_by_ip_snoc latest e :
  group_by_ip (latest ++ [e])
  = match truthy (ev_ip e) with
    | Some ip =>
        if in_list ip LOCAL_IPS then group_by_ip latest
        else group_append ip e (group_by_ip latest)
    | None => group_by_ip latest
    end.
Proof. unfold group_by_ip. rewrite fold_left_app. reflexivity. Qed.

Lemma group_by_ip_NoDup latest : NoDup (group_by_ip latest).*1.
Proof.
  induction latest as [|e latest IH] using rev_ind.
  - apply NoDup_nil_2.
  - rewrite group_by_ip_snoc.
    destruct (truthy (ev_ip e)) as [ip|]; [|exact IH].
    destruct (in_list ip LOCAL_IPS); [exact IH|].
    apply group_append_NoDup, IH.
Qed.

Lemma truthy_Some o ip : truthy o = Some ip <-> o = Some ip /\ ip <> "".
Proof.
  destruct o as [[|c rest]|]; cbn.
  - split; [discriminate | intros [[= <-] H]; contradiction].
  - split; [intros [= <-]; split; [reflexivity | discriminate] | intros [H _]; exact H].
  - split; [discriminate | intros [H _]; discriminate].
Qed.

(** The group of an address the cycle groups is the list of its events in
    the window, in their order, when there is one. *)
Lemma group_by_ip_lookup latest ip :
  grouped ip ->
  group_lookup ip (group_by_ip latest)
  = match filter (fun e => ev_ip e = Some ip) latest with
    | [] => None
    | es => Some es
    end.
Proof.
  intros [Hne Hlocal].
  induction latest as [|e latest IH] using rev_ind; [reflexivity|].
  rewrite group_by_ip_snoc, filter_app.
  destruct (truthy (ev_ip e)) as [ip0|] eqn:Et.
  - apply truthy_Some in Et as [Hip0 Hne0].
    destruct (in_list ip0 LOCAL_IPS) eqn:Hl0.
    + rewrite filter_cons_False, filter_nil, app_nil_r by congruence. exact IH.
    + rewrite group_lookup_append.
      destruct (String.eqb_spec ip0 ip) as [->|Hi].
      * rewrite filter_cons_True, filter_nil by exact Hip0. rewrite IH.
        destruct (filter _ latest); reflexivity.
      * rewrite filter_cons_False, filter_nil, app_nil_r by congruence. exact IH.
  - rewrite filter_cons_False, filter_nil, app_nil_r; [exact IH|].
    intros Hip. assert (truthy (ev_ip e) = Some ip) by (apply truthy_Some; auto).
    congruence.
Qed.

Lemma group_lookup_elem ip es g : group_lookup ip g = Some es -> (ip, es) ∈ g.
Proof.
  induction g as [|[k es'] rest IH]; cbn [group_lookup]; [discriminate|].
  destruct (String.eqb_spec k ip) as [->|Hk].
  - intros [= ->]. apply list_elem_of_here.
  - intros H. apply list_elem_of_further, IH, H.
Qed.

End Grouping.

Section Cycle.
Context `{RT : Runtime}.
Import Generator.

Lemma calculate_without_stats now events ip :
  scored_stats (calculate_threat_score_ip now events ip) = None ->
  calculate_threat_score_ip now events ip = (0%Q, [], zero_components, None).
Proof.
  unfold calculate_threat_score_ip.
  destruct (filter _ events); [reflexivity|].
  unfold score_recent.
  repeat (match goal with |- context [let '(_, _) := ?x in _] => destruct x end).
  discriminate.
Qed.

Lemma sanctions_of_scored score :
  (31 <= score)%Q -> is_Some (SANCTIONS (get_severity_level score)).
Proof.
  intros H. unfold get_severity_level.
  destruct (Qgeb score 86); [cbn; eauto|].
  destruct (Qgeb score 61); [cbn; eauto|].
  destruct (Qgeb score 31) eqn:E; [cbn; eauto|].
  apply Qgeb_false in E. lra.
Qed.

Lemma apply_sanction_files now et v score sev reasons comps w :
  alerts_json (apply_sanction now et v score sev reasons comps w) = alerts_json w
  /\ scores_json (apply_sanction now et v score sev reasons comps w) = scores_json w
  /\ sanctions_json (apply_sanction now et v score sev reasons comps w)
     = match SANCTIONS sev with
       | Some cfg =>
           <[et +:+ ":" +:+ v :=
               sanction_entry now cfg et v score sev reasons comps]> (sanctions_json w)
       | None => sanctions_json w
       end.
Proof. unfold apply_sanction. destruct (SANCTIONS sev); split_and!; reflexivity. Qed.

Lemma sanctions_sanctioned now ip r w :
  sanctions_json (sanctioned now ip r w)
  = match SANCTIONS (get_severity_level (scored_score r)) with
    | Some cfg =>
        <["IP:" +:+ ip :=
            sanction_entry now cfg "IP" ip (scored_score r)
              (get_severity_level (scored_score r))
              (scored_reasons r) (scored_components r)]> (sanctions_json w)
    | None => sanctions_json w
    end.
Proof. unfold sanctioned, apply_sanction. destruct (SANCTIONS _); reflexivity. Qed.

Lemma ip_key_inj ip ip' : "IP:" +:+ ip = "IP:" +:+ ip' -> ip = ip'.
Proof. intros [= H]. exact H. Qed.

(** One iteration of the loop of the cycle. *)
Lemma detect_ip_spec now events c ip es :
  let r := calculate_threat_score_ip now events ip in
  exists c',
    detect_ip now events c (ip, es) = Some c'
    /\ ((~ qualifies now events ip es /\ c' = c)
        \/ (qualifies now events ip es
            /\ cy_scores c' = <["IP:" +:+ ip := threat_of ip r]> (cy_scores c)
            /\ cy_world c' = sanctioned now ip r (cy_world c)
            /\ (((Some ip ∈ cy_alerted_ips c)
                 /\ cy_alerts c' = cy_alerts c
                 /\ cy_alerted_ips c' = cy_alerted_ips c)
                \/ ((Some ip ∉ cy_alerted_ips c)
                    /\ (exists a, cy_alerts c' = cy_alerts c ++ [a]
                                  /\ al_type a = Some "Threat Detection"
                                  /\ al_ip a = Some ip
                                  /\ al_score a = scored_score r
                                  /\ al_severity a
                                     = get_severity_level (scored_score r))
                    /\ cy_alerted_ips c' = cy_alerted_ips c ∪ {[Some ip]})))).
Proof.
  intros r. unfold detect_ip, qualifies.
  destruct (Nat.ltb_spec (length es) 3) as [Hlen|Hlen].
  { exists c. split; [reflexivity|]. left. split; [lia | reflexivity]. }
  fold r. pose proof (calculate_without_stats now events ip) as Hnone. fold r in Hnone.
  unfold threat_of, sanctioned.
  destruct r as [[[score reasons] components] stats] eqn:Hr.
  unfold scored_score, scored_reasons, scored_components, scored_stats in *.
  cbn [fst snd] in *.
  destruct (Qgeb score 31) eqn:Hscore.
  2:{ apply Qgeb_false in Hscore. exists c. split; [reflexivity|].
      left. split; [lra | reflexivity]. }
  apply Qgeb_true in Hscore.
  case_bool_decide as Hal.
  { eexists. split; [reflexivity|]. right. cbn. split_and!; try done.
    left. done. }
  destruct (last es) as [sample|] eqn:Hlast.
  2:{ apply last_None in Hlast. subst es. cbn in Hlen. lia. }
  destruct stats as [st|].
  2:{ specialize (Hnone eq_refl). injection Hnone as -> _ _.
      exfalso. revert Hscore. apply Qlt_not_le. reflexivity. }
  cbn. eexists. split; [reflexivity|]. right. cbn. split_and!; try done.
  right. split_and!; try done. eexists. split_and!; reflexivity.
Qed.

Lemma detect_loop_total now events groups c :
  is_Some (detect_loop now events groups c).
Proof.
  revert c. induction groups as [|[ip es] rest IH]; intros c; cbn [detect_loop].
  - eauto.
  - destruct (detect_ip_spec now events c ip es) as (c' & -> & _). cbn. apply IH.
Qed.

End Cycle.

Section CycleLoop.
Context `{RT : Runtime}.
Import Generator.

Lemma threat_alerts_snoc ip alerts a :
  threat_alerts ip (alerts ++ [a])
  = threat_alerts ip alerts
    ++ (if bool_decide (al_type a = Some "Threat Detection" /\ al_ip a = Some ip)
        then [a] else []).
Proof.
  unfold threat_alerts. rewrite filter_app. f_equal.
  case_bool_decide as H.
  - rewrite filter_cons_True by exact H. reflexivity.
  - rewrite filter_cons_False by exact H. reflexivity.
Qed.

Lemma alerts_tracked_none c ip :
  alerts_tracked c -> Some ip ∉ cy_alerted_ips c ->
  threat_alerts ip (cy_alerts c) = [].
Proof.
  intros Htr Hnot. unfold threat_alerts.
  destruct (filter _ (cy_alerts c)) as [|a l] eqn:E; [reflexivity|].
  assert (Ha : a ∈ filter (fun a => al_type a = Some "Threat Detection"
                                    /\ al_ip a = Some ip) (cy_alerts c)).
  { rewrite E. apply list_elem_of_here. }
  apply list_elem_of_filter in Ha as [[Hty Hip] Hin].
  exfalso. apply Hnot. rewrite <- Hip. apply Htr; assumption.
Qed.

Lemma alerts_tracked_start alerts scores w :
  alerts_tracked {| cy_alerts := alerts; cy_scores := scores;
                    cy_alerted_ips := alerted_ips_of alerts; cy_world := w |}.
Proof.
  intros a Hin Hty. cbn in *. unfold alerted_ips_of.
  apply elem_of_list_to_set, list_elem_of_fmap. exists a. split; [reflexivity|].
  apply list_elem_of_filter. split; assumption.
Qed.

(** What one iteration does to the alerts. *)
Lemma detect_ip_alerts now events c ip0 es c' :
  alerts_tracked c ->
  detect_ip now events c (ip0, es) = Some c' ->
  alerts_tracked c'
  /\ (exists added, cy_alerts c' = cy_alerts c ++ added)
  /\ forall ip,
       threat_alerts ip (cy_alerts c') = threat_alerts ip (cy_alerts c)
       \/ (threat_alerts ip (cy_alerts c) = []
           /\ length (threat_alerts ip (cy_alerts c')) = 1%nat).
Proof.
  intros Htr Hstep.
  destruct (detect_ip_spec now events c ip0 es) as (c'' & Hc'' & Hcases).
  rewrite Hstep in Hc''. injection Hc'' as <-.
  destruct Hcases as [[_ ->] | (_ & _ & _ & [(Hal & Ha & Hs) | (Hal & Hadd & Hs)])].
  - split_and!; [exact Htr | exists []; rewrite app_nil_r; reflexivity | auto].
  - split_and!.
    + intros a. rewrite Ha, Hs. apply Htr.
    + exists []. rewrite app_nil_r. exact Ha.
    + intros ip. left. rewrite Ha. reflexivity.
  - destruct Hadd as (a & Ha & Hty & Hip & _).
    split_and!.
    + intros a'. rewrite Ha, Hs. intros [Hin | ->%list_elem_of_singleton]%elem_of_app Hty'.
      * apply elem_of_union_l, Htr; assumption.
      * apply elem_of_union_r, elem_of_singleton. exact Hip.
    + exists [a]. exact Ha.
    + intros ip. rewrite Ha, threat_alerts_snoc. case_bool_decide as Hm.
      * right. destruct Hm as [_ Hm]. rewrite Hip in Hm. injection Hm as <-.
        rewrite (alerts_tracked_none c ip0 Htr Hal). split; reflexivity.
      * left. apply app_nil_r.
Qed.

Lemma detect_loop_alerts now events groups c c' :
  alerts_tracked c ->
  detect_loop now events groups c = Some c' ->
  alerts_tracked c'
  /\ (exists added, cy_alerts c' = cy_alerts c ++ added)
  /\ forall ip,
       threat_alerts ip (cy_alerts c') = threat_alerts ip (cy_alerts c)
       \/ (threat_alerts ip (cy_alerts c) = []
           /\ length (threat_alerts ip (cy_alerts c')) = 1%nat).
Proof.
  revert c. induction groups as [|[ip0 es] rest IH]; intros c Htr; cbn [detect_loop].
  - intros [= <-]. split_and!; [exact Htr | exists []; rewrite app_nil_r; reflexivity | auto].
  - destruct (detect_ip now events c (ip0, es)) as [c1|] eqn:Hstep; [|discriminate].
    cbn. intros Hloop.
    destruct (detect_ip_alerts _ _ _ _ _ _ Htr Hstep) as (Htr1 & [add1 Hadd1] & Hcount1).
    destruct (IH c1 Htr1 Hloop) as (Htr' & [add2 Hadd2] & Hcount2).
    split_and!; [exact Htr' | |].
    + exists (add1 ++ add2). rewrite Hadd2, Hadd1, app_assoc. reflexivity.
    + intros ip. destruct (Hcount1 ip) as [H1 | [H1 H1']].
      * rewrite <- H1. apply Hcount2.
      * destruct (Hcount2 ip) as [H2 | [H2 _]].
        -- right. rewrite H2. split; assumption.
        -- rewrite H2 in H1'. discriminate.
Qed.

(** What one iteration does to the entries of another address. *)
Lemma detect_ip_frame now events c ip0 es c' ip :
  ip <> ip0 ->
  detect_ip now events c (ip0, es) = Some c' ->
  cy_scores c' !! ("IP:" +:+ ip) = cy_scores c !! ("IP:" +:+ ip)
  /\ sanctions_json (cy_world c') !! ("IP:" +:+ ip)
     = sanctions_json (cy_world c) !! ("IP:" +:+ ip).
Proof.
  intros Hne Hstep.
  destruct (detect_ip_spec now events c ip0 es) as (c'' & Hc'' & Hcases).
  rewrite Hstep in Hc''. injection Hc'' as <-.
  destruct Hcases as [[_ ->] | (_ & Hsc & Hw & _)]; [split; reflexivity|].
  assert (Hkey : "IP:" +:+ ip0 <> "IP:" +:+ ip).
  { intros H. apply ip_key_inj in H. congruence. }
  split.
  - rewrite Hsc. apply lookup_insert_ne, Hkey.
  - rewrite Hw, sanctions_sanctioned.
    destruct (SANCTIONS _); [|reflexivity].
    apply lookup_insert_ne, Hkey.
Qed.

Lemma detect_loop_frame now events groups c c' ip :
  ip ∉ groups.*1 ->
  detect_loop now events groups c = Some c' ->
  cy_scores c' !! ("IP:" +:+ ip) = cy_scores c !! ("IP:" +:+ ip)
  /\ sanctions_json (cy_world c') !! ("IP:" +:+ ip)
     = sanctions_json (cy_world c) !! ("IP:" +:+ ip).
Proof.
  revert c. induction groups as [|[ip0 es] rest IH]; intros c Hnot; cbn [detect_loop].
  - intros [= <-]. split; reflexivity.
  - destruct (detect_ip now events c (ip0, es)) as [c1|] eqn:Hstep; [|discriminate].
    cbn. intros Hloop. cbn in Hnot. apply not_elem_of_cons in Hnot as [Hne Hnot].
    destruct (detect_ip_frame _ _ _ _ _ _ _ Hne Hstep) as [H1 H2].
    destruct (IH c1 Hnot Hloop) as [H3 H4].
    split; congruence.
Qed.

(** What one iteration stores for an address that passes both gates. *)
Lemma detect_ip_hit now events c ip es c' :
  let r := calculate_threat_score_ip now events ip in
  qualifies now events ip es ->
  detect_ip now events c (ip, es) = Some c' ->
  cy_scores c' !! ("IP:" +:+ ip) = Some (threat_of ip r)
  /\ exists cfg,
       SANCTIONS (get_severity_level (scored_score r)) = Some cfg
       /\ sanctions_json (cy_world c') !! ("IP:" +:+ ip)
          = Some (sanction_entry now cfg "IP" ip (scored_score r)
                    (get_severity_level (scored_score r))
                    (scored_reasons r) (scored_components r)).
Proof.
  intros r Hq Hstep. subst r.
  destruct (detect_ip_spec now events c ip es) as (c'' & Hc'' & Hcases).
  rewrite Hstep in Hc''. injection Hc'' as <-.
  destruct Hcases as [[Hnq _] | (_ & Hsc & Hw & _)]; [contradiction|].
  split.
  - rewrite Hsc. apply lookup_insert_eq.
  - destruct Hq as [_ Hscore].
    destruct (sanctions_of_scored _ Hscore) as [cfg Hcfg].
    exists cfg. split; [exact Hcfg|].
    rewrite Hw, sanctions_sanctioned, Hcfg. apply lookup_insert_eq.
Qed.

Lemma detect_loop_hit now events groups c c' ip es :
  let r := calculate_threat_score_ip now events ip in
  NoDup groups.*1 ->
  (ip, es) ∈ groups ->
  qualifies now events ip es ->
  detect_loop now events groups c = Some c' ->
  cy_scores c' !! ("IP:" +:+ ip) = Some (threat_of ip r)
  /\ exists cfg,
       SANCTIONS (get_severity_level (scored_score r)) = Some cfg
       /\ sanctions_json (cy_world c') !! ("IP:" +:+ ip)
          = Some (sanction_entry now cfg "IP" ip (scored_score r)
                    (get_severity_level (scored_score r))
                    (scored_reasons r) (scored_components r)).
Proof.
  cbv zeta. revert c.
  induction groups as [|[ip0 es0] rest IH]; intros c Hnd Hin Hq; cbn [detect_loop].
  - apply elem_of_nil in Hin. contradiction.
  - destruct (detect_ip now events c (ip0, es0)) as [c1|] eqn:Hstep; [|discriminate].
    cbn. intros Hloop. cbn in Hnd. apply NoDup_cons in Hnd as [Hfresh Hnd].
    apply elem_of_cons in Hin as [[= -> ->] | Hin].
    + destruct (detect_ip_hit _ _ _ _ _ _ Hq Hstep) as (H1 & cfg & Hcfg & H2).
      destruct (detect_loop_frame _ _ _ _ _ _ Hfresh Hloop) as [H3 H4].
      split; [congruence|]. exists cfg. split; [exact Hcfg | congruence].
    + apply (IH c1 Hnd Hin Hq Hloop).
Qed.

Lemma detect_loop_miss now events groups c :
  (forall ip es, (ip, es) ∈ groups -> ~ qualifies now events ip es) ->
  detect_loop now events groups c = Some c.
Proof.
  induction groups as [|[ip0 es0] rest IH]; intros Hnq; cbn [detect_loop].
  - reflexivity.
  - destruct (detect_ip_spec now events c ip0 es0) as (c' & -> & Hcases). cbn.
    destruct Hcases as [[_ ->] | [Hq _]].
    + apply IH. intros ip es Hin. apply Hnq, list_elem_of_further, Hin.
    + exfalso. apply (Hnq ip0 es0); [apply list_elem_of_here | exact Hq].
Qed.

(** The cycle as its loop followed by the two saves. *)
Lemma detect_threats_by_ip_loop now events w :
  exists c',
    detect_loop now events (group_by_ip (lastn 1000 events))
      {| cy_alerts := alerts_json w; cy_scores := scores_json w;
         cy_alerted_ips := alerted_ips_of (alerts_json w); cy_world := w |}
    = Some c'
    /\ detect_threats_by_ip now events w
       = Some (save_scores (cy_scores c') (save_alerts (cy_alerts c') (cy_world c'))).
Proof.
  unfold detect_threats_by_ip, load_alerts, load_scores.
  destruct (detect_loop_total now events (group_by_ip (lastn 1000 events))
              {| cy_alerts := alerts_json w; cy_scores := scores_json w;
                 cy_alerted_ips := alerted_ips_of (alerts_json w); cy_world := w |})
    as [c' Hc'].
  exists c'. rewrite Hc'. split; reflexivity.
Qed.

End CycleLoop.

Section CycleGates.
Context `{RT : Runtime}.
Import Generator.

Lemma group_elem_lookup ip es g :
  NoDup g.*1 -> (ip, es) ∈ g -> group_lookup ip g = Some es.
Proof.
  induction g as [|[k es'] rest IH]; intros Hnd Hin; cbn [group_lookup].
  - apply elem_of_nil in Hin. contradiction.
  - cbn in Hnd. apply NoDup_cons in Hnd as [Hfresh Hnd].
    apply elem_of_cons in Hin as [[= -> ->] | Hin].
    + rewrite String.eqb_refl. reflexivity.
    + destruct (String.eqb_spec k ip) as [->|Hk]; [|apply IH; assumption].
      exfalso. apply Hfresh. apply list_elem_of_fmap. exists (ip, es). auto.
Qed.

(** The group of a grouped address in the window of the cycle. *)
Lemma window_group ip events es :
  grouped ip ->
  (ip, es) ∈ group_by_ip (lastn 1000 events) <->
  es = window_events ip events /\ es <> [].
Proof.
  intros Hg. pose proof (group_by_ip_lookup (lastn 1000 events) ip Hg) as Hl.
  fold (window_events ip events) in Hl. split.
  - intros Hin. apply group_elem_lookup in Hin; [|apply group_by_ip_NoDup].
    rewrite Hin in Hl. destruct (window_events ip events); [discriminate|].
    injection Hl as ->. split; [reflexivity | discriminate].
  - intros [-> Hne]. apply group_lookup_elem. rewrite Hl.
    destruct (window_events ip events); [contradiction | reflexivity].
Qed.

(** The loop leaves alone the entries of an address whose group, if it has
    one, does not pass both gates. *)
Lemma detect_loop_skip now events groups c c' ip :
  (forall es, (ip, es) ∈ groups -> ~ qualifies now events ip es) ->
  detect_loop now events groups c = Some c' ->
  cy_scores c' !! ("IP:" +:+ ip) = cy_scores c !! ("IP:" +:+ ip)
  /\ sanctions_json (cy_world c') !! ("IP:" +:+ ip)
     = sanctions_json (cy_world c) !! ("IP:" +:+ ip).
Proof.
  revert c. induction groups as [|[ip0 es0] rest IH]; intros c Hnq; cbn [detect_loop].
  - intros [= <-]. split; reflexivity.
  - destruct (detect_ip now events c (ip0, es0)) as [c1|] eqn:Hstep; [|discriminate].
    cbn. intros Hloop.
    assert (Hrest : forall es, (ip, es) ∈ rest -> ~ qualifies now events ip es).
    { intros es Hin. apply Hnq, list_elem_of_further, Hin. }
    destruct (IH c1 Hrest Hloop) as [H3 H4].
    destruct (decide (ip = ip0)) as [->|Hne].
    + destruct (detect_ip_spec now events c ip0 es0) as (c'' & Hc'' & Hcases).
      rewrite Hstep in Hc''. injection Hc'' as <-.
      destruct Hcases as [[_ ->] | [Hq _]]; [split; assumption|].
      exfalso. apply (Hnq es0); [apply list_elem_of_here | exact Hq].
    + destruct (detect_ip_frame _ _ _ _ _ _ _ Hne Hstep) as [H1 H2].
      split; congruence.
Qed.

Lemma calculate_on_recent now events ip :
  recent_events ip events <> [] ->
  calculate_threat_score_ip now events ip = score_recent now (recent_events ip events).
Proof.
  unfold calculate_threat_score_ip, recent_events.
  destruct (filter _ events); [intros H; contradiction | reflexivity].
Qed.

Lemma lastn_nil {A} n (l : list A) : (0 < n)%nat -> lastn n l = [] -> l = [].
Proof.
  intros Hn H. unfold lastn in H. apply (f_equal length) in H.
  rewrite length_skipn in H. cbn in H.
  destruct l; [reflexivity | cbn in H; lia].
Qed.

(** The score of an address is a function of its 200 most recent events in
    the list it is computed on. *)
Lemma calculate_recent_only now events events' ip :
  recent_events ip events' = recent_events ip events ->
  calculate_threat_score_ip now events' ip = calculate_threat_score_ip now events ip.
Proof.
  intros Heq. unfold calculate_threat_score_ip.
  unfold recent_events in Heq.
  destruct (filter _ events') as [|e' l'] eqn:E';
    destruct (filter _ events) as [|e l] eqn:E.
  - reflexivity.
  - symmetry in Heq. apply lastn_nil in Heq; [discriminate | lia].
  - apply lastn_nil in Heq; [discriminate | lia].
  - rewrite Heq. reflexivity.
Qed.

Lemma window_in_store ip events :
  (length (window_events ip events) <= length (filter (fun e => ev_ip e = Some ip) events))%nat.
Proof.
  unfold window_events, lastn. set (k := (length events - 1000)%nat).
  rewrite <- (take_drop k events) at 2.
  rewrite filter_app, length_app. lia.
Qed.

End CycleGates.

(** ** C7: one alert per address *)

(** C7. Every cycle runs to its end and only appends to the alerts. For
    every address, its "Threat Detection" alerts afterwards are those it had
    before, or it had none and has exactly one: a cycle alerts an address at
    most once, and never one that already has its alert. An address that
    already has its alert and passes both gates again has its threat score
    and its sanction stored anew from the score of this cycle. *)
Theorem C7_one_alert_per_ip `{RT : Runtime} (now : Z) (events : list Event)
    (w : World) :
  exists w',
    Generator.detect_threats_by_ip now events w = Some w'
    /\ (exists added, alerts_json w' = alerts_json w ++ added)
    /\ (forall ip,
          threat_alerts ip (alerts_json w') = threat_alerts ip (alerts_json w)
          \/ (threat_alerts ip (alerts_json w) = []
              /\ length (threat_alerts ip (alerts_json w')) = 1%nat))
    /\ (forall ip,
          grouped ip ->
          qualifies now events ip (window_events ip events) ->
          threat_alerts ip (alerts_json w) <> [] ->
          let r := Generator.calculate_threat_score_ip now events ip in
          threat_alerts ip (alerts_json w') = threat_alerts ip (alerts_json w)
          /\ scores_json w' !! ("IP:" +:+ ip) = Some (threat_of ip r)
          /\ exists cfg,
               Generator.SANCTIONS
                 (Generator.get_severity_level (Generator.scored_score r)) = Some cfg
               /\ sanctions_json w' !! ("IP:" +:+ ip)
                  = Some (Generator.sanction_entry now cfg "IP" ip
                            (Generator.scored_score r)
                            (Generator.get_severity_level (Generator.scored_score r))
                            (Generator.scored_reasons r)
                            (Generator.scored_components r))).
Proof.
  destruct (detect_threats_by_ip_loop now events w) as (c' & Hloop & Hrun).
  eexists. split; [exact Hrun|]. cbn [alerts_json scores_json sanctions_json
    save_scores save_alerts].
  destruct (detect_loop_alerts _ _ _ _ _ (alerts_tracked_start _ _ _) Hloop)
    as (_ & Hadded & Hcount).
  cbn [Generator.cy_alerts] in Hadded, Hcount.
  split_and!; [exact Hadded | exact Hcount |].
  intros ip Hg Hq Halerted.
  split_and!.
  - destruct (Hcount ip) as [H | [H _]]; [exact H | contradiction].
  - assert (Hin : (ip, window_events ip events)
                  ∈ Generator.group_by_ip (lastn 1000 events)).
    { apply window_group; [exact Hg|]. split; [reflexivity|].
      destruct Hq as [Hlen _]. destruct (window_events ip events); [cbn in Hlen; lia | discriminate]. }
    apply (detect_loop_hit _ _ _ _ _ _ _ (group_by_ip_NoDup _) Hin Hq Hloop).
  - assert (Hin : (ip, window_events ip events)
                  ∈ Generator.group_by_ip (lastn 1000 events)).
    { apply window_group; [exact Hg|]. split; [reflexivity|].
      destruct Hq as [Hlen _]. destruct (window_events ip events); [cbn in Hlen; lia | discriminate]. }
    apply (detect_loop_hit _ _ _ _ _ _ _ (group_by_ip_NoDup _) Hin Hq Hloop).
Qed.

(** Witness of C7: the burst of an address that already has its alert. *)
Lemma C7_one_alert_per_ip_witness :
  exists w',
    Generator.detect_threats_by_ip (RT := Reference.runtime) Scenario.noon
      Scenario.burst_events Scenario.alerted_world = Some w'
    /\ alerts_json w' = alerts_json Scenario.alerted_world
    /\ (ts_severity <$> scores_json w' !! "IP:45.12.9.9") = Some MEDIUM
    /\ (sn_action <$> sanctions_json w' !! "IP:45.12.9.9") = Some "RATE_LIMIT".
Proof.
  destruct (C7_one_alert_per_ip (RT := Reference.runtime) Scenario.noon
              Scenario.burst_events Scenario.alerted_world)
    as (w' & Hrun & _ & _ & _).
  exists w'. split; [exact Hrun|].
  vm_compute in Hrun. injection Hrun as <-.
  split_and!; vm_compute; reflexivity.
Defined.

(** ** C4: the events a score is computed from *)

(** C4, as amended. The trailing window of 1000 events decides which
    addresses a cycle scores: a grouped address with fewer than three events
    there keeps its threat score and its sanction as they were. The score of
    an address that passes both gates is computed from its 200 most recent
    events in the whole list the cycle was given, and stored: it is the same
    for two lists in which these 200 events are the same, so older events of
    the address and events of other addresses do not count, while its events
    before the window do. *)
Theorem C4_scored_on_recent_events_of_store `{RT : Runtime} (now : Z)
    (events : list Event) (w : World) (ip : string) :
  grouped ip ->
  exists w',
    Generator.detect_threats_by_ip now events w = Some w'
    /\ (qualifies now events ip (window_events ip events) ->
          Generator.calculate_threat_score_ip now events ip
          = Generator.score_recent now (recent_events ip events)
          /\ scores_json w' !! ("IP:" +:+ ip)
             = Some (threat_of ip (Generator.score_recent now (recent_events ip events))))
    /\ ((length (window_events ip events) < 3)%nat ->
          scores_json w' !! ("IP:" +:+ ip) = scores_json w !! ("IP:" +:+ ip)
          /\ sanctions_json w' !! ("IP:" +:+ ip) = sanctions_json w !! ("IP:" +:+ ip))
    /\ (forall events',
          recent_events ip events' = recent_events ip events ->
          Generator.calculate_threat_score_ip now events' ip
          = Generator.calculate_threat_score_ip now events ip).
Proof.
  intros Hg.
  destruct (detect_threats_by_ip_loop now events w) as (c' & Hloop & Hrun).
  eexists. split; [exact Hrun|]. cbn [alerts_json scores_json sanctions_json
    save_scores save_alerts].
  split_and!.
  - intros Hq.
    assert (Hne : window_events ip events <> []).
    { destruct Hq as [Hlen _]. destruct (window_events ip events); [cbn in Hlen; lia | discriminate]. }
    assert (Hrecent : recent_events ip events <> []).
    { intros Hnil. unfold recent_events in Hnil. apply lastn_nil in Hnil; [|lia].
      pose proof (window_in_store ip events) as Hle. rewrite Hnil in Hle.
      destruct Hq as [Hlen _]. cbn in Hle. lia. }
    pose proof (calculate_on_recent now events ip Hrecent) as Hcalc.
    split; [exact Hcalc|]. rewrite <- Hcalc.
    assert (Hin : (ip, window_events ip events)
                  ∈ Generator.group_by_ip (lastn 1000 events)).
    { apply window_group; [exact Hg|]. split; [reflexivity | exact Hne]. }
    apply (detect_loop_hit _ _ _ _ _ _ _ (group_by_ip_NoDup _) Hin Hq Hloop).
  - intros Hlen.
    apply (detect_loop_skip _ _ _ _ _ ip) in Hloop; [exact Hloop|].
    intros es Hin [Hes _]. apply window_group in Hin as [-> _]; [lia | exact Hg].
  - intros events'. apply calculate_recent_only.
Qed.

(** Witness of C4 as amended: the bursting address in the log of 1001
    events; its four events, the early one included, give 65. *)
Lemma C4_scored_on_recent_events_of_store_witness :
  exists w',
    Generator.detect_threats_by_ip (RT := Reference.runtime) Scenario.noon
      Scenario.long_log Scenario.empty_world = Some w'
    /\ recent_events "45.12.9.9" Scenario.long_log
       = Scenario.early_event :: Scenario.burst_events
    /\ (ts_score <$> scores_json w' !! "IP:45.12.9.9") = Some (6500 # 100)%Q.
Proof.
  destruct (C4_scored_on_recent_events_of_store (RT := Reference.runtime)
              Scenario.noon Scenario.long_log Scenario.empty_world "45.12.9.9")
    as (w' & Hrun & Hhit & _).
  { split; [discriminate | reflexivity]. }
  exists w'. split; [exact Hrun|]. split; [vm_compute; reflexivity|].
  destruct Hhit as [_ Hstored].
  - split.
    + vm_compute. lia.
    + apply Qle_bool_iff. vm_compute. reflexivity.
  - change "IP:45.12.9.9" with ("IP:" +:+ "45.12.9.9").
    rewrite Hstored. vm_compute. reflexivity.
Defined.

(** C4 fails as stated: in the log of 1001 events the early login of the
    bursting address lies before the trailing window of 1000, and counts:
    the cycle stores four attempts and the score 65 (HIGH), where the events
    of the window alone give three attempts and 45 (MEDIUM). *)
Lemma C4_event_before_window_counts :
  length Scenario.long_log = 1001%nat
  /\ (Scenario.early_event ∉ lastn 1000 Scenario.long_log)
  /\ Generator.calculate_threat_score_ip (RT := Reference.runtime) Scenario.noon
       (lastn 1000 Scenario.long_log) "45.12.9.9"
     = Generator.calculate_threat_score_ip (RT := Reference.runtime) Scenario.noon
         Scenario.burst_events "45.12.9.9"
  /\ Generator.scored_score
       (Generator.calculate_threat_score_ip (RT := Reference.runtime) Scenario.noon
          (lastn 1000 Scenario.long_log) "45.12.9.9") = (4500 # 100)%Q
  /\ (Generator.detect_threats_by_ip (RT := Reference.runtime) Scenario.noon
        Scenario.long_log Scenario.empty_world
      ≫= fun w' => scores_json w' !! "IP:45.12.9.9")
     = Some (threat_of "45.12.9.9"
               (Generator.calculate_threat_score_ip (RT := Reference.runtime)
                  Scenario.noon (Scenario.early_event :: Scenario.burst_events)
                  "45.12.9.9"))
  /\ Generator.scored_score
       (Generator.calculate_threat_score_ip (RT := Reference.runtime) Scenario.noon
          (Scenario.early_event :: Scenario.burst_events) "45.12.9.9")
     = (6500 # 100)%Q
  /\ (st_total_attempts <$> Generator.scored_stats
        (Generator.calculate_threat_score_ip (RT := Reference.runtime) Scenario.noon
           (Scenario.early_event :: Scenario.burst_events) "45.12.9.9")) = Some 4%nat.
Proof.
  split_and!; try (vm_compute; reflexivity).
  intros Hin.
  assert (Hall : Forall (fun e => ev_user e <> Some "admin")
                   (lastn 1000 Scenario.long_log)).
  { change (lastn 1000 Scenario.long_log)
      with (repeat Scenario.lan_event 997 ++ Scenario.burst_events).
    apply Forall_app. split.
    - apply Forall_forall. intros e He.
      apply list_elem_of_In, repeat_spec in He. subst e. discriminate.
    - repeat constructor; discriminate. }
  rewrite Forall_forall in Hall. apply (Hall _ Hin). reflexivity.
Qed.

(** ** C5: four calm logins *)

Section Calm.
Context `{RT : Runtime}.
Import Generator.

Lemma score_recent_parts now recent :
  let a := tally now recent in
  let ts := merge_sort Z.le (times a) in
  scored_components (score_recent now recent)
  = {| failed_attempts := (score_failed_attempts (n_failed a) (length recent)).1;
       attack_speed := (score_attack_speed ts).1;
       tool_detection := (score_tool_detection (listing (seen_user_agents a))).1;
       geographic_risk := (score_geographic_risk (listing (seen_countries a))).1;
       user_spread :=
         (hvt_bonus (listing (hvt a))
            (score_user_spread (length (listing (users a)))).1).1;
       persistence := (score_persistence ts).1 |}
  /\ scored_score (score_recent now recent)
     = py_min (round2 (sum_components (scored_components (score_recent now recent)))) 100.
Proof.
  unfold score_recent. cbv zeta. unfold stats_of.
  cbn [st_failed_attempts st_user_agents st_countries st_unique_users st_targeted_hvt].
  destruct (score_failed_attempts _ _), (score_attack_speed _),
    (score_tool_detection _), (score_geographic_risk _), (score_user_spread _),
    (score_persistence _).
  cbn [fst]. destruct (hvt_bonus _ _). split; reflexivity.
Qed.

Lemma merge_sort_sorted (l : list Z) : Sorted Z.le l -> merge_sort Z.le l = l.
Proof.
  intros Hs. apply (Sorted_unique Z.le); [apply Sorted_merge_sort; apply _ | exact Hs |].
  apply merge_sort_Permutation.
Qed.

Lemma elements_said text : elements (said text) = match text with "" => [] | _ => [text] end.
Proof.
  destruct text; cbn [said]; [apply elements_empty | apply elements_singleton].
Qed.

(** A set of one member or of none is listed in one way. *)
Lemma listing_few (s : gset string) (l : list string) :
  elements s = l -> (length l <= 1)%nat -> listing s = l.
Proof.
  intros <- Hlen. pose proof (listing_members s) as Hp.
  destruct (elements s) as [|x [|y rest]]; [| |cbn in Hlen; lia].
  - apply Permutation_nil_r in Hp. exact Hp.
  - apply Permutation_singleton_r in Hp. exact Hp.
Qed.

Lemma listing_said text : listing (said text) = match text with "" => [] | _ => [text] end.
Proof.
  apply listing_few; [apply elements_said|]. destruct text; cbn; lia.
Qed.

Lemma said_twice (x : string) (s : gset string) : s ∪ said x ∪ said x = s ∪ said x.
Proof. rewrite <- (assoc_L (∪)), (idemp_L (∪)). reflexivity. Qed.

Lemma status_success :
  bool_decide (Some "SUCCESS" = Some "FAIL") = false
  /\ bool_decide (Some "SUCCESS" = Some "SUCCESS") = true.
Proof. split; reflexivity. Qed.

(** What a calm login adds to the tally. *)
Lemma calm_tally_event now a ip user ua date time ts :
  (forall clock, parse_datetime clock date time = ts) ->
  tally_event now a (Scenario.calm_event ip user ua date time)
  = {| n_failed := n_failed a; n_success := S (n_success a);
       users := users a ∪ said user;
       seen_countries := seen_countries a ∪ {["FR"]};
       seen_user_agents := seen_user_agents a ∪ said ua;
       hvt := if in_list user HIGH_VALUE_TARGETS then hvt a ∪ said user else hvt a;
       times := times a ++ [ts] |}.
Proof.
  intros Hread. unfold tally_event, Scenario.calm_event, Scenario.ev.
  cbn [ev_status ev_user ev_country ev_ua ev_date ev_time default].
  destruct status_success as [-> ->]. rewrite Hread.
  change (truthy (Some "FR")) with (Some "FR").
  destruct user as [|cu ru]; destruct ua as [|ca ra]; cbn [truthy said];
    rewrite ?(right_id_L (∅ : gset string) (∪));
    try (destruct (in_list _ HIGH_VALUE_TARGETS)); reflexivity.
Qed.

Variables (ip user ua d1 t1 d2 t2 d3 t3 d4 t4 : string) (t0 : Z).
Hypothesis ua_plain : is_suspicious ua = false.
Hypothesis first_read : forall clock, parse_datetime clock d1 t1 = t0.
Hypothesis second_read : forall clock, parse_datetime clock d2 t2 = t0 + minutes 3.
Hypothesis third_read : forall clock, parse_datetime clock d3 t3 = t0 + minutes 6.
Hypothesis fourth_read : forall clock, parse_datetime clock d4 t4 = t0 + minutes 9.

Local Abbreviation four_calm :=
  (Scenario.four_calm ip user ua d1 t1 d2 t2 d3 t3 d4 t4).
Local Abbreviation calm_times := (Scenario.calm_times t0).

Lemma calm_tally now :
  tally now four_calm
  = {| n_failed := 0; n_success := 4; users := said user;
       seen_countries := {["FR"]}; seen_user_agents := said ua;
       hvt := if in_list user HIGH_VALUE_TARGETS then said user else ∅;
       times := calm_times |}.
Proof.
  unfold tally, Scenario.four_calm, Scenario.calm_times. cbn [fold_left].
  rewrite (calm_tally_event now _ _ _ _ _ _ _ first_read).
  rewrite (calm_tally_event now _ _ _ _ _ _ _ second_read).
  rewrite (calm_tally_event now _ _ _ _ _ _ _ third_read).
  rewrite (calm_tally_event now _ _ _ _ _ _ _ fourth_read).
  cbn [n_failed n_success users seen_countries seen_user_agents hvt times
       empty_tally app].
  rewrite ?(left_id_L (∅ : gset string) (∪)).
  rewrite ?said_twice, ?(idemp_L (∪) (said user)), ?(idemp_L (∪) (said ua)).
  rewrite ?(idemp_L (∪) ({["FR"]} : gset string)).
  destruct (in_list user HIGH_VALUE_TARGETS);
    rewrite ?(left_id_L (∅ : gset string) (∪)), ?(idemp_L (∪) (said user));
    reflexivity.
Qed.

Lemma calm_times_sorted : merge_sort Z.le calm_times = calm_times.
Proof.
  apply merge_sort_sorted. unfold Scenario.calm_times, minutes.
  repeat constructor; lia.
Qed.

Lemma calm_attack_speed : score_attack_speed calm_times = (0%Q, []).
Proof.
  unfold score_attack_speed, Scenario.calm_times. cbn [length Nat.leb gaps].
  replace (t0 + minutes 3 - t0) with (minutes 3) by lia.
  replace (t0 + minutes 6 - (t0 + minutes 3)) with (minutes 3) by (unfold minutes; lia).
  replace (t0 + minutes 9 - (t0 + minutes 6)) with (minutes 3) by (unfold minutes; lia).
  vm_compute. reflexivity.
Qed.

Lemma calm_persistence :
  (score_persistence calm_times).1 = round2 (persistence SCORING_WEIGHTS * (6 # 10)).
Proof.
  unfold score_persistence, Scenario.calm_times. cbn [length Nat.leb head last].
  replace (t0 + minutes 9 - t0) with (minutes 9) by lia.
  vm_compute. reflexivity.
Qed.

Lemma calm_tool : score_tool_detection (listing (said ua)) = (0%Q, []).
Proof.
  rewrite listing_said. unfold score_tool_detection.
  destruct ua as [|ca ra] eqn:E; [reflexivity|].
  cbn [find]. rewrite ua_plain. reflexivity.
Qed.

Lemma calm_geography : score_geographic_risk (listing ({["FR"]} : gset string)) = (0%Q, []).
Proof.
  rewrite (listing_few _ ["FR"]); [|apply elements_singleton | cbn; lia].
  vm_compute. reflexivity.
Qed.

Lemma calm_user_spread : score_user_spread (length (listing (said user))) = (0%Q, []).
Proof. rewrite listing_said. destruct user; reflexivity. Qed.

Lemma calm_bonus :
  (hvt_bonus (listing (if in_list user HIGH_VALUE_TARGETS then said user else ∅)) 0).1
  = if in_list user HIGH_VALUE_TARGETS then py_min 100 (0 + 5) else 0%Q.
Proof.
  destruct (in_list user HIGH_VALUE_TARGETS) eqn:E.
  - rewrite listing_said. destruct user; [discriminate E | reflexivity].
  - rewrite (listing_few _ []); [reflexivity | apply elements_empty | cbn; lia].
Qed.

Lemma calm_score now :
  scored_components (score_recent now four_calm)
  = {| failed_attempts := 0; attack_speed := 0; tool_detection := 0;
       geographic_risk := 0;
       user_spread := if in_list user HIGH_VALUE_TARGETS then py_min 100 (0 + 5) else 0;
       persistence := round2 (persistence SCORING_WEIGHTS * (6 # 10)) |}
  /\ (scored_score (score_recent now four_calm)
      == if in_list user HIGH_VALUE_TARGETS then 14 else 9)%Q.
Proof.
  destruct (score_recent_parts now four_calm) as [Hc Hs]. cbv zeta in Hc.
  rewrite calm_tally in Hc.
  cbn [n_failed users seen_countries seen_user_agents hvt times] in Hc.
  rewrite calm_times_sorted, calm_attack_speed, calm_tool, calm_geography,
    calm_user_spread, calm_persistence in Hc.
  cbn [fst] in Hc. rewrite calm_bonus in Hc.
  change (score_failed_attempts 0 (length four_calm)).1 with 0%Q in Hc.
  split; [exact Hc|].
  rewrite Hs, Hc. destruct (in_list user HIGH_VALUE_TARGETS); vm_compute; reflexivity.
Qed.

Lemma calm_filter ip' :
  filter (fun e => ev_ip e = Some ip') four_calm = if decide (ip' = ip) then four_calm else [].
Proof.
  unfold Scenario.four_calm. destruct (decide (ip' = ip)) as [->|Hne].
  - rewrite !filter_cons_True by reflexivity. reflexivity.
  - rewrite !filter_cons_False, filter_nil; [reflexivity|..];
      intros [= H]; congruence.
Qed.

Lemma calm_below_gate now ip' :
  (scored_score (calculate_threat_score_ip now four_calm ip') < 31)%Q.
Proof.
  unfold calculate_threat_score_ip. rewrite calm_filter.
  destruct (decide (ip' = ip)) as [->|Hne]; [|reflexivity].
  change (lastn 200 four_calm) with four_calm.
  destruct (calm_score now) as [_ Hs]. rewrite Hs.
  destruct (in_list user HIGH_VALUE_TARGETS); reflexivity.
Qed.

(** C5, as amended. Four successful logins of one user from one address in
    France, with a user-agent that names no attack tool and timestamps three
    minutes apart, span nine minutes, at least half the persistence threshold
    of fifteen: persistence scores 0.6 x 15 = 9, the other five components
    are 0 up to the bonus of 5 when the user is a high-value account, and
    the total is 9, or 14 with the bonus. It is below 31, and a cycle over
    these four events runs to its end and leaves the alerts, the threat
    scores and the sanctions as they were. *)
Theorem C5_four_calm_logins (now : Z) (w : World) :
  let r := calculate_threat_score_ip now four_calm ip in
  (scored_score r == if in_list user HIGH_VALUE_TARGETS then 14 else 9)%Q
  /\ (persistence (scored_components r) == 9)%Q
  /\ (failed_attempts (scored_components r) == 0)%Q
  /\ (attack_speed (scored_components r) == 0)%Q
  /\ (tool_detection (scored_components r) == 0)%Q
  /\ (geographic_risk (scored_components r) == 0)%Q
  /\ (user_spread (scored_components r)
      == if in_list user HIGH_VALUE_TARGETS then 5 else 0)%Q
  /\ (scored_score r < 31)%Q
  /\ exists w',
       detect_threats_by_ip now four_calm w = Some w'
       /\ alerts_json w' = alerts_json w
       /\ scores_json w' = scores_json w
       /\ sanctions_json w' = sanctions_json w.
Proof.
  intros r.
  assert (Hr : r = score_recent now four_calm).
  { subst r. unfold calculate_threat_score_ip. rewrite calm_filter.
    rewrite decide_True by reflexivity. reflexivity. }
  destruct (calm_score now) as [Hc Hs]. rewrite <- Hr in Hc, Hs.
  rewrite Hc. cbn [persistence failed_attempts attack_speed tool_detection
                   geographic_risk user_spread].
  split; [exact Hs|].
  split; [vm_compute; reflexivity|].
  split; [reflexivity|]. split; [reflexivity|]. split; [reflexivity|].
  split; [reflexivity|].
  split; [destruct (in_list user HIGH_VALUE_TARGETS); vm_compute; reflexivity|].
  split; [apply calm_below_gate|].
  - destruct (detect_threats_by_ip_loop now four_calm w) as (c' & Hloop & Hrun).
    rewrite detect_loop_miss in Hloop.
    + injection Hloop as <-. eexists. split; [exact Hrun|]. split_and!; reflexivity.
    + intros ip' es _ [_ Hq]. pose proof (calm_below_gate now ip'). lra.
Qed.

End Calm.

(** Witness of C5 as amended: the four logins of [sara]. *)
Lemma C5_four_calm_logins_witness :
  (Generator.scored_score
     (Generator.calculate_threat_score_ip (RT := Reference.runtime) Scenario.noon
        Scenario.calm_events "5.39.1.1") == 9)%Q
  /\ exists w',
       Generator.detect_threats_by_ip (RT := Reference.runtime) Scenario.noon
         Scenario.calm_events Scenario.empty_world = Some w'
       /\ alerts_json w' = []
       /\ scores_json w' = ∅
       /\ sanctions_json w' = ∅.
Proof.
  pose proof (C5_four_calm_logins (RT := Reference.runtime)
                "5.39.1.1" "sara" Scenario.browser
                "2024-03-01" "10:00:00.000" "2024-03-01" "10:03:00.000"
                "2024-03-01" "10:06:00.000" "2024-03-01" "10:09:00.000"
                1709287200000000) as H.
  specialize (H ltac:(vm_compute; reflexivity)).
  specialize (H ltac:(intros clock; vm_compute; reflexivity)).
  specialize (H ltac:(intros clock; vm_compute; reflexivity)).
  specialize (H ltac:(intros clock; vm_compute; reflexivity)).
  specialize (H ltac:(intros clock; vm_compute; reflexivity)).
  specialize (H Scenario.noon Scenario.empty_world). cbv zeta in H.
  destruct H as (Hs & _ & _ & _ & _ & _ & _ & _ & Hrun).
  split; [exact Hs | exact Hrun].
Defined.

(** C5 fails as stated: the four logins of [sara], three minutes apart,
    score 9 and not 0, persistence giving 0.6 x 15 for their nine minutes. *)
Lemma C5_score_is_nine :
  let r := Generator.calculate_threat_score_ip (RT := Reference.runtime)
             Scenario.noon Scenario.calm_events "5.39.1.1" in
  Generator.scored_score r = (900 # 100)%Q
  /\ persistence (Generator.scored_components r) = (900 # 100)%Q
  /\ Generator.scored_reasons r = [SustainedAttack 9]
  /\ ~ (Generator.scored_score r == 0)%Q.
Proof.
  split_and!; try (vm_compute; reflexivity).
  vm_compute. discriminate.
Qed.

(** * Further properties of the scoring *)

Section ScoringBlocks.
Import Generator.

Lemma in_list_elem x l : in_list x l = true <-> x ∈ l.
Proof.
  unfold in_list. rewrite existsb_exists. split.
  - intros (y & Hin & Heq). apply String.eqb_eq in Heq. subst y.
    apply list_elem_of_In, Hin.
  - intros Hin. exists x. split; [apply list_elem_of_In, Hin | apply String.eqb_refl].
Qed.

Lemma existsb_elem {A} (f : A -> bool) (l : list A) :
  existsb f l = true <-> exists x, x ∈ l /\ f x = true.
Proof.
  rewrite existsb_exists. split; intros (x & Hin & Hf); exists x;
    (split; [apply list_elem_of_In, Hin | exact Hf]).
Qed.

Lemma existsb_same_members {A} (f : A -> bool) (l l' : list A) :
  (forall x, x ∈ l <-> x ∈ l') -> existsb f l = existsb f l'.
Proof.
  intros Hsame. apply eq_true_iff_eq. rewrite !existsb_elem.
  split; intros (x & Hin & Hf); exists x; (split; [apply Hsame, Hin | exact Hf]).
Qed.

(** The loop of the geographic risk, from a score that is 0 or the half
    weight: the weight once a high-risk country is met, else the half weight
    once a medium-risk country is met, else the score it started from. *)
Lemma geo_loop_value countries g reasons :
  g = 0%Q \/ g = 5%Q ->
  (geo_loop countries g reasons).1
  = if existsb (fun c => in_list c HIGH_RISK_COUNTRIES) countries then 10%Q
    else if existsb (fun c => in_list c MEDIUM_RISK_COUNTRIES) countries then 5%Q
    else g.
Proof.
  revert g reasons.
  induction countries as [|c rest IH]; intros g reasons Hg; cbn [geo_loop existsb].
  - reflexivity.
  - destruct (in_list c HIGH_RISK_COUNTRIES) eqn:Hh; cbn [orb fst].
    + destruct Hg as [-> | ->]; reflexivity.
    + destruct (in_list c MEDIUM_RISK_COUNTRIES) eqn:Hm; cbn [orb].
      * rewrite IH by (destruct Hg as [-> | ->]; right; reflexivity).
        destruct (existsb _ rest); [reflexivity|].
        destruct (existsb _ rest); destruct Hg as [-> | ->]; reflexivity.
      * apply IH, Hg.
Qed.

End ScoringBlocks.

(** X1. The geographic-risk component is the full weight 10 when some seen
    country is high-risk, half of it when none is high-risk and some is
    medium-risk, and 0 otherwise: a high-risk country dominates wherever it
    comes in the iteration. *)
Theorem geographic_risk_tiers (countries : list string) :
  ((exists c, c ∈ countries /\ c ∈ Generator.HIGH_RISK_COUNTRIES) ->
     (Generator.score_geographic_risk countries).1 = 10%Q)
  /\ ((forall c, c ∈ countries -> c ∉ Generator.HIGH_RISK_COUNTRIES) ->
      (exists c, c ∈ countries /\ c ∈ Generator.MEDIUM_RISK_COUNTRIES) ->
      (Generator.score_geographic_risk countries).1 = 5%Q)
  /\ ((forall c, c ∈ countries ->
         (c ∉ Generator.HIGH_RISK_COUNTRIES) /\ (c ∉ Generator.MEDIUM_RISK_COUNTRIES)) ->
      (Generator.score_geographic_risk countries).1 = 0%Q).
Proof.
  unfold Generator.score_geographic_risk.
  rewrite geo_loop_value by (left; reflexivity).
  split_and!.
  - intros (c & Hin & Hh).
    assert (E : existsb (fun c => in_list c Generator.HIGH_RISK_COUNTRIES) countries = true).
    { apply existsb_elem. exists c. split; [exact Hin | apply in_list_elem, Hh]. }
    rewrite E. reflexivity.
  - intros Hnone (c & Hin & Hm).
    assert (E : existsb (fun c => in_list c Generator.HIGH_RISK_COUNTRIES) countries = false).
    { apply not_true_is_false. intros (c' & Hin' & Hh)%existsb_elem.
      apply in_list_elem in Hh. exact (Hnone c' Hin' Hh). }
    assert (E' : existsb (fun c => in_list c Generator.MEDIUM_RISK_COUNTRIES) countries = true).
    { apply existsb_elem. exists c. split; [exact Hin | apply in_list_elem, Hm]. }
    rewrite E, E'. reflexivity.
  - intros Hnone.
    assert (E : existsb (fun c => in_list c Generator.HIGH_RISK_COUNTRIES) countries = false).
    { apply not_true_is_false. intros (c' & Hin' & Hh)%existsb_elem.
      apply in_list_elem in Hh. exact (proj1 (Hnone c' Hin') Hh). }
    assert (E' : existsb (fun c => in_list c Generator.MEDIUM_RISK_COUNTRIES) countries = false).
    { apply not_true_is_false. intros (c' & Hin' & Hm)%existsb_elem.
      apply in_list_elem in Hm. exact (proj2 (Hnone c' Hin') Hm). }
    rewrite E, E'. reflexivity.
Qed.

(** Witness of X1: Russia after the United States. *)
Lemma geographic_risk_tiers_witness :
  (Generator.score_geographic_risk ["US"; "FR"; "RU"]).1 = 10%Q.
Proof.
  apply (geographic_risk_tiers ["US"; "FR"; "RU"]).
  exists "RU". split;
    repeat first [apply list_elem_of_here | apply list_elem_of_further].
Defined.

(** X2. The tool-detection and geographic-risk components depend on which
    user-agents and countries were seen, not on the order in which the set
    is listed, nor on repetitions: whatever order the interpreter lists a
    set in, they are what any other listing of its members gives. *)
Theorem set_components_ignore_order `{RT : Runtime} (listed listed' : list string) :
  (forall x, x ∈ listed <-> x ∈ listed') ->
  (Generator.score_tool_detection listed).1 = (Generator.score_tool_detection listed').1
  /\ (Generator.score_geographic_risk listed).1
     = (Generator.score_geographic_risk listed').1
  /\ (forall s : gset string,
        (forall x, x ∈ listed <-> x ∈ s) ->
        (Generator.score_tool_detection (listing s)).1
        = (Generator.score_tool_detection listed).1
        /\ (Generator.score_geographic_risk (listing s)).1
           = (Generator.score_geographic_risk listed).1).
Proof.
  assert (Hpair : forall l l' : list string,
            (forall x, x ∈ l <-> x ∈ l') ->
            (Generator.score_tool_detection l).1 = (Generator.score_tool_detection l').1
            /\ (Generator.score_geographic_risk l).1
               = (Generator.score_geographic_risk l').1).
  { clear listed listed'. intros listing0 listing' Hsame. split.
    - unfold Generator.score_tool_detection.
      pose proof (existsb_same_members Generator.is_suspicious _ _ Hsame) as He.
      destruct (find Generator.is_suspicious listing0) as [ua|] eqn:E;
        destruct (find Generator.is_suspicious listing') as [ua'|] eqn:E';
        try reflexivity; exfalso.
      + apply find_some in E as [Hin Hs].
        assert (existsb Generator.is_suspicious listing0 = true) as Ht
          by (apply existsb_exists; eauto).
        rewrite He in Ht. apply existsb_exists in Ht as (x & Hx & Hsx).
        apply (find_none _ _ E') in Hx. congruence.
      + apply find_some in E' as [Hin Hs].
        assert (existsb Generator.is_suspicious listing' = true) as Ht
          by (apply existsb_exists; eauto).
        rewrite <- He in Ht. apply existsb_exists in Ht as (x & Hx & Hsx).
        apply (find_none _ _ E) in Hx. congruence.
    - unfold Generator.score_geographic_risk.
      rewrite !geo_loop_value by (left; reflexivity).
      rewrite (existsb_same_members _ _ _ Hsame).
      rewrite (existsb_same_members (fun c => in_list c Generator.MEDIUM_RISK_COUNTRIES)
                 _ _ Hsame).
      reflexivity. }
  intros Hsame. destruct (Hpair _ _ Hsame) as [Htool Hgeo].
  split; [exact Htool|]. split; [exact Hgeo|].
  intros s Hs. apply Hpair. intros x.
  rewrite listing_members, elem_of_elements. symmetry. apply Hs.
Qed.

(** Witness of X2: two listings of the same three countries. *)
Lemma set_components_ignore_order_witness :
  (Generator.score_geographic_risk ["US"; "FR"; "RU"]).1
  = (Generator.score_geographic_risk ["RU"; "US"; "FR"; "US"]).1.
Proof.
  apply (set_components_ignore_order (RT := Reference.runtime)
           ["US"; "FR"; "RU"] ["RU"; "US"; "FR"; "US"]).
  intros x. rewrite !elem_of_cons, !elem_of_nil. tauto.
Defined.

Lemma Reference_series_mono n k a b :
  (0 <= a <= b)%Q -> (Reference.series n k a <= Reference.series n k b)%Q.
Proof.
  intros Hab. revert k. induction n as [|n IH]; intros k; cbn [Reference.series].
  - lra.
  - specialize (IH (Pos.succ k)).
    pose proof (Reference_series_ge_1 n (Pos.succ k) a (proj1 Hab)) as H1.
    assert (Hk : (0 <= 1 # k)%Q) by (unfold Qle; simpl; lia).
    assert (H : (a * (1 # k) * Reference.series n (Pos.succ k) a
                 <= b * (1 # k) * Reference.series n (Pos.succ k) b)%Q).
    { apply Qmult_le_compat_nonneg; split; try lra.
      - apply Qmult_le_0_compat; lra.
      - apply Qmult_le_compat_nonneg; split; lra. }
    lra.
Qed.

Lemma Reference_exp_mono x y :
  (x <= y)%Q -> (y < 0)%Q -> (Reference.exp x <= Reference.exp y)%Q.
Proof.
  intros Hxy Hy. unfold Reference.exp.
  assert (Ex : Qle_bool x 0 = true) by (apply Qle_bool_iff; lra).
  assert (Ey : Qle_bool y 0 = true) by (apply Qle_bool_iff; lra).
  rewrite Ex, Ey, !Qred_correct.
  pose proof (Reference_series_ge_1 12 1 (- y)) as Hsy.
  pose proof (Reference_series_mono 12 1 (- y) (- x)) as Hmono.
  set (sx := Reference.series 12 1 (- x)) in *.
  set (sy := Reference.series 12 1 (- y)) in *.
  assert (Hy1 : (1 <= sy)%Q) by (apply Hsy; lra).
  assert (Hle : (sy <= sx)%Q) by (apply Hmono; lra).
  clearbody sx sy.
  apply Qle_shift_inv_r; [lra|].
  assert (Hinv : (0 < / sy)%Q) by (apply Qinv_lt_0_compat; lra).
  assert (Hone : (/ sy * sy == 1)%Q).
  { rewrite Qmult_comm. apply Qmult_inv_r. lra. }
  rewrite <- Hone. apply Qmult_le_l; assumption.
Qed.

(** X3. With more failed attempts the failed-attempts component never
    decreases, and it never passes its weight 25: for a [math.exp] that is
    non-decreasing and at most 1 on negative arguments. *)
Theorem failed_attempts_monotone `{RT : Runtime}
    (exp_mono : forall x y, (x <= y)%Q -> (y < 0)%Q -> (exp x <= exp y)%Q)
    (exp_le_1 : forall x, (x < 0)%Q -> (exp x <= 1)%Q)
    (fails fails' total total' : nat) :
  (fails <= fails')%nat ->
  ((Generator.score_failed_attempts fails total).1
   <= (Generator.score_failed_attempts fails' total').1)%Q
  /\ ((Generator.score_failed_attempts fails' total').1 <= 25)%Q
  /\ ((fails < 5)%nat -> (Generator.score_failed_attempts fails total).1 = 0%Q).
Proof.
  intros Hle.
  pose proof (score_failed_attempts_bounds fails' total' exp_le_1) as Hb.
  split_and!; [|apply Hb|].
  2:{ intros Hlow. unfold Generator.score_failed_attempts.
      replace (Nat.leb _ fails) with false; [reflexivity|].
      symmetry. apply Nat.leb_gt. exact Hlow. }
  unfold Generator.score_failed_attempts in *.
  unfold Generator.BRUTE_FORCE_FAIL_THRESHOLD in *.
  destruct (Nat.leb_spec 5 fails) as [H5|H5]; cbn [fst]; [|apply Hb].
  replace (Nat.leb 5 fails') with true by (symmetry; apply Nat.leb_le; lia).
  cbn [fst]. apply py_min_mono, round2_mono.
  change (failed_attempts Generator.SCORING_WEIGHTS) with 25%Q.
  set (over := Z.of_nat fails - (Z.of_nat 5 - 1)).
  set (over' := Z.of_nat fails' - (Z.of_nat 5 - 1)).
  destruct (overshoot_negative over over') as [Hx Hneg]; [lia|].
  pose proof (exp_mono _ _ Hx Hneg) as He.
  set (e := exp (float_div (inject_Z (- over)) 3)) in *.
  set (e' := exp (float_div (inject_Z (- over')) 3)) in *.
  clearbody e e'.
  assert (Hf : (float (1 - e) <= float (1 - e'))%Q) by (apply float_mono; lra).
  unfold float_mul. apply float_mono.
  set (f := float (1 - e)) in *. set (f' := float (1 - e')) in *.
  clearbody f f'. lra.
Qed.

(** Witness of X3: five and then nine failures, on the reference runtime. *)
Lemma failed_attempts_monotone_witness :
  ((Generator.score_failed_attempts (RT := Reference.runtime) 5 10).1
   <= (Generator.score_failed_attempts (RT := Reference.runtime) 9 10).1)%Q.
Proof.
  apply (failed_attempts_monotone (RT := Reference.runtime)
           Reference_exp_mono Reference_exp_le_1 5 9 10 10).
  lia.
Defined.

(** X4. The classifier is monotone: a higher score never gets a lower
    severity, in the order LOW, MEDIUM, HIGH, CRITICAL. *)
Theorem severity_monotone (score score' : Q) :
  (score <= score')%Q ->
  let rank s := match s with LOW => 0 | MEDIUM => 1 | HIGH => 2 | CRITICAL => 3 end in
  rank (Generator.get_severity_level score)
  <= rank (Generator.get_severity_level score').
Proof.
  intros Hle rank. unfold Generator.get_severity_level.
  repeat (match goal with
          | |- context [Qgeb ?a ?b] =>
              let E := fresh "E" in
              destruct (Qgeb a b) eqn:E;
              [apply Qgeb_true in E | apply Qgeb_false in E]
          end);
    cbn; try lia; exfalso; lra.
Qed.

(** Witness of X4: 60.99 and 61. *)
Lemma severity_monotone_witness :
  match Generator.get_severity_level (6099 # 100) with
  | LOW => 0 | MEDIUM => 1 | HIGH => 2 | CRITICAL => 3
  end
  <= match Generator.get_severity_level 61 with
     | LOW => 0 | MEDIUM => 1 | HIGH => 2 | CRITICAL => 3
     end.
Proof.
  apply (severity_monotone (6099 # 100) 61).
  apply Qle_bool_iff. reflexivity.
Defined.

(** ** The aggregated statistics *)

Section Aggregates.
Context `{RT : Runtime}.
Import Generator.

Lemma tally_snoc now recent e :
  tally now (recent ++ [e]) = tally_event now (tally now recent) e.
Proof. unfold tally. rewrite fold_left_app. reflexivity. Qed.

(** What one event adds to the counters and to the sets. *)
Lemma tally_event_adds now a e :
  n_failed (tally_event now a e)
  = (n_failed a + length (filter (fun e => ev_status e = Some "FAIL") [e]))%nat
  /\ n_success (tally_event now a e)
     = (n_success a + length (filter (fun e => ev_status e = Some "SUCCESS") [e]))%nat
  /\ users (tally_event now a e)
     = users a ∪ list_to_set (omap (fun e => truthy (ev_user e)) [e])
  /\ hvt (tally_event now a e)
     = hvt a ∪ list_to_set (filter (fun u => in_list u HIGH_VALUE_TARGETS = true)
                              (omap (fun e => truthy (ev_user e)) [e]))
  /\ seen_countries (tally_event now a e)
     = seen_countries a ∪ list_to_set (omap (fun e => truthy (ev_country e)) [e])
  /\ seen_user_agents (tally_event now a e)
     = seen_user_agents a ∪ list_to_set (omap (fun e => truthy (ev_ua e)) [e]).
Proof.
  unfold tally_event. cbn [omap list_omap].
  destruct (truthy (ev_user e)) as [user|];
    cbn [n_failed n_success users hvt seen_countries seen_user_agents].
  all: split_and!.
  all: try (case_bool_decide as Hst;
            [rewrite filter_cons_True, filter_nil by exact Hst; cbn [length]; lia
            |rewrite filter_cons_False, filter_nil by exact Hst; cbn [length]; lia]).
  all: try (case_bool_decide as Hst;
            [rewrite filter_cons_False, filter_nil by congruence; cbn [length]; lia|];
            case_bool_decide as Hst';
            [rewrite filter_cons_True, filter_nil by exact Hst'; cbn [length]; lia
            |rewrite filter_cons_False, filter_nil by exact Hst'; cbn [length]; lia]).
  all: try (destruct (truthy (ev_country e)));
    try (destruct (truthy (ev_ua e)));
    try (destruct (in_list user HIGH_VALUE_TARGETS) eqn:Hin;
         [rewrite filter_cons_True by exact Hin
         |rewrite filter_cons_False by congruence]);
    rewrite ?filter_nil, ?list_to_set_cons, ?list_to_set_nil,
      ?(right_id_L (∅ : gset string) (∪)); reflexivity.
Qed.

(** What the loop over [recent] has counted and collected at its end. *)
Lemma tally_counts now recent :
  n_failed (tally now recent)
  = length (filter (fun e => ev_status e = Some "FAIL") recent)
  /\ n_success (tally now recent)
     = length (filter (fun e => ev_status e = Some "SUCCESS") recent)
  /\ users (tally now recent)
     = list_to_set (omap (fun e => truthy (ev_user e)) recent)
  /\ hvt (tally now recent)
     = list_to_set (filter (fun u => in_list u HIGH_VALUE_TARGETS = true)
                      (omap (fun e => truthy (ev_user e)) recent))
  /\ seen_countries (tally now recent)
     = list_to_set (omap (fun e => truthy (ev_country e)) recent)
  /\ seen_user_agents (tally now recent)
     = list_to_set (omap (fun e => truthy (ev_ua e)) recent).
Proof.
  induction recent as [|e recent IH] using rev_ind.
  - split_and!; reflexivity.
  - destruct IH as (Hf & Hs & Hu & Hh & Hc & Ha).
    rewrite tally_snoc.
    destruct (tally_event_adds now (tally now recent) e)
      as (-> & -> & -> & -> & -> & ->).
    rewrite !filter_app, !omap_app, !filter_app, !length_app.
    rewrite !list_to_set_app_L.
    rewrite Hf, Hs, Hu, Hh, Hc, Ha. split_and!; reflexivity.
Qed.

Lemma size_list_to_set_le (l : list string) :
  (size (list_to_set l : gset string) <= length l)%nat.
Proof.
  unfold size, set_size. cbn.
  apply submseteq_length, NoDup_submseteq; [apply NoDup_elements|].
  intros x Hx. apply elem_of_elements, elem_of_list_to_set in Hx. exact Hx.
Qed.

Lemma length_omap_le {A B} (f : A -> option B) (l : list A) :
  (length (omap f l) <= length l)%nat.
Proof.
  induction l as [|x l IH]; cbn; [lia|]. destruct (f x); cbn; lia.
Qed.

Lemma lastn_length {A} n (l : list A) : length (lastn n l) = Nat.min n (length l).
Proof. unfold lastn. rewrite length_skipn. lia. Qed.

Lemma score_recent_stats now recent :
  scored_stats (score_recent now recent)
  = Some (stats_of recent (tally now recent)
            (merge_sort Z.le (times (tally now recent)))).
Proof.
  unfold score_recent.
  repeat (match goal with |- context [let '(_, _) := ?x in _] => destruct x end).
  reflexivity.
Qed.

End Aggregates.

(** X5. The statistics returned with a score count the 200 most recent
    events of the address at most, and at least one; failures and successes
    are the events of status FAIL and SUCCESS among them and together do not
    exceed the attempts; the users are listed once each and are no more than
    the attempts; the targeted high-value accounts are the listed users that
    are on the list of high-value targets; first and last seen are set. *)
Theorem aggregated_stats_counts `{RT : Runtime} (now : Z) (events : list Event)
    (ip : string) (st : AggregatedStats) :
  Generator.scored_stats (Generator.calculate_threat_score_ip now events ip) = Some st ->
  (1 <= st_total_attempts st <= 200)%nat
  /\ st_total_attempts st = length (recent_events ip events)
  /\ st_failed_attempts st
     = length (filter (fun e => ev_status e = Some "FAIL") (recent_events ip events))
  /\ st_success_attempts st
     = length (filter (fun e => ev_status e = Some "SUCCESS") (recent_events ip events))
  /\ (st_failed_attempts st + st_success_attempts st <= st_total_attempts st)%nat
  /\ NoDup (st_unique_users st)
  /\ (length (st_unique_users st) <= st_total_attempts st)%nat
  /\ (forall user, user ∈ st_targeted_hvt st <->
                   user ∈ st_unique_users st /\ user ∈ Generator.HIGH_VALUE_TARGETS)
  /\ is_Some (st_first_seen st)
  /\ is_Some (st_last_seen st).
Proof.
  unfold Generator.calculate_threat_score_ip, recent_events.
  destruct (filter _ events) as [|e0 l] eqn:Hf; [discriminate|].
  set (recent := lastn 200 (e0 :: l)).
  rewrite score_recent_stats. intros [= <-].
  destruct (tally_counts now recent) as (Hfail & Hsucc & Hu & Hh & _ & _).
  assert (Hlen : (1 <= length recent <= 200)%nat).
  { unfold recent. rewrite lastn_length. cbn [length]. lia. }
  clearbody recent.
  cbn [Generator.stats_of st_total_attempts st_failed_attempts st_success_attempts
       st_unique_users st_targeted_hvt st_first_seen st_last_seen].
  assert (Hdis : forall l' : list Event,
            (length (filter (fun e => ev_status e = Some "FAIL") l')
             + length (filter (fun e => ev_status e = Some "SUCCESS") l')
             <= length l')%nat).
  { induction l' as [|x l' IH]; [cbn; lia|].
    destruct (decide (ev_status x = Some "FAIL")) as [Hx|Hx].
    - rewrite filter_cons_True by exact Hx.
      rewrite (filter_cons_False (fun e => ev_status e = Some "SUCCESS")) by congruence.
      cbn. lia.
    - rewrite filter_cons_False by exact Hx.
      destruct (decide (ev_status x = Some "SUCCESS")) as [Hy|Hy].
      + rewrite filter_cons_True by exact Hy. cbn. lia.
      + rewrite filter_cons_False by exact Hy. cbn. lia. }
  assert (Ht : length (merge_sort Z.le (Generator.times (Generator.tally now recent)))
               = length recent).
  { rewrite merge_sort_length. unfold Generator.tally.
    rewrite tally_times_length. reflexivity. }
  split; [exact Hlen|]. split; [reflexivity|].
  split; [exact Hfail|]. split; [exact Hsucc|].
  split; [rewrite Hfail, Hsucc; apply Hdis|].
  split; [rewrite listing_members; apply NoDup_elements|].
  split.
  { rewrite (Permutation_length (listing_members _)), Hu.
    change (length (elements ?X)) with (size X).
    etrans; [apply size_list_to_set_le|]. apply length_omap_le. }
  split.
  { intros user. rewrite !listing_members, !elem_of_elements, Hh, Hu.
    rewrite !elem_of_list_to_set, list_elem_of_filter, in_list_elem. tauto. }
  split.
  - destruct (merge_sort Z.le _); [cbn in Ht; lia | cbn; eauto].
  - destruct (last (merge_sort Z.le _)) eqn:El; [cbn; eauto|].
    apply last_None in El. rewrite El in Ht. cbn in Ht. lia.
Qed.

(** Witness of X5: the three logins of the burst. *)
Lemma aggregated_stats_counts_witness :
  exists st,
    Generator.scored_stats
      (Generator.calculate_threat_score_ip (RT := Reference.runtime) 0
         Scenario.burst_events "45.12.9.9") = Some st
    /\ (1 <= st_total_attempts st <= 200)%nat
    /\ (st_failed_attempts st + st_success_attempts st <= st_total_attempts st)%nat.
Proof.
  destruct (Generator.scored_stats
              (Generator.calculate_threat_score_ip (RT := Reference.runtime) 0
                 Scenario.burst_events "45.12.9.9")) as [st|] eqn:E.
  - exists st. split; [reflexivity|].
    pose proof (aggregated_stats_counts (RT := Reference.runtime) 0
                  Scenario.burst_events "45.12.9.9" st E) as H.
    split; [apply H | apply H].
  - vm_compute in E. discriminate.
Defined.

(** * Further properties of the sanctions and of the cycle *)

(** X6. Applying a sanction writes nothing for the severity LOW. For the
    other severities it stores, under [type:value], a fresh active sanction
    with the score, the severity, at most five reasons and the policy of
    the severity (MEDIUM: rate limit of 1/5s for 60 minutes, not blocking;
    HIGH: temporary block for 180 minutes; CRITICAL: permanent block
    without expiry, to be reviewed), whatever was stored there before,
    saves the collection, and leaves the other keys, the alerts and the
    threat scores as they were. *)
Theorem apply_sanction_policy `{RT : Runtime} (now : Z) (entity_type value : string)
    (score : Q) (severity : Severity) (reasons : list Reason)
    (components : ScoreComponents) (w : World) :
  let w' := Generator.apply_sanction now entity_type value score severity reasons
              components w in
  let key := entity_type +:+ ":" +:+ value in
  alerts_json w' = alerts_json w
  /\ scores_json w' = scores_json w
  /\ (forall k, k <> key -> sanctions_json w' !! k = sanctions_json w !! k)
  /\ (severity = LOW -> w' = w)
  /\ (severity <> LOW ->
      exists s,
        sanctions_json w' !! key = Some s
        /\ saved w' = saved w ++ [SANCTIONS_FILE]
        /\ sn_active s = true
        /\ sn_entity_type s = entity_type /\ sn_entity_value s = value
        /\ sn_score s = score /\ sn_severity s = severity
        /\ sn_reasons s = firstn 5 reasons /\ (length (sn_reasons s) <= 5)%nat
        /\ sn_components s = components
        /\ sn_created_at s = isoformat now
        /\ match severity with
           | MEDIUM =>
               sn_action s = "RATE_LIMIT" /\ sn_blocked s = false
               /\ sn_expires_at s = Some (isoformat (now + minutes 60))
               /\ sn_rate_limit s = Some "1/5s"
               /\ sn_requires_manual_review s = None
           | HIGH =>
               sn_action s = "TEMPORARY_BLOCK" /\ sn_blocked s = true
               /\ sn_expires_at s = Some (isoformat (now + minutes 180))
               /\ sn_rate_limit s = None
               /\ sn_requires_manual_review s = None
           | CRITICAL =>
               sn_action s = "PERMANENT_BLOCK" /\ sn_blocked s = true
               /\ sn_expires_at s = None
               /\ sn_rate_limit s = None
               /\ sn_requires_manual_review s = Some true
           | LOW => False
           end).
Proof.
  intros w' key.
  destruct (apply_sanction_files now entity_type value score severity reasons
              components w) as (Ha & Hs & Hsn).
  fold w' in Ha, Hs, Hsn. fold key in Hsn.
  split; [exact Ha|]. split; [exact Hs|]. split.
  { intros k Hk. rewrite Hsn. destruct (Generator.SANCTIONS severity); [|reflexivity].
    apply lookup_insert_ne. congruence. }
  split.
  { intros ->. reflexivity. }
  intros Hsev. rewrite Hsn. subst w'. unfold Generator.apply_sanction.
  destruct severity; [contradiction|..]; cbn [Generator.SANCTIONS];
    (eexists; split; [apply lookup_insert_eq|]);
    cbn; rewrite ?length_firstn; split_and!; try reflexivity; lia.
Qed.

(** Witness of X6: a HIGH sanction over a lifted one. *)
Lemma apply_sanction_policy_witness :
  let w := (Dashboard.remove_sanction (Some "IP") (Some "5.39.4.4")
              Scenario.sanctioned_world).2 in
  exists s,
    sanctions_json
      (Generator.apply_sanction (RT := Reference.runtime) Scenario.noon "IP"
         "5.39.4.4" 70 HIGH [] Generator.zero_components w) !! "IP:5.39.4.4" = Some s
    /\ sn_active s = true
    /\ sn_expires_at s = Some "2024-03-01T15:00:00".
Proof.
  intros w.
  pose proof (apply_sanction_policy (RT := Reference.runtime) Scenario.noon "IP"
                "5.39.4.4" 70 HIGH [] Generator.zero_components w) as H.
  cbv zeta in H. destruct H as (_ & _ & _ & _ & H).
  destruct H as (s & Hs & _ & Hact & _ & _ & _ & _ & _ & _ & _ & _ & _ & _ & Hexp & _);
    [discriminate|].
  exists s. split; [exact Hs|]. split; [exact Hact|].
  rewrite Hexp. vm_compute. reflexivity.
Defined.

Section CycleFrames.
Context `{RT : Runtime}.
Import Generator.

Lemma group_append_elem ip es ip0 e g :
  (ip, es) ∈ group_append ip0 e g -> ip = ip0 \/ (ip, es) ∈ g.
Proof.
  induction g as [|[k es'] rest IH]; cbn [group_append].
  - intros [= -> _]%list_elem_of_singleton. left. reflexivity.
  - destruct (String.eqb_spec k ip0) as [->|Hk].
    + intros [[= -> _] | Hin]%elem_of_cons; [left; reflexivity|].
      right. apply list_elem_of_further, Hin.
    + intros [[= -> ->] | Hin]%elem_of_cons; [right; apply list_elem_of_here|].
      destruct (IH Hin) as [-> | Hin']; [left; reflexivity|].
      right. apply list_elem_of_further, Hin'.
Qed.

(** Only addresses that are neither empty nor local get a group. *)
Lemma group_by_ip_grouped latest ip es :
  (ip, es) ∈ group_by_ip latest -> grouped ip.
Proof.
  induction latest as [|e latest IH] using rev_ind.
  - intros Hin. apply elem_of_nil in Hin. contradiction.
  - rewrite group_by_ip_snoc.
    destruct (truthy (ev_ip e)) as [ip0|] eqn:Et; [|exact IH].
    destruct (in_list ip0 LOCAL_IPS) eqn:Hl; [exact IH|].
    intros [-> | Hin]%group_append_elem; [|apply IH, Hin].
    apply truthy_Some in Et as [_ Hne]. split; assumption.
Qed.

Lemma alerted_ips_of_elem ip alerts :
  Some ip ∈ alerted_ips_of alerts <-> threat_alerts ip alerts <> [].
Proof.
  unfold alerted_ips_of, threat_alerts.
  rewrite elem_of_list_to_set, list_elem_of_fmap. split.
  - intros (a & Hip & [Hty Hin]%list_elem_of_filter) Hnil.
    assert (Ha : a ∈ filter (fun a => al_type a = Some "Threat Detection"
                                      /\ al_ip a = Some ip) alerts).
    { apply list_elem_of_filter. auto. }
    rewrite Hnil in Ha. apply elem_of_nil in Ha. exact Ha.
  - intros Hne. destruct (filter _ alerts) as [|a l] eqn:E; [contradiction|].
    assert (Ha : a ∈ filter (fun a => al_type a = Some "Threat Detection"
                                      /\ al_ip a = Some ip) alerts).
    { rewrite E. apply list_elem_of_here. }
    apply list_elem_of_filter in Ha as [[Hty Hip] Hin].
    exists a. split; [symmetry; exact Hip|].
    apply list_elem_of_filter. auto.
Qed.

(** The iteration of an address that passes both gates and has no alert:
    the alert it appends. *)
Lemma detect_ip_new_alert now events c ip es :
  let r := calculate_threat_score_ip now events ip in
  qualifies now events ip es ->
  Some ip ∉ cy_alerted_ips c ->
  exists st sample c',
    scored_stats r = Some st
    /\ last es = Some sample
    /\ detect_ip now events c (ip, es) = Some c'
    /\ cy_alerts c'
       = cy_alerts c
         ++ [alert_entry ip (scored_score r) (get_severity_level (scored_score r))
               (scored_reasons r) st sample]
    /\ cy_alerted_ips c' = cy_alerted_ips c ∪ {[Some ip]}.
Proof.
  intros r [Hlen Hscore] Hnew. unfold detect_ip.
  pose proof (calculate_without_stats now events ip) as Hnone. fold r in Hnone, Hscore.
  fold r. clearbody r.
  destruct r as [[[score reasons] components] stats].
  unfold scored_score, scored_reasons, scored_components, scored_stats in *.
  cbn [fst snd] in *.
  replace (Nat.ltb (length es) 3) with false by (symmetry; apply Nat.ltb_ge; lia).
  replace (Qgeb score 31) with true by (symmetry; apply Qgeb_true; exact Hscore).
  rewrite bool_decide_eq_false_2 by exact Hnew.
  destruct (last es) as [sample|] eqn:Hlast.
  2:{ apply last_None in Hlast. subst es. cbn in Hlen. lia. }
  destruct stats as [st|].
  2:{ specialize (Hnone eq_refl). injection Hnone as -> _ _.
      exfalso. revert Hscore. apply Qlt_not_le. reflexivity. }
  cbn. eexists _, _, _. split_and!; reflexivity.
Qed.

(** What one iteration does to the alerts of another address. *)
Lemma detect_ip_other now events c ip0 es c' ip :
  ip <> ip0 ->
  detect_ip now events c (ip0, es) = Some c' ->
  threat_alerts ip (cy_alerts c') = threat_alerts ip (cy_alerts c)
  /\ (Some ip ∈ cy_alerted_ips c' <-> Some ip ∈ cy_alerted_ips c).
Proof.
  intros Hne Hstep.
  destruct (detect_ip_spec now events c ip0 es) as (c'' & Hc'' & Hcases).
  rewrite Hstep in Hc''. injection Hc'' as <-.
  destruct Hcases as [[_ ->] | (_ & _ & _ & [(_ & -> & ->) | (_ & Hadd & ->)])];
    [split; reflexivity | split; reflexivity |].
  destruct Hadd as (a & -> & _ & Hip & _). split.
  - rewrite threat_alerts_snoc. rewrite bool_decide_eq_false_2; [apply app_nil_r|].
    intros [_ Hip']. congruence.
  - rewrite elem_of_union, elem_of_singleton. split; [|tauto].
    intros [H | [= H]]; [exact H | contradiction].
Qed.

Lemma detect_loop_other now events groups c c' ip :
  ip ∉ groups.*1 ->
  detect_loop now events groups c = Some c' ->
  threat_alerts ip (cy_alerts c') = threat_alerts ip (cy_alerts c)
  /\ (Some ip ∈ cy_alerted_ips c' <-> Some ip ∈ cy_alerted_ips c).
Proof.
  revert c. induction groups as [|[ip0 es] rest IH]; intros c Hnot; cbn [detect_loop].
  - intros [= <-]. split; reflexivity.
  - destruct (detect_ip now events c (ip0, es)) as [c1|] eqn:Hstep; [|discriminate].
    cbn. intros Hloop. cbn in Hnot. apply not_elem_of_cons in Hnot as [Hne Hnot].
    destruct (detect_ip_other _ _ _ _ _ _ _ Hne Hstep) as [H1 H2].
    destruct (IH c1 Hnot Hloop) as [H3 H4].
    split; [congruence | tauto].
Qed.

(** The alert of an address that passes both gates and had none. *)
Lemma detect_loop_new_alert now events groups c c' ip es :
  let r := calculate_threat_score_ip now events ip in
  NoDup groups.*1 ->
  (ip, es) ∈ groups ->
  qualifies now events ip es ->
  alerts_tracked c ->
  Some ip ∉ cy_alerted_ips c ->
  detect_loop now events groups c = Some c' ->
  exists st sample,
    scored_stats r = Some st
    /\ last es = Some sample
    /\ threat_alerts ip (cy_alerts c')
       = [alert_entry ip (scored_score r) (get_severity_level (scored_score r))
            (scored_reasons r) st sample].
Proof.
  cbv zeta. revert c.
  induction groups as [|[ip0 es0] rest IH]; intros c Hnd Hin Hq Htr Hnew;
    cbn [detect_loop].
  - apply elem_of_nil in Hin. contradiction.
  - destruct (detect_ip now events c (ip0, es0)) as [c1|] eqn:Hstep; [|discriminate].
    cbn. intros Hloop. cbn in Hnd. apply NoDup_cons in Hnd as [Hfresh Hnd].
    apply elem_of_cons in Hin as [[= -> ->] | Hin].
    + destruct (detect_ip_new_alert now events c ip0 es0 Hq Hnew)
        as (st & sample & c1' & Hst & Hlast & Hstep' & Halerts & _).
      rewrite Hstep in Hstep'. injection Hstep' as <-.
      exists st, sample. split; [exact Hst|]. split; [exact Hlast|].
      destruct (detect_loop_other _ _ _ _ _ _ Hfresh Hloop) as [-> _].
      rewrite Halerts, threat_alerts_snoc.
      rewrite (alerts_tracked_none c ip0 Htr Hnew).
      rewrite bool_decide_eq_true_2 by (split; reflexivity). reflexivity.
    + assert (Hne : ip <> ip0).
      { intros ->. apply Hfresh, list_elem_of_fmap. exists (ip0, es). auto. }
      destruct (detect_ip_other _ _ _ _ _ _ _ Hne Hstep) as [_ Hsame].
      destruct (detect_ip_alerts _ _ _ _ _ _ Htr Hstep) as (Htr1 & _ & _).
      apply (IH c1 Hnd Hin Hq Htr1); [tauto | exact Hloop].
Qed.

(** A key of the threat scores or of the sanctions is left alone by the
    loop, unless it is the key of an address that passes both gates. *)
Lemma detect_loop_key now events groups c c' k :
  detect_loop now events groups c = Some c' ->
  (cy_scores c' !! k = cy_scores c !! k
   /\ sanctions_json (cy_world c') !! k = sanctions_json (cy_world c) !! k)
  \/ exists ip es,
       (ip, es) ∈ groups /\ qualifies now events ip es /\ k = "IP:" +:+ ip.
Proof.
  revert c. induction groups as [|[ip0 es0] rest IH]; intros c; cbn [detect_loop].
  - intros [= <-]. left. split; reflexivity.
  - destruct (detect_ip now events c (ip0, es0)) as [c1|] eqn:Hstep; [|discriminate].
    cbn. intros Hloop.
    destruct (IH c1 Hloop) as [[H1 H2] | (ip & es & Hin & Hq & Hk)].
    2:{ right. exists ip, es. split; [apply list_elem_of_further, Hin | auto]. }
    destruct (detect_ip_spec now events c ip0 es0) as (c'' & Hc'' & Hcases).
    rewrite Hstep in Hc''. injection Hc'' as <-.
    destruct Hcases as [[_ ->] | (Hq & Hsc & Hw & _)]; [left; split; assumption|].
    destruct (decide (k = "IP:" +:+ ip0)) as [->|Hk].
    + right. exists ip0, es0. split; [apply list_elem_of_here | auto].
    + left. rewrite H1, H2, Hsc, Hw, sanctions_sanctioned. split.
      * apply lookup_insert_ne. congruence.
      * destruct (SANCTIONS _); [|reflexivity]. apply lookup_insert_ne. congruence.
Qed.

(** An alert the loop appends is that of an address that passes both
    gates. *)
Lemma detect_loop_added now events groups c c' a :
  detect_loop now events groups c = Some c' ->
  a ∈ cy_alerts c' ->
  a ∈ cy_alerts c
  \/ exists ip es,
       (ip, es) ∈ groups /\ qualifies now events ip es
       /\ al_type a = Some "Threat Detection" /\ al_ip a = Some ip.
Proof.
  revert c. induction groups as [|[ip0 es0] rest IH]; intros c; cbn [detect_loop].
  - intros [= <-]. auto.
  - destruct (detect_ip now events c (ip0, es0)) as [c1|] eqn:Hstep; [|discriminate].
    cbn. intros Hloop Ha.
    destruct (IH c1 Hloop Ha) as [Hin1 | (ip & es & Hin & Hq & Hty & Hip)].
    2:{ right. exists ip, es. split; [apply list_elem_of_further, Hin | auto]. }
    destruct (detect_ip_spec now events c ip0 es0) as (c'' & Hc'' & Hcases).
    rewrite Hstep in Hc''. injection Hc'' as <-.
    destruct Hcases as [[_ ->] | (Hq & _ & _ & [(_ & Hal & _) | (_ & Hadd & _)])].
    + left. exact Hin1.
    + left. rewrite <- Hal. exact Hin1.
    + destruct Hadd as (a' & Hal & Hty & Hip & _). rewrite Hal in Hin1.
      apply elem_of_app in Hin1 as [Hin1 | ->%list_elem_of_singleton];
        [left; exact Hin1|].
      right. exists ip0, es0. split; [apply list_elem_of_here | auto].
Qed.

(** The loop appends no alert when every address that passes both gates
    already has one. *)
Lemma detect_loop_quiet now events groups c c' :
  (forall ip es, (ip, es) ∈ groups -> qualifies now events ip es ->
                 Some ip ∈ cy_alerted_ips c) ->
  detect_loop now events groups c = Some c' ->
  cy_alerts c' = cy_alerts c /\ cy_alerted_ips c' = cy_alerted_ips c.
Proof.
  revert c. induction groups as [|[ip0 es0] rest IH]; intros c Hall; cbn [detect_loop].
  - intros [= <-]. split; reflexivity.
  - destruct (detect_ip now events c (ip0, es0)) as [c1|] eqn:Hstep; [|discriminate].
    cbn. intros Hloop.
    destruct (detect_ip_spec now events c ip0 es0) as (c'' & Hc'' & Hcases).
    rewrite Hstep in Hc''. injection Hc'' as <-.
    assert (Hsame : cy_alerts c1 = cy_alerts c /\ cy_alerted_ips c1 = cy_alerted_ips c).
    { destruct Hcases as [[_ ->] | (Hq & _ & _ & [(_ & Hal & Hs) | (Hnew & _)])];
        [split; reflexivity | split; assumption |].
      exfalso. apply Hnew, (Hall ip0 es0); [apply list_elem_of_here | exact Hq]. }
    destruct Hsame as [Ha Hs].
    destruct (IH c1) as [Ha' Hs']; [|exact Hloop|split; congruence].
    intros ip es Hin Hq. rewrite Hs. apply (Hall ip es); [|exact Hq].
    apply list_elem_of_further, Hin.
Qed.

End CycleFrames.

(** X7. A cycle writes only for the addresses it scores. A key of the threat
    scores or of the sanctions keeps its entry unless it is ["IP:" + ip] for
    an address that is neither empty nor local, has three events in the
    window and scores 31 or more; an alert found afterwards was there before
    or is the "Threat Detection" alert of such an address. Events of local
    addresses and events without address never give a threat score, a
    sanction or an alert. *)
Theorem cycle_writes_only_for_scored_ips `{RT : Runtime} (now : Z)
    (events : list Event) (w : World) :
  exists w',
    Generator.detect_threats_by_ip now events w = Some w'
    /\ (forall k,
          (scores_json w' !! k = scores_json w !! k
           /\ sanctions_json w' !! k = sanctions_json w !! k)
          \/ exists ip,
               k = "IP:" +:+ ip /\ grouped ip
               /\ qualifies now events ip (window_events ip events))
    /\ (forall a, a ∈ alerts_json w' ->
          a ∈ alerts_json w
          \/ exists ip,
               al_type a = Some "Threat Detection" /\ al_ip a = Some ip
               /\ grouped ip /\ qualifies now events ip (window_events ip events))
    /\ (forall ip, ~ grouped ip ->
          scores_json w' !! ("IP:" +:+ ip) = scores_json w !! ("IP:" +:+ ip)
          /\ sanctions_json w' !! ("IP:" +:+ ip) = sanctions_json w !! ("IP:" +:+ ip)
          /\ threat_alerts ip (alerts_json w') = threat_alerts ip (alerts_json w)).
Proof.
  destruct (detect_threats_by_ip_loop now events w) as (c' & Hloop & Hrun).
  eexists. split; [exact Hrun|].
  cbn [alerts_json scores_json sanctions_json save_scores save_alerts].
  assert (Hgroup : forall ip es,
            (ip, es) ∈ Generator.group_by_ip (lastn 1000 events) ->
            grouped ip /\ es = window_events ip events).
  { intros ip es Hin. pose proof (group_by_ip_grouped _ _ _ Hin) as Hg.
    split; [exact Hg|]. apply (window_group ip events es Hg) in Hin. tauto. }
  split_and!.
  - intros k. destruct (detect_loop_key _ _ _ _ _ k Hloop)
      as [H | (ip & es & Hin & Hq & ->)]; [left; exact H|].
    right. exists ip. destruct (Hgroup ip es Hin) as [Hg ->]. auto.
  - intros a Ha. destruct (detect_loop_added _ _ _ _ _ a Hloop Ha)
      as [H | (ip & es & Hin & Hq & Hty & Hip)]; [left; exact H|].
    right. exists ip. destruct (Hgroup ip es Hin) as [Hg ->]. auto.
  - intros ip Hng.
    assert (Hnot : ip ∉ (Generator.group_by_ip (lastn 1000 events)).*1).
    { intros [[ip' es] [Heq Hin]]%list_elem_of_fmap. cbn in Heq. subst ip'.
      apply Hng, (group_by_ip_grouped _ _ _ Hin). }
    destruct (detect_loop_frame _ _ _ _ _ _ Hnot Hloop) as [H1 H2].
    destruct (detect_loop_other _ _ _ _ _ _ Hnot Hloop) as [H3 _].
    auto.
Qed.

(** Witness of X7: the local address of the log of 1001 events. *)
Lemma cycle_writes_only_for_scored_ips_witness :
  exists w',
    Generator.detect_threats_by_ip (RT := Reference.runtime) Scenario.noon
      Scenario.long_log Scenario.empty_world = Some w'
    /\ scores_json w' !! ("IP:" +:+ "192.168.1.10") = None
    /\ sanctions_json w' !! ("IP:" +:+ "192.168.1.10") = None.
Proof.
  destruct (cycle_writes_only_for_scored_ips (RT := Reference.runtime)
              Scenario.noon Scenario.long_log Scenario.empty_world)
    as (w' & Hrun & _ & _ & Hlocal).
  exists w'. split; [exact Hrun|].
  destruct (Hlocal "192.168.1.10") as (H1 & H2 & _).
  { intros [_ H]. vm_compute in H. discriminate. }
  rewrite H1, H2. split; reflexivity.
Defined.

(** X8. An address that is neither empty nor local, has three events in the
    window, scores 31 or more and has no "Threat Detection" alert gets
    exactly one. Its type is "Threat Detection" and its address the one
    scored; its score and reasons are the score and the first three reasons
    the scorer returned, its severity that of the score, which is not LOW;
    its attempts and failed attempts are those of the statistics, the
    numbers of events and of failed events among the 200 most recent of the
    address; its users are as many as the statistics list and its countries
    are the list of the statistics; its date and time are those of the last
    event of the address in the window, empty when that event has none. *)
Theorem new_ip_is_alerted_once `{RT : Runtime} (now : Z) (events : list Event)
    (w : World) (ip : string) :
  grouped ip ->
  qualifies now events ip (window_events ip events) ->
  threat_alerts ip (alerts_json w) = [] ->
  let r := Generator.calculate_threat_score_ip now events ip in
  exists w' st sample a,
    Generator.detect_threats_by_ip now events w = Some w'
    /\ Generator.scored_stats r = Some st
    /\ last (window_events ip events) = Some sample
    /\ threat_alerts ip (alerts_json w') = [a]
    /\ al_type a = Some "Threat Detection"
    /\ al_ip a = Some ip
    /\ al_score a = Generator.scored_score r
    /\ al_severity a = Generator.get_severity_level (Generator.scored_score r)
    /\ al_severity a <> LOW
    /\ al_reasons a = firstn 3 (Generator.scored_reasons r)
    /\ al_total_attempts a = st_total_attempts st
    /\ al_total_attempts a = length (recent_events ip events)
    /\ al_failed_attempts a = st_failed_attempts st
    /\ al_failed_attempts a
       = length (filter (fun e => ev_status e = Some "FAIL") (recent_events ip events))
    /\ al_unique_users a = length (st_unique_users st)
    /\ al_countries a = st_countries st
    /\ al_date a = default "" (ev_date sample)
    /\ al_time a = default "" (ev_time sample).
Proof.
  intros Hg Hq Hnone. cbv zeta.
  destruct (detect_threats_by_ip_loop now events w) as (c' & Hloop & Hrun).
  assert (Hne : window_events ip events <> []).
  { destruct Hq as [Hlen _].
    destruct (window_events ip events); [cbn in Hlen; lia | discriminate]. }
  assert (Hin : (ip, window_events ip events)
                ∈ Generator.group_by_ip (lastn 1000 events)).
  { apply window_group; [exact Hg|]. split; [reflexivity | exact Hne]. }
  assert (Hnew : Some ip ∉ Generator.alerted_ips_of (alerts_json w)).
  { rewrite alerted_ips_of_elem. intros H. exact (H Hnone). }
  destruct (detect_loop_new_alert now events _ _ c' ip _
              (group_by_ip_NoDup _) Hin Hq (alerts_tracked_start _ _ _) Hnew Hloop)
    as (st & sample & Hst & Hlast & Halert).
  assert (Hrecent : recent_events ip events <> []).
  { intros Hnil. unfold recent_events in Hnil. apply lastn_nil in Hnil; [|lia].
    pose proof (window_in_store ip events) as Hle. rewrite Hnil in Hle.
    destruct Hq as [Hlen _]. cbn in Hle. lia. }
  assert (Hstats : st = Generator.stats_of (recent_events ip events)
                          (Generator.tally now (recent_events ip events))
                          (merge_sort Z.le
                             (Generator.times
                                (Generator.tally now (recent_events ip events))))).
  { rewrite (calculate_on_recent now events ip Hrecent), score_recent_stats in Hst.
    injection Hst as <-. reflexivity. }
  destruct (tally_counts now (recent_events ip events)) as (Hfail & _).
  eexists _, st, sample, _. split; [exact Hrun|].
  cbn [alerts_json save_scores save_alerts].
  split; [exact Hst|]. split; [exact Hlast|]. split; [exact Halert|].
  split; [reflexivity|]. split; [reflexivity|]. split; [reflexivity|].
  split; [reflexivity|]. split.
  { destruct Hq as [_ Hscore].
    destruct (sanctions_of_scored _ Hscore) as [cfg Hcfg].
    intros Hlow. cbn [Generator.alert_entry al_severity] in Hlow.
    rewrite Hlow in Hcfg. discriminate. }
  split; [reflexivity|]. split; [reflexivity|].
  split; [rewrite Hstats; reflexivity|].
  split; [reflexivity|].
  split; [rewrite Hstats; exact Hfail|].
  split; [reflexivity|]. split; [reflexivity|]. split; reflexivity.
Qed.

(** Witness of X8: the burst, with no alert stored. *)
Lemma new_ip_is_alerted_once_witness :
  exists w',
    Generator.detect_threats_by_ip (RT := Reference.runtime) Scenario.noon
      Scenario.burst_events Scenario.empty_world = Some w'
    /\ length (threat_alerts "45.12.9.9" (alerts_json w')) = 1%nat.
Proof.
  destruct (new_ip_is_alerted_once (RT := Reference.runtime) Scenario.noon
              Scenario.burst_events Scenario.empty_world "45.12.9.9")
    as (w' & st & sample & a & Hrun & _ & _ & Halert & _).
  - split; [discriminate | reflexivity].
  - split; [vm_compute; lia | apply Qle_bool_iff; vm_compute; reflexivity].
  - reflexivity.
  - exists w'. split; [exact Hrun|]. rewrite Halert. reflexivity.
Defined.

(** X9. A cycle run again on the same events, with the clock unchanged,
    runs to its end and leaves the alerts, the threat scores and the
    sanctions as the first run left them: no alert is duplicated and every
    record is rewritten with the same content. *)
Theorem cycle_is_idempotent `{RT : Runtime} (now : Z) (events : list Event)
    (w w1 : World) :
  Generator.detect_threats_by_ip now events w = Some w1 ->
  exists w2,
    Generator.detect_threats_by_ip now events w1 = Some w2
    /\ alerts_json w2 = alerts_json w1
    /\ scores_json w2 = scores_json w1
    /\ sanctions_json w2 = sanctions_json w1.
Proof.
  intros Hrun1.
  destruct (detect_threats_by_ip_loop now events w) as (c1 & Hloop1 & Hrun1').
  rewrite Hrun1 in Hrun1'. injection Hrun1' as ->.
  destruct (detect_threats_by_ip_loop now events
              (save_scores (Generator.cy_scores c1)
                 (save_alerts (Generator.cy_alerts c1) (Generator.cy_world c1))))
    as (c2 & Hloop2 & Hrun2).
  eexists. split; [exact Hrun2|].
  cbn [alerts_json scores_json sanctions_json save_scores save_alerts] in *.
  set (groups := Generator.group_by_ip (lastn 1000 events)) in *.
  pose proof (group_by_ip_NoDup (lastn 1000 events)) as Hnd. fold groups in Hnd.
  destruct (detect_loop_alerts _ _ _ _ _ (alerts_tracked_start _ _ _) Hloop1)
    as (_ & _ & Hcount).
  cbn [Generator.cy_alerts] in Hcount.
  assert (Hhit : forall ip es, (ip, es) ∈ groups -> qualifies now events ip es ->
            Generator.cy_scores c2 !! ("IP:" +:+ ip)
            = Generator.cy_scores c1 !! ("IP:" +:+ ip)
            /\ sanctions_json (Generator.cy_world c2) !! ("IP:" +:+ ip)
               = sanctions_json (Generator.cy_world c1) !! ("IP:" +:+ ip)).
  { intros ip es Hin Hq.
    destruct (detect_loop_hit _ _ _ _ _ _ _ Hnd Hin Hq Hloop1)
      as (Hs1 & cfg1 & Hcfg1 & H1).
    destruct (detect_loop_hit _ _ _ _ _ _ _ Hnd Hin Hq Hloop2)
      as (Hs2 & cfg2 & Hcfg2 & H2).
    split; [congruence|]. rewrite H1, H2. congruence. }
  split_and!.
  - eapply detect_loop_quiet in Hloop2 as [Ha _]; [exact Ha|].
    intros ip es Hin Hq. cbn [Generator.cy_alerted_ips].
    apply alerted_ips_of_elem.
    destruct (decide (threat_alerts ip (alerts_json w) = [])) as [Hnone|Hsome].
    + assert (Hnew : Some ip ∉ Generator.alerted_ips_of (alerts_json w)).
      { rewrite alerted_ips_of_elem. intros H. exact (H Hnone). }
      destruct (detect_loop_new_alert now events _ _ c1 ip _ Hnd Hin Hq
                  (alerts_tracked_start _ _ _) Hnew Hloop1)
        as (st & sample & _ & _ & ->).
      discriminate.
    + destruct (Hcount ip) as [-> | [H _]]; [exact Hsome | contradiction].
  - apply map_eq. intros k.
    destruct (detect_loop_key _ _ _ _ _ k Hloop2) as [[H _] | (ip & es & Hin & Hq & ->)];
      [exact H | apply (Hhit ip es Hin Hq)].
  - apply map_eq. intros k.
    destruct (detect_loop_key _ _ _ _ _ k Hloop2) as [[_ H] | (ip & es & Hin & Hq & ->)];
      [exact H | apply (Hhit ip es Hin Hq)].
Qed.

(** Witness of X9: the burst, twice. *)
Lemma cycle_is_idempotent_witness :
  exists w1 w2,
    Generator.detect_threats_by_ip (RT := Reference.runtime) Scenario.noon
      Scenario.burst_events Scenario.empty_world = Some w1
    /\ Generator.detect_threats_by_ip (RT := Reference.runtime) Scenario.noon
         Scenario.burst_events w1 = Some w2
    /\ alerts_json w2 = alerts_json w1
    /\ length (alerts_json w1) = 1%nat.
Proof.
  destruct (Generator.detect_threats_by_ip (RT := Reference.runtime) Scenario.noon
              Scenario.burst_events Scenario.empty_world) as [w1|] eqn:Hrun1.
  - destruct (cycle_is_idempotent (RT := Reference.runtime) Scenario.noon
                Scenario.burst_events Scenario.empty_world w1 Hrun1)
      as (w2 & Hrun2 & Ha & _).
    exists w1, w2. split; [reflexivity|]. split; [exact Hrun2|].
    split; [exact Ha|].
    vm_compute in Hrun1. injection Hrun1 as <-. reflexivity.
  - vm_compute in Hrun1. discriminate.
Defined.

(** X10. A manual lift does not outlive the next cycle that scores the
    address: for an address that passes both gates, the cycle stores a
    sanction that is active again, whether it was lifted or not. *)
Theorem lifted_sanction_is_restored `{RT : Runtime} (now : Z) (events : list Event)
    (w : World) (ip : string) :
  grouped ip ->
  qualifies now events ip (window_events ip events) ->
  let lifted := (Dashboard.remove_sanction (Some "IP") (Some ip) w).2 in
  (forall s0, sanctions_json w !! ("IP:" +:+ ip) = Some s0 ->
     (sn_active <$> sanctions_json lifted !! ("IP:" +:+ ip)) = Some false)
  /\ exists w' s,
       Generator.detect_threats_by_ip now events lifted = Some w'
       /\ sanctions_json w' !! ("IP:" +:+ ip) = Some s
       /\ sn_active s = true
       /\ sn_severity s
          = Generator.get_severity_level
              (Generator.scored_score (Generator.calculate_threat_score_ip now events ip)).
Proof.
  intros Hg Hq lifted. split.
  - intros s0 Hs0. subst lifted. unfold Dashboard.remove_sanction.
    destruct Hg as [Hne _]. destruct ip as [|ch rest]; [contradiction|].
    cbn [truthy]. unfold load_sanctions.
    change ("IP" +:+ ":" +:+ String ch rest) with ("IP:" +:+ String ch rest).
    rewrite Hs0. cbn [snd sanctions_json save_sanctions].
    rewrite lookup_insert_eq. reflexivity.
  - destruct (detect_threats_by_ip_loop now events lifted) as (c' & Hloop & Hrun).
    assert (Hin : (ip, window_events ip events)
                  ∈ Generator.group_by_ip (lastn 1000 events)).
    { apply window_group; [exact Hg|]. split; [reflexivity|].
      destruct Hq as [Hlen _].
      destruct (window_events ip events); [cbn in Hlen; lia | discriminate]. }
    destruct (detect_loop_hit _ _ _ _ _ _ _ (group_by_ip_NoDup _) Hin Hq Hloop)
      as (_ & cfg & _ & Hs).
    eexists _, _. split; [exact Hrun|].
    cbn [sanctions_json save_scores save_alerts].
    split; [exact Hs|]. split; reflexivity.
Qed.

(** Witness of X10: the burst after the lift of a sanction of its address. *)
Lemma lifted_sanction_is_restored_witness :
  let w := (Generator.apply_sanction (RT := Reference.runtime) 0 "IP" "45.12.9.9"
              45 MEDIUM [] Generator.zero_components Scenario.empty_world) in
  let lifted := (Dashboard.remove_sanction (Some "IP") (Some "45.12.9.9") w).2 in
  (sn_active <$> sanctions_json lifted !! "IP:45.12.9.9") = Some false
  /\ exists w' s,
       Generator.detect_threats_by_ip (RT := Reference.runtime) Scenario.noon
         Scenario.burst_events lifted = Some w'
       /\ sanctions_json w' !! ("IP:" +:+ "45.12.9.9") = Some s
       /\ sn_active s = true.
Proof.
  intros w lifted.
  destruct (lifted_sanction_is_restored (RT := Reference.runtime) Scenario.noon
              Scenario.burst_events w "45.12.9.9")
    as (Hlift & w' & s & Hrun & Hs & Hact & _).
  - split; [discriminate | reflexivity].
  - split; [vm_compute; lia | apply Qle_bool_iff; vm_compute; reflexivity].
  - split; [vm_compute; reflexivity|].
    exists w', s. auto.
Defined.

(** * The event store *)

(** X11. After an event is recorded the store holds 2000 events at most,
    the new event last; what it holds is the end of the events it had,
    followed by the new one, and a full store loses its oldest event. *)
Theorem event_store_is_bounded (events : list Event) (event : Event) :
  let events' := Generator.record_event events event in
  length events' = Nat.min 2000 (S (length events))
  /\ last events' = Some event
  /\ events' `suffix_of` (events ++ [event])
  /\ ((length events < 2000)%nat -> events' = events ++ [event])
  /\ (length events = 2000%nat -> events' = tail events ++ [event]).
Proof.
  intros events'. subst events'. unfold Generator.record_event, Generator.keep_recent.
  assert (Hlen : length (events ++ [event]) = S (length events)).
  { rewrite length_app. cbn. lia. }
  destruct (Nat.ltb_spec 2000 (length (events ++ [event]))) as [Hbig|Hsmall].
  - rewrite Hlen in Hbig.
    assert (Hdrop : lastn 2000 (events ++ [event])
                    = drop (length events - 1999) events ++ [event]).
    { unfold lastn. rewrite Hlen, drop_app_le by lia. f_equal. }
    rewrite Hdrop. split_and!.
    + rewrite length_app, length_drop. cbn [length]. lia.
    + apply last_snoc.
    + exists (take (length events - 1999) events).
      rewrite app_assoc, take_drop. reflexivity.
    + intros H. lia.
    + intros H. rewrite H. destruct events; reflexivity.
  - rewrite Hlen in Hsmall. split_and!.
    + rewrite Hlen. lia.
    + apply last_snoc.
    + reflexivity.
    + reflexivity.
    + intros H. lia.
Qed.

(** Witness of X11: an event recorded in a full store. *)
Lemma event_store_is_bounded_witness :
  length (Generator.record_event (repeat Scenario.lan_event 2000) Scenario.early_event)
  = 2000%nat.
Proof.
  pose proof (event_store_is_bounded (repeat Scenario.lan_event 2000)
                Scenario.early_event) as H.
  cbv zeta in H. destruct H as (H & _). rewrite H, repeat_length. reflexivity.
Defined.

(** * Further properties of the dashboard *)

Section ReconciliationMore.
Context `{RT : Runtime}.
Import Dashboard.

Lemma set_severity_twice sev s : set_severity sev (set_severity sev s) = set_severity sev s.
Proof. reflexivity. Qed.

(** The files after a reconciliation: the sanctions are the cleaned ones,
    saved or not; the rest is untouched. *)
Lemma get_sanctions_files now w :
  sanctions_json (get_sanctions now w).2 = (get_sanctions now w).1
  /\ scores_json (get_sanctions now w).2 = scores_json w
  /\ alerts_json (get_sanctions now w).2 = alerts_json w.
Proof.
  destruct (existsb
              (fun '(entity, sanction) =>
                 (review_sanction now (scores_json w) entity sanction).2)
              (map_to_list (sanctions_json w))) eqn:Hch.
  - unfold get_sanctions, load_sanctions, load_scores. rewrite Hch.
    split_and!; reflexivity.
  - assert (Hsame : (get_sanctions now w).1 = sanctions_json w).
    { apply map_eq. intros entity. rewrite get_sanctions_cleaned.
      destruct (sanctions_json w !! entity) as [s|] eqn:Hs; [|reflexivity].
      cbn. apply review_sanction_changed. apply not_true_is_false. intros Ht.
      assert (Hex : existsb
                (fun '(entity, sanction) =>
                   (review_sanction now (scores_json w) entity sanction).2)
                (map_to_list (sanctions_json w)) = true); [|congruence].
      apply existsb_exists. exists (entity, s).
      split; [apply list_elem_of_In, elem_of_map_to_list; exact Hs | exact Ht]. }
    rewrite Hsame. unfold get_sanctions, load_sanctions, load_scores. rewrite Hch.
    split_and!; reflexivity.
Qed.

(** A sanction that a pass keeps is kept as it is by a pass that follows
    with the same clock and the same scores. *)
Lemma review_sanction_settled now scores entity s s' :
  (review_sanction now scores entity s).1 = Some s' ->
  (review_sanction now scores entity s').1 = Some s'.
Proof.
  rewrite !review_sanction_kept.
  destruct (scores !! entity) as [threat|]; [|discriminate].
  destruct (Qltb (ts_score threat) 31); [discriminate|].
  assert (Hexp : forall s0, Some (set_severity (get_severity_level (ts_score threat)) s)
                            = Some s0 -> sn_expires_at s0 = sn_expires_at s).
  { intros s0 [= <-]. reflexivity. }
  destruct (truthy (sn_expires_at s) ≫= fromisoformat) as [expires|] eqn:E.
  - destruct (Z.gtb now expires) eqn:Eg; [discriminate|].
    intros H. rewrite (Hexp _ H), E, Eg. injection H as <-. reflexivity.
  - intros H. rewrite (Hexp _ H), E. injection H as <-. reflexivity.
Qed.

(** The reconciliation treats a lifted sanction as it treats the active
    one. *)
Lemma review_sanction_lifted now scores entity s :
  (review_sanction now scores entity (deactivate s)).1
  = deactivate <$> (review_sanction now scores entity s).1.
Proof.
  rewrite !review_sanction_kept.
  destruct (scores !! entity) as [threat|]; [|reflexivity].
  destruct (Qltb (ts_score threat) 31); [reflexivity|].
  cbn [deactivate sn_expires_at].
  destruct (truthy (sn_expires_at s) ≫= fromisoformat) as [expires|];
    [destruct (Z.gtb now expires)|]; reflexivity.
Qed.

End ReconciliationMore.

(** X12. A reconciliation pass that follows another, with the same clock,
    answers the same cleaned collection and saves nothing: the files and the
    log of saves stay as the first pass left them. *)
Theorem reconciliation_is_idempotent `{RT : Runtime} (now : Z) (w : World) :
  let cleaned := (Dashboard.get_sanctions now w).1 in
  let w1 := (Dashboard.get_sanctions now w).2 in
  Dashboard.get_sanctions now w1 = (cleaned, w1).
Proof.
  intros cleaned w1.
  destruct (get_sanctions_files now w) as (Hsn & Hsc & _).
  fold w1 in Hsn, Hsc. fold cleaned in Hsn.
  assert (Hkeep : forall entity s', cleaned !! entity = Some s' ->
            (Dashboard.review_sanction now (scores_json w) entity s').1 = Some s').
  { intros entity s' Hk. subst cleaned. rewrite get_sanctions_cleaned in Hk.
    destruct (sanctions_json w !! entity) as [s|]; [|discriminate]. cbn in Hk.
    apply (review_sanction_settled now _ entity s s' Hk). }
  assert (Hcleaned : (Dashboard.get_sanctions now w1).1 = cleaned).
  { apply map_eq. intros entity. rewrite get_sanctions_cleaned, Hsn, Hsc.
    destruct (cleaned !! entity) as [s'|] eqn:Hk; [|reflexivity].
    cbn. apply Hkeep, Hk. }
  assert (Hquiet : existsb
            (fun '(entity, sanction) =>
               (Dashboard.review_sanction now (scores_json w1) entity sanction).2)
            (map_to_list (sanctions_json w1)) = false).
  { apply not_true_is_false. intros Hex. apply get_sanctions_changed in Hex.
    destruct Hex as (entity & s' & Hs' & Hne). apply Hne.
    rewrite Hcleaned. rewrite Hsn in Hs'. exact Hs'. }
  rewrite <- Hcleaned at 1.
  unfold Dashboard.get_sanctions at 1. unfold load_sanctions, load_scores.
  rewrite Hquiet. reflexivity.
Qed.

(** X13. The reconciliation pass does not look at the [active] flag: after
    a manual lift it keeps or drops the lifted sanction as it would have
    kept or dropped the active one, and a lifted sanction it keeps stays
    lifted; the other sanctions are reconciled as without the lift. *)
Theorem reconciliation_keeps_lift `{RT : Runtime} (now : Z) (w : World)
    (s_type value : string) (s : Sanction) :
  s_type <> "" -> value <> "" ->
  let key := s_type +:+ ":" +:+ value in
  sanctions_json w !! key = Some s ->
  let lifted := (Dashboard.remove_sanction (Some s_type) (Some value) w).2 in
  (Dashboard.get_sanctions now lifted).1 !! key
  = Dashboard.deactivate <$> (Dashboard.get_sanctions now w).1 !! key
  /\ (forall s', (Dashboard.get_sanctions now lifted).1 !! key = Some s' ->
                 sn_active s' = false)
  /\ (forall other, other <> key ->
        (Dashboard.get_sanctions now lifted).1 !! other
        = (Dashboard.get_sanctions now w).1 !! other).
Proof.
  intros Ht Hv key Hs lifted.
  assert (Hlifted : lifted
            = save_sanctions (<[key := Dashboard.deactivate s]> (sanctions_json w)) w).
  { subst lifted. unfold Dashboard.remove_sanction.
    destruct s_type; [contradiction|]. destruct value; [contradiction|].
    cbn [truthy]. unfold load_sanctions. fold key. rewrite Hs. reflexivity. }
  assert (Hkey : (Dashboard.get_sanctions now lifted).1 !! key
                 = Dashboard.deactivate <$> (Dashboard.get_sanctions now w).1 !! key).
  { rewrite !get_sanctions_cleaned, Hlifted. cbn [sanctions_json scores_json save_sanctions].
    rewrite lookup_insert_eq, Hs. cbn. apply review_sanction_lifted. }
  split_and!.
  - exact Hkey.
  - intros s' Hs'. rewrite Hkey in Hs'.
    destruct ((Dashboard.get_sanctions now w).1 !! key); [|discriminate].
    injection Hs' as <-. reflexivity.
  - intros other Hne. rewrite !get_sanctions_cleaned, Hlifted.
    cbn [sanctions_json scores_json save_sanctions].
    rewrite lookup_insert_ne by congruence. reflexivity.
Qed.

(** Witness of X13: the current sanction of 5.39.4.4, lifted, at noon. *)
Lemma reconciliation_keeps_lift_witness :
  let lifted := (Dashboard.remove_sanction (Some "IP") (Some "5.39.4.4")
                   Scenario.sanctioned_world).2 in
  (sn_active <$> (Dashboard.get_sanctions (RT := Reference.runtime) Scenario.noon
                    lifted).1 !! ("IP" +:+ ":" +:+ "5.39.4.4")) = Some false.
Proof.
  intros lifted.
  destruct (reconciliation_keeps_lift (RT := Reference.runtime) Scenario.noon
              Scenario.sanctioned_world "IP" "5.39.4.4"
              (Scenario.sanction_for "5.39.4.4" 45 (Some "2024-03-01T13:00:00")))
    as (Hkey & _ & _); [discriminate | discriminate | vm_compute; reflexivity |].
  fold lifted in Hkey. rewrite Hkey. vm_compute. reflexivity.
Defined.

(** X14. A manual lift without a type or without a value, absent or empty,
    answers 400 and neither reads nor writes a file. *)
Theorem manual_lift_without_parameters (s_type value : option string) (w : World) :
  truthy s_type = None \/ truthy value = None ->
  Dashboard.remove_sanction s_type value w = (Dashboard.MissingParameters, w)
  /\ Dashboard.status_code (Dashboard.remove_sanction s_type value w).1 = 400%nat.
Proof.
  intros H. unfold Dashboard.remove_sanction.
  destruct (truthy s_type), (truthy value), H; try discriminate; split; reflexivity.
Qed.

(** Witness of X14: an empty value. *)
Lemma manual_lift_without_parameters_witness :
  Dashboard.remove_sanction (Some "IP") (Some "") Scenario.sanctioned_world
  = (Dashboard.MissingParameters, Scenario.sanctioned_world).
Proof.
  apply (manual_lift_without_parameters (Some "IP") (Some "") Scenario.sanctioned_world).
  right. reflexivity.
Defined.

Section Statistics.
Import Dashboard.

Lemma histogram_of_list (l : list (string * ThreatScore)) :
  let h := foldr (uncurry (fun (_ : string) score_data c =>
                             count_severity (ts_severity score_data) c))
             {| n_low := 0; n_medium := 0; n_high := 0; n_critical := 0 |} l in
  n_low h = length (filter (fun kv : string * ThreatScore => ts_severity kv.2 = LOW) l)
  /\ n_medium h
     = length (filter (fun kv : string * ThreatScore => ts_severity kv.2 = MEDIUM) l)
  /\ n_high h
     = length (filter (fun kv : string * ThreatScore => ts_severity kv.2 = HIGH) l)
  /\ n_critical h
     = length (filter (fun kv : string * ThreatScore => ts_severity kv.2 = CRITICAL) l).
Proof.
  cbv zeta. induction l as [|[k t] l (IH1 & IH2 & IH3 & IH4)].
  - split_and!; reflexivity.
  - cbn [foldr uncurry]. rewrite !filter_cons. cbn [snd].
    destruct (ts_severity t) eqn:E; cbn [count_severity n_low n_medium n_high n_critical];
      repeat (destruct (decide _) as [?|?]; try discriminate; try contradiction);
      cbn [length]; split_and!; congruence.
Qed.

Lemma severity_partition (l : list (string * ThreatScore)) :
  (length (filter (fun kv : string * ThreatScore => ts_severity kv.2 = LOW) l)
   + length (filter (fun kv : string * ThreatScore => ts_severity kv.2 = MEDIUM) l)
   + length (filter (fun kv : string * ThreatScore => ts_severity kv.2 = HIGH) l)
   + length (filter (fun kv : string * ThreatScore => ts_severity kv.2 = CRITICAL) l)
   = length l)%nat.
Proof.
  induction l as [|[k t] l IH]; [reflexivity|].
  rewrite !filter_cons. cbn [snd].
  destruct (ts_severity t);
    repeat (destruct (decide _) as [?|?]; try discriminate; try contradiction);
    cbn [length]; lia.
Qed.

Lemma severity_histogram_counts scores :
  n_low (severity_histogram scores) = threats_of_severity LOW scores
  /\ n_medium (severity_histogram scores) = threats_of_severity MEDIUM scores
  /\ n_high (severity_histogram scores) = threats_of_severity HIGH scores
  /\ n_critical (severity_histogram scores) = threats_of_severity CRITICAL scores.
Proof.
  unfold severity_histogram, threats_of_severity. rewrite map_fold_foldr.
  apply histogram_of_list.
Qed.

Lemma statuses_are_exclusive (events : list Event) :
  (length (filter (fun e => ev_status e = Some "FAIL") events)
   + length (filter (fun e => ev_status e = Some "SUCCESS") events)
   <= length events)%nat.
Proof.
  induction events as [|e events IH]; [reflexivity|].
  rewrite !filter_cons.
  destruct (decide (ev_status e = Some "FAIL")) as [Hf|Hf];
    destruct (decide (ev_status e = Some "SUCCESS")) as [Hs|Hs]; cbn [length]; try lia.
  rewrite Hf in Hs. discriminate.
Qed.

Lemma rate_bounds (s t : nat) :
  (s <= t)%nat ->
  (0 <= round2 (if Nat.eqb t 0 then 0%Q
                else float_mul
                       (float_div (inject_Z (Z.of_nat s)) (inject_Z (Z.of_nat t)))
                       100)
   <= 100)%Q.
Proof.
  intros Hle.
  assert (Hx : (0 <= (if Nat.eqb t 0 then 0%Q
                      else float_mul
                             (float_div (inject_Z (Z.of_nat s)) (inject_Z (Z.of_nat t)))
                             100)
                <= 100)%Q).
  { destruct (Nat.eqb_spec t 0) as [->|Hne]; [lra|].
    assert (Ht : (0 < inject_Z (Z.of_nat t))%Q).
    { change 0%Q with (inject_Z 0). rewrite <- Zlt_Qlt. lia. }
    assert (H0 : (0 <= inject_Z (Z.of_nat s) / inject_Z (Z.of_nat t))%Q).
    { apply Qle_shift_div_l; [exact Ht|]. rewrite Qmult_0_l.
      change 0%Q with (inject_Z 0). rewrite <- Zle_Qle. lia. }
    assert (H1 : (inject_Z (Z.of_nat s) / inject_Z (Z.of_nat t) <= 1)%Q).
    { apply Qle_shift_div_r; [exact Ht|]. rewrite Qmult_1_l.
      rewrite <- Zle_Qle. lia. }
    assert (Hq : (0 <= float_div (inject_Z (Z.of_nat s)) (inject_Z (Z.of_nat t))
                  <= 1)%Q).
    { unfold float_div. apply float_between; [reflexivity | reflexivity |].
      split; assumption. }
    set (q := float_div _ _) in *. clearbody q.
    unfold float_mul. apply float_between; [reflexivity | reflexivity |]. lra. }
  set (x := if Nat.eqb t 0 then _ else _) in *. clearbody x.
  split; [apply round2_nonneg, Hx|].
  assert (Hr : round_half_even (x * 100) <= 10000).
  { apply round_half_even_le. change (inject_Z 10000) with (10000 # 1)%Q. lra. }
  unfold round2, Qle. simpl. lia.
Qed.

End Statistics.

(** X15. The figures of [get_stats] agree with one another: failed and
    successful logins together are at most the number of events, as are the
    distinct addresses; the success rate is between 0 and 100, and is 0 when
    there is no event, where the division is not made; each severity
    counter is the number of stored threats of that severity, so the four
    add up to the number of threats. *)
Theorem stats_are_consistent (events : list Event) (w : World) :
  let stats := Dashboard.get_stats events w in
  let counts := Dashboard.severity_counts stats in
  (Dashboard.failed_logins stats + Dashboard.success_logins stats
   <= Dashboard.total_events stats)%nat
  /\ (Dashboard.unique_ips stats <= Dashboard.total_events stats)%nat
  /\ (0 <= Dashboard.success_rate stats <= 100)%Q
  /\ (events = [] -> Dashboard.success_rate stats = (0 # 100)%Q)
  /\ Dashboard.n_low counts = threats_of_severity LOW (scores_json w)
  /\ Dashboard.n_medium counts = threats_of_severity MEDIUM (scores_json w)
  /\ Dashboard.n_high counts = threats_of_severity HIGH (scores_json w)
  /\ Dashboard.n_critical counts = threats_of_severity CRITICAL (scores_json w)
  /\ (Dashboard.n_low counts + Dashboard.n_medium counts + Dashboard.n_high counts
      + Dashboard.n_critical counts = Dashboard.total_threats stats)%nat.
Proof.
  cbv zeta.
  unfold Dashboard.get_stats, load_scores, load_alerts.
  cbn [Dashboard.failed_logins Dashboard.success_logins Dashboard.total_events
       Dashboard.unique_ips Dashboard.success_rate Dashboard.severity_counts
       Dashboard.total_threats].
  pose proof (severity_histogram_counts (scores_json w)) as (H1 & H2 & H3 & H4).
  split_and!.
  - apply statuses_are_exclusive.
  - etransitivity; [apply size_list_to_set_le | apply length_omap_le].
  - apply rate_bounds. pose proof (statuses_are_exclusive events). lia.
  - apply rate_bounds. pose proof (statuses_are_exclusive events). lia.
  - intros ->. reflexivity.
  - exact H1.
  - exact H2.
  - exact H3.
  - exact H4.
  - rewrite H1, H2, H3, H4. unfold threats_of_severity.
    rewrite severity_partition. apply length_map_to_list.
Qed.

(** X16. [get_events] gives every event its seven keys and changes no key
    an event has, an empty value included: a complete event is answered as
    it is, so normalising twice is normalising once, and the answer has one
    event per stored event. *)
Theorem events_get_defaults (events : list Event) :
  length (Dashboard.get_events events) = length events
  /\ Dashboard.get_events (Dashboard.get_events events) = Dashboard.get_events events
  /\ (forall e, complete e -> Dashboard.with_defaults e = e)
  /\ (forall i e, events !! i = Some e ->
        exists e', Dashboard.get_events events !! i = Some e'
                   /\ complete e' /\ extends e e').
Proof.
  assert (Hcomplete : forall e, complete e -> Dashboard.with_defaults e = e).
  { intros [d t i u s a c] H. unfold complete, fields in H. cbn in H.
    repeat (apply Forall_cons in H as [[? ->] H]). reflexivity. }
  assert (Hfilled : forall e, complete (Dashboard.with_defaults e)).
  { intros e. unfold complete, fields. cbn. repeat constructor; eauto. }
  split_and!.
  - unfold Dashboard.get_events. apply length_fmap.
  - unfold Dashboard.get_events. rewrite <- list_fmap_compose.
    apply list_fmap_ext. intros i e _. cbn. apply Hcomplete, Hfilled.
  - exact Hcomplete.
  - intros i e He. exists (Dashboard.with_defaults e). split_and!.
    + unfold Dashboard.get_events. rewrite list_lookup_fmap, He. reflexivity.
    + apply Hfilled.
    + unfold extends, fields. cbn.
      repeat (constructor; [intros v ->; reflexivity|]). constructor.
Qed.

Section AfterCycle.
Context `{RT : Runtime}.

Lemma severity_levels_agree score :
  Dashboard.get_severity_level score = Generator.get_severity_level score.
Proof. reflexivity. Qed.

(** What a cycle leaves in the files for an address that passes both
    gates. *)
Lemma cycle_stores now events w w' ip :
  let r := Generator.calculate_threat_score_ip now events ip in
  grouped ip ->
  qualifies now events ip (window_events ip events) ->
  Generator.detect_threats_by_ip now events w = Some w' ->
  scores_json w' !! ("IP:" +:+ ip) = Some (threat_of ip r)
  /\ exists cfg,
       Generator.SANCTIONS (Generator.get_severity_level (Generator.scored_score r))
       = Some cfg
       /\ sanctions_json w' !! ("IP:" +:+ ip)
          = Some (Generator.sanction_entry now cfg "IP" ip (Generator.scored_score r)
                    (Generator.get_severity_level (Generator.scored_score r))
                    (Generator.scored_reasons r) (Generator.scored_components r)).
Proof.
  intros r Hg Hq Hrun.
  destruct (detect_threats_by_ip_loop now events w) as (c' & Hloop & Hrun').
  rewrite Hrun in Hrun'. injection Hrun' as ->.
  cbn [scores_json sanctions_json save_scores save_alerts].
  assert (Hne : window_events ip events <> []).
  { destruct Hq as [Hlen _].
    destruct (window_events ip events); [cbn in Hlen; lia | discriminate]. }
  assert (Hin : (ip, window_events ip events)
                ∈ Generator.group_by_ip (lastn 1000 events)).
  { apply window_group; [exact Hg|]. split; [reflexivity | exact Hne]. }
  apply (detect_loop_hit _ _ _ _ _ _ _ (group_by_ip_NoDup _) Hin Hq Hloop).
Qed.

End AfterCycle.

(** X17. What [get_ip_details] answers after a detection cycle: for an
    address that passed both gates, the threat record the cycle computed
    (200); for an address with fewer than three events in the window and no
    record before, "IP not found" (404); without an address, or with an
    empty one, the 400 answer whatever the files hold. *)
Theorem ip_details_after_cycle `{RT : Runtime} (now : Z) (events : list Event)
    (w : World) (ip : string) :
  grouped ip ->
  exists w',
    Generator.detect_threats_by_ip now events w = Some w'
    /\ (qualifies now events ip (window_events ip events) ->
          Dashboard.get_ip_details (Some ip) w'
          = Dashboard.IpDetails
              (threat_of ip (Generator.calculate_threat_score_ip now events ip)))
    /\ ((length (window_events ip events) < 3)%nat ->
        scores_json w !! ("IP:" +:+ ip) = None ->
        Dashboard.get_ip_details (Some ip) w' = Dashboard.IpNotFound)
    /\ Dashboard.get_ip_details None w' = Dashboard.MissingIp
    /\ Dashboard.get_ip_details (Some "") w' = Dashboard.MissingIp.
Proof.
  intros Hg.
  destruct (detect_threats_by_ip_loop now events w) as (c' & Hloop & Hrun).
  eexists. split; [exact Hrun|].
  assert (Htruthy : truthy (Some ip) = Some ip).
  { apply truthy_Some. split; [reflexivity | apply Hg]. }
  split_and!.
  - intros Hq. unfold Dashboard.get_ip_details. rewrite Htruthy. cbv zeta.
    unfold load_scores.
    destruct (cycle_stores now events w _ ip Hg Hq Hrun) as [-> _]. reflexivity.
  - intros Hlen Hnone. unfold Dashboard.get_ip_details. rewrite Htruthy. cbv zeta.
    unfold load_scores. cbn [scores_json save_scores save_alerts].
    apply (detect_loop_skip _ _ _ _ _ ip) in Hloop as [Hsc _].
    + rewrite Hsc. cbn [Generator.cy_scores]. rewrite Hnone. reflexivity.
    + intros es Hin [Hes _]. apply window_group in Hin as [-> _]; [lia | exact Hg].
  - reflexivity.
  - reflexivity.
Qed.

(** Witness of X17: the bursting address of the long log. *)
Lemma ip_details_after_cycle_witness :
  exists w',
    Generator.detect_threats_by_ip (RT := Reference.runtime) Scenario.noon
      Scenario.long_log Scenario.empty_world = Some w'
    /\ Dashboard.details_code (Dashboard.get_ip_details (Some "45.12.9.9") w') = 200%nat.
Proof.
  destruct (ip_details_after_cycle (RT := Reference.runtime) Scenario.noon
              Scenario.long_log Scenario.empty_world "45.12.9.9")
    as (w' & Hrun & Hhit & _).
  { split; [discriminate | reflexivity]. }
  exists w'. split; [exact Hrun|]. rewrite Hhit; [reflexivity|].
  split.
  - vm_compute. lia.
  - apply Qle_bool_iff. vm_compute. reflexivity.
Defined.

(** X18. A sanction a cycle has just applied survives the reconciliation of
    the dashboard, unchanged and active, as long as the clock of the
    dashboard has not passed the shortest expiry, one hour after the cycle:
    the record the cycle stored has a score of at least 31, the severity the
    dashboard recomputes is the one the cycle wrote, and the expiry reads
    back as the instant that was written. *)
Theorem fresh_sanction_survives `{RT : Runtime} (now later : Z)
    (events : list Event) (w w' : World) (ip : string) :
  grouped ip ->
  qualifies now events ip (window_events ip events) ->
  (forall d, d ∈ [60; 180] ->
     fromisoformat (isoformat (now + minutes d)) = Some (now + minutes d)) ->
  later <= now + minutes 60 ->
  Generator.detect_threats_by_ip now events w = Some w' ->
  exists s,
    sanctions_json w' !! ("IP:" +:+ ip) = Some s
    /\ sn_active s = true
    /\ (Dashboard.get_sanctions later w').1 !! ("IP:" +:+ ip) = Some s.
Proof.
  intros Hg Hq Hiso Hlater Hrun.
  destruct (cycle_stores now events w w' ip Hg Hq Hrun) as (Hsc & cfg & Hcfg & Hsn).
  eexists. split; [exact Hsn|]. split; [reflexivity|].
  rewrite get_sanctions_cleaned, Hsn. cbn [mbind option_bind].
  rewrite review_sanction_kept, Hsc.
  set (r := Generator.calculate_threat_score_ip now events ip) in *.
  assert (Hscore : ts_score (threat_of ip r) = Generator.scored_score r) by reflexivity.
  rewrite Hscore.
  assert (H31 : Qltb (Generator.scored_score r) 31 = false).
  { apply Qltb_false. apply Hq. }
  rewrite H31.
  assert (Hsame : Dashboard.set_severity
                    (Dashboard.get_severity_level (Generator.scored_score r))
                    (Generator.sanction_entry now cfg "IP" ip (Generator.scored_score r)
                       (Generator.get_severity_level (Generator.scored_score r))
                       (Generator.scored_reasons r) (Generator.scored_components r))
                  = Generator.sanction_entry now cfg "IP" ip (Generator.scored_score r)
                       (Generator.get_severity_level (Generator.scored_score r))
                       (Generator.scored_reasons r) (Generator.scored_components r)).
  { reflexivity. }
  rewrite Hsame.
  assert (Hexp : forall expires,
            truthy (sn_expires_at
                      (Generator.sanction_entry now cfg "IP" ip (Generator.scored_score r)
                         (Generator.get_severity_level (Generator.scored_score r))
                         (Generator.scored_reasons r) (Generator.scored_components r)))
            ≫= fromisoformat = Some expires ->
            later <= expires).
  { intros expires. cbn [Generator.sanction_entry sn_expires_at].
    destruct (Generator.get_severity_level (Generator.scored_score r));
      cbn in Hcfg; try discriminate; injection Hcfg as <-;
      cbn [Generator.cfg_duration_minutes Z.eqb].
    - destruct (truthy (Some (isoformat (now + minutes 60)))) as [text|] eqn:Et;
        [|discriminate].
      apply truthy_Some in Et as [[= <-] _]. cbn [mbind option_bind].
      rewrite Hiso by (rewrite !elem_of_cons; tauto). intros [= <-]. lia.
    - destruct (truthy (Some (isoformat (now + minutes 180)))) as [text|] eqn:Et;
        [|discriminate].
      apply truthy_Some in Et as [[= <-] _]. cbn [mbind option_bind].
      rewrite Hiso by (rewrite !elem_of_cons; tauto). intros [= <-].
      unfold minutes in *. lia.
    - cbn. discriminate. }
  destruct (truthy _ ≫= fromisoformat) as [expires|] eqn:E; [|reflexivity].
  specialize (Hexp expires eq_refl).
  destruct (Z.gtb_spec later expires); [lia | reflexivity].
Qed.

(** Witness of X18: the cycle at noon on the long log, and the dashboard
    half an hour later. *)
Lemma fresh_sanction_survives_witness :
  exists w' s,
    Generator.detect_threats_by_ip (RT := Reference.runtime) Scenario.noon
      Scenario.long_log Scenario.empty_world = Some w'
    /\ (Dashboard.get_sanctions (RT := Reference.runtime)
          (Scenario.noon + minutes 30) w').1 !! ("IP:" +:+ "45.12.9.9") = Some s
    /\ sn_active s = true.
Proof.
  destruct (Generator.detect_threats_by_ip (RT := Reference.runtime) Scenario.noon
              Scenario.long_log Scenario.empty_world) as [w'|] eqn:Hrun.
  - destruct (fresh_sanction_survives (RT := Reference.runtime) Scenario.noon
                (Scenario.noon + minutes 30) Scenario.long_log Scenario.empty_world
                w' "45.12.9.9") as (s & _ & Hact & Hkept).
    + split; [discriminate | reflexivity].
    + split; [vm_compute; lia | apply Qle_bool_iff; vm_compute; reflexivity].
    + intros d Hd. rewrite !elem_of_cons, elem_of_nil in Hd.
      destruct Hd as [->|[->|[]]]; vm_compute; reflexivity.
    + vm_compute. discriminate.
    + exact Hrun.
    + exists w', s. split_and!; [reflexivity | exact Hkept | exact Hact].
  - exfalso. vm_compute in Hrun. discriminate.
Defined.

Section Dictionaries.
Import Dashboard.

Lemma entry_of_elem {A} k (v : A) d : entry_of k d = Some v -> (k, v) ∈ d.
Proof.
  induction d as [|[k' v'] rest IH]; cbn [entry_of]; [discriminate|].
  destruct (String.eqb_spec k' k) as [->|Hk].
  - intros [= ->]. apply list_elem_of_here.
  - intros H. apply list_elem_of_further, IH, H.
Qed.

Lemma elem_entry_of {A} k (v : A) d :
  NoDup d.*1 -> (k, v) ∈ d -> entry_of k d = Some v.
Proof.
  induction d as [|[k' v'] rest IH]; intros Hnd Hin; cbn [entry_of].
  - apply elem_of_nil in Hin. contradiction.
  - cbn in Hnd. apply NoDup_cons in Hnd as [Hfresh Hnd].
    apply elem_of_cons in Hin as [[= -> ->] | Hin].
    + rewrite String.eqb_refl. reflexivity.
    + destruct (String.eqb_spec k' k) as [->|Hk]; [|apply IH; assumption].
      exfalso. apply Hfresh. apply list_elem_of_fmap. exists (k, v). auto.
Qed.

Lemma entry_of_keys {A} k (d : list (string * A)) :
  k ∈ d.*1 <-> is_Some (entry_of k d).
Proof.
  induction d as [|[k' v'] rest IH]; cbn [entry_of fmap list_fmap fst].
  - split; [intros H; apply elem_of_nil in H; contradiction | intros [? [=]]].
  - fold (@fmap list _ _ _ (@fst string A)).
    destruct (String.eqb_spec k' k) as [->|Hk].
    + split; [eauto | intros _; apply list_elem_of_here].
    + rewrite elem_of_cons, IH. split; [intros [?|?]; congruence | auto].
Qed.

(** *** Counters *)

Lemma entry_of_bump k k' d :
  entry_of k (bump k' d)
  = if String.eqb k' k then Some (S (default 0%nat (entry_of k d)))
    else entry_of k d.
Proof.
  induction d as [|[k0 n] rest IH]; cbn [bump entry_of].
  - destruct (String.eqb k' k); reflexivity.
  - destruct (String.eqb_spec k0 k') as [->|H0]; cbn [entry_of].
    + destruct (String.eqb_spec k' k); reflexivity.
    + rewrite IH.
      destruct (String.eqb_spec k0 k) as [->|H1]; [|reflexivity].
      destruct (String.eqb_spec k' k); [congruence | reflexivity].
Qed.

Lemma bump_keys k d :
  (bump k d).*1 = if bool_decide (k ∈ d.*1) then d.*1 else d.*1 ++ [k].
Proof.
  induction d as [|[k0 n] rest IH]; cbn [bump fmap list_fmap fst].
  - reflexivity.
  - destruct (String.eqb_spec k0 k) as [->|Hk]; cbn [fmap list_fmap fst].
    + rewrite bool_decide_eq_true_2 by apply list_elem_of_here. reflexivity.
    + fold (@fmap list _ _ _ (@fst string nat)). rewrite IH.
      destruct (bool_decide_reflect (k ∈ rest.*1)) as [Hin|Hin].
      * rewrite bool_decide_eq_true_2 by (apply list_elem_of_further, Hin).
        reflexivity.
      * rewrite bool_decide_eq_false_2; [reflexivity|].
        intros [?|?]%elem_of_cons; congruence.
Qed.

Lemma bump_NoDup k d : NoDup d.*1 -> NoDup (bump k d).*1.
Proof.
  intros Hnd. rewrite bump_keys. case_bool_decide as Hin; [exact Hnd|].
  apply NoDup_app. split_and!; [exact Hnd | | apply NoDup_singleton].
  intros x Hx ->%list_elem_of_singleton. contradiction.
Qed.

Lemma count_countries_snoc events e :
  count_countries (events ++ [e])
  = bump (default "Unknown" (ev_country e)) (count_countries events).
Proof. unfold count_countries. rewrite fold_left_app. reflexivity. Qed.

Lemma count_countries_NoDup events : NoDup (count_countries events).*1.
Proof.
  induction events as [|e events IH] using rev_ind.
  - apply NoDup_nil_2.
  - rewrite count_countries_snoc. apply bump_NoDup, IH.
Qed.

(** The counter of a country is the number of its events, and there is
    none for a country without event. *)
Lemma count_countries_entry c events :
  entry_of c (count_countries events)
  = match length (events_of_country c events) with
    | O => None
    | S n => Some (S n)
    end.
Proof.
  induction events as [|e events IH] using rev_ind; [reflexivity|].
  rewrite count_countries_snoc, entry_of_bump, IH.
  unfold events_of_country. rewrite filter_app, length_app, filter_cons, filter_nil.
  destruct (String.eqb_spec (default "Unknown" (ev_country e)) c) as [Hc|Hc].
  - rewrite decide_True by exact Hc. cbn [length].
    destruct (length (filter _ events)); cbn; f_equal; lia.
  - rewrite decide_False by exact Hc. cbn [length]. rewrite Nat.add_0_r. reflexivity.
Qed.

(** *** Sorting by decreasing count *)

Lemma insert_desc_perm x l : insert_desc x l ≡ₚ x :: l.
Proof.
  induction l as [|y rest IH]; cbn [insert_desc]; [reflexivity|].
  destruct (Nat.ltb y.2 x.2); [reflexivity|].
  rewrite IH. apply perm_swap.
Qed.

Lemma sorted_desc_snoc l x : sorted_desc (l ++ [x]) = insert_desc x (sorted_desc l).
Proof. unfold sorted_desc. rewrite fold_left_app. reflexivity. Qed.

Lemma sorted_desc_perm l : sorted_desc l ≡ₚ l.
Proof.
  induction l as [|x l IH] using rev_ind; [reflexivity|].
  rewrite sorted_desc_snoc, insert_desc_perm, IH. apply Permutation_cons_append.
Qed.

Lemma insert_desc_sorted x l :
  StronglySorted decreasing l -> StronglySorted decreasing (insert_desc x l).
Proof.
  induction l as [|y rest IH]; intros Hs; cbn [insert_desc].
  - constructor; constructor.
  - apply StronglySorted_inv in Hs as [Hrest Hy].
    destruct (Nat.ltb_spec y.2 x.2) as [Hlt|Hge].
    + constructor; [constructor; assumption|].
      constructor; [unfold decreasing; lia|].
      eapply Forall_impl; [exact Hy|]. unfold decreasing. intros z Hz. cbn in Hz. lia.
    + constructor; [apply IH, Hrest|].
      eapply Permutation_Forall; [symmetry; apply insert_desc_perm|].
      constructor; [exact Hge | exact Hy].
Qed.

Lemma sorted_desc_sorted l : StronglySorted decreasing (sorted_desc l).
Proof.
  induction l as [|x l IH] using rev_ind; [constructor|].
  rewrite sorted_desc_snoc. apply insert_desc_sorted, IH.
Qed.

(** The ten pairs kept are pairs of the dictionary, under distinct keys,
    and no pair left out has a larger count than a pair kept. *)
Lemma top10_spec (l : list (string * nat)) :
  NoDup l.*1 ->
  (length (top10 l) <= 10)%nat
  /\ NoDup (top10 l).*1
  /\ (forall x, x ∈ top10 l -> x ∈ l)
  /\ (forall x, x ∈ l -> x ∉ top10 l ->
        length (top10 l) = 10%nat /\ forall y, y ∈ top10 l -> (x.2 <= y.2)%nat).
Proof.
  intros Hnd. unfold top10.
  pose proof (sorted_desc_perm l) as Hperm.
  pose proof (sorted_desc_sorted l) as Hsorted.
  split_and!.
  - rewrite length_take. lia.
  - rewrite fmap_take. eapply sublist_NoDup; [|apply sublist_take].
    rewrite Hperm. exact Hnd.
  - intros x Hx. rewrite <- Hperm. eapply subseteq_take, Hx.
  - intros x Hx Hout. rewrite <- Hperm in Hx.
    rewrite <- (take_drop 10 (sorted_desc l)) in Hx, Hsorted.
    apply elem_of_app in Hx as [Hx|Hx]; [contradiction|].
    split.
    + rewrite length_take.
      assert (Hlen : (0 < length (drop 10 (sorted_desc l)))%nat).
      { destruct (drop 10 (sorted_desc l)); [apply elem_of_nil in Hx; contradiction|].
        cbn. lia. }
      rewrite length_drop in Hlen. lia.
    + intros y Hy.
      apply (StronglySorted_app_1_elem_of _ _ _ y x Hsorted Hy Hx).
Qed.

(** *** Per-address counters *)

Lemma entry_of_ip_stat_update ip ip' e d :
  entry_of ip (ip_stat_update ip' e d)
  = if String.eqb ip' ip
    then Some (ip_stat_event e (default new_ip_stat (entry_of ip d)))
    else entry_of ip d.
Proof.
  induction d as [|[k0 st] rest IH]; cbn [ip_stat_update entry_of].
  - destruct (String.eqb ip' ip); reflexivity.
  - destruct (String.eqb_spec k0 ip') as [->|H0]; cbn [entry_of].
    + destruct (String.eqb_spec ip' ip); reflexivity.
    + rewrite IH.
      destruct (String.eqb_spec k0 ip) as [->|H1]; [|reflexivity].
      destruct (String.eqb_spec ip' ip); [congruence | reflexivity].
Qed.

Lemma ip_stat_update_keys ip e d :
  (ip_stat_update ip e d).*1 = if bool_decide (ip ∈ d.*1) then d.*1 else d.*1 ++ [ip].
Proof.
  induction d as [|[k0 st] rest IH]; cbn [ip_stat_update fmap list_fmap fst].
  - reflexivity.
  - destruct (String.eqb_spec k0 ip) as [->|Hk]; cbn [fmap list_fmap fst].
    + rewrite bool_decide_eq_true_2 by apply list_elem_of_here. reflexivity.
    + fold (@fmap list _ _ _ (@fst string IpStat)). rewrite IH.
      destruct (bool_decide_reflect (ip ∈ rest.*1)) as [Hin|Hin].
      * rewrite bool_decide_eq_true_2 by (apply list_elem_of_further, Hin).
        reflexivity.
      * rewrite bool_decide_eq_false_2; [reflexivity|].
        intros [?|?]%elem_of_cons; congruence.
Qed.

Lemma collect_ip_stats_snoc events e :
  collect_ip_stats (events ++ [e])
  = match truthy (ev_ip e) with
    | Some ip => ip_stat_update ip e (collect_ip_stats events)
    | None => collect_ip_stats events
    end.
Proof. unfold collect_ip_stats. rewrite fold_left_app. reflexivity. Qed.

Lemma collect_ip_stats_NoDup events : NoDup (collect_ip_stats events).*1.
Proof.
  induction events as [|e events IH] using rev_ind.
  - apply NoDup_nil_2.
  - rewrite collect_ip_stats_snoc.
    destruct (truthy (ev_ip e)) as [ip|]; [|exact IH].
    rewrite ip_stat_update_keys. case_bool_decide as Hin; [exact IH|].
    apply NoDup_app. split_and!; [exact IH | | apply NoDup_singleton].
    intros x Hx ->%list_elem_of_singleton. contradiction.
Qed.

(** The addresses that have an entry are the non-empty addresses of the
    events. *)
Lemma collect_ip_stats_keys ip events :
  ip ∈ (collect_ip_stats events).*1
  <-> ip ∈ omap (fun e => truthy (ev_ip e)) events.
Proof.
  induction events as [|e events IH] using rev_ind; [reflexivity|].
  rewrite collect_ip_stats_snoc, omap_app, elem_of_app.
  assert (Hone : omap (fun e => truthy (ev_ip e)) [e]
                 = match truthy (ev_ip e) with Some ip' => [ip'] | None => [] end).
  { cbn. destruct (truthy (ev_ip e)); reflexivity. }
  rewrite Hone. clear Hone.
  destruct (truthy (ev_ip e)) as [ip'|].
  - rewrite ip_stat_update_keys. case_bool_decide as Hin.
    + rewrite IH, list_elem_of_singleton. split; [auto|].
      intros [H| ->]; [exact H | apply IH, Hin].
    + rewrite elem_of_app, IH. reflexivity.
  - rewrite IH, elem_of_nil. tauto.
Qed.

(** The entry of an address counts its events, its failures and its
    successes. *)
Lemma collect_ip_stats_entry ip events :
  ip <> "" ->
  match entry_of ip (collect_ip_stats events) with
  | None => events_of_ip ip events = []
  | Some st =>
      ips_total st = length (events_of_ip ip events)
      /\ (1 <= ips_total st)%nat
      /\ ips_failed st
         = length (filter (fun e => ev_status e = Some "FAIL") (events_of_ip ip events))
      /\ ips_success st
         = length (filter (fun e => ev_status e = Some "SUCCESS") (events_of_ip ip events))
  end.
Proof.
  intros Hip.
  induction events as [|e events IH] using rev_ind; [reflexivity|].
  rewrite collect_ip_stats_snoc.
  unfold events_of_ip in *. rewrite filter_app, filter_cons, filter_nil.
  destruct (truthy (ev_ip e)) as [ip'|] eqn:Et.
  - apply truthy_Some in Et as [Hev Hne]. rewrite entry_of_ip_stat_update.
    destruct (String.eqb_spec ip' ip) as [->|Hd].
    + rewrite decide_True by exact Hev.
      rewrite !filter_app, !length_app, !filter_cons, !filter_nil.
      destruct (entry_of ip (collect_ip_stats events)) as [st|].
      * destruct IH as (H1 & H2 & H3 & H4).
        cbn [default ip_stat_event ips_total ips_failed ips_success id].
        destruct (decide (ev_status e = Some "FAIL")) as [Hf|Hf];
          destruct (decide (ev_status e = Some "SUCCESS")) as [Hs|Hs];
          try (rewrite Hf in Hs; discriminate);
          rewrite ?(bool_decide_eq_true_2 _ Hf), ?(bool_decide_eq_false_2 _ Hf),
            ?(bool_decide_eq_true_2 _ Hs), ?(bool_decide_eq_false_2 _ Hs);
          cbn [length]; split_and!; lia.
      * rewrite IH.
        cbn [default ip_stat_event new_ip_stat ips_total ips_failed ips_success id].
        rewrite !filter_nil.
        destruct (decide (ev_status e = Some "FAIL")) as [Hf|Hf];
          destruct (decide (ev_status e = Some "SUCCESS")) as [Hs|Hs];
          try (rewrite Hf in Hs; discriminate);
          rewrite ?(bool_decide_eq_true_2 _ Hf), ?(bool_decide_eq_false_2 _ Hf),
            ?(bool_decide_eq_true_2 _ Hs), ?(bool_decide_eq_false_2 _ Hs);
          cbn [length app]; split_and!; lia.
    + rewrite decide_False by congruence. rewrite app_nil_r. exact IH.
  - assert (Hev : ev_ip e <> Some ip).
    { intros Hev. rewrite Hev in Et. destruct ip; [contradiction | discriminate]. }
    rewrite decide_False by exact Hev. rewrite app_nil_r. exact IH.
Qed.

Lemma pairs_of_stats (f : IpStat -> nat) (d : list (string * IpStat)) :
  ((fun '(ip, data) => (ip, f data)) <$> d).*1 = d.*1
  /\ forall ip n,
       (ip, n) ∈ ((fun '(ip, data) => (ip, f data)) <$> d : list (string * nat))
       <-> exists st, (ip, st) ∈ d /\ n = f st.
Proof.
  split.
  - rewrite <- list_fmap_compose. apply list_fmap_ext. intros i [k st] _. reflexivity.
  - intros ip n. rewrite list_elem_of_fmap. split.
    + intros ([k st] & [= -> ->] & Hin). eauto.
    + intros (st & Hin & ->). exists (ip, st). split; [reflexivity | exact Hin].
Qed.

End Dictionaries.

Section CountrySums.
Import Dashboard.

Lemma bump_sum k d : sum_list_with snd (bump k d) = S (sum_list_with snd d).
Proof.
  induction d as [|[k0 n] rest IH]; cbn [bump]; [reflexivity|].
  destruct (String.eqb k0 k); cbn [sum_list_with snd]; [lia|].
  rewrite IH. lia.
Qed.

(** Every event is counted once. *)
Lemma count_countries_sum events :
  sum_list_with snd (count_countries events) = length events.
Proof.
  induction events as [|e events IH] using rev_ind; [reflexivity|].
  rewrite count_countries_snoc, bump_sum, IH, length_app. cbn. lia.
Qed.

End CountrySums.

(** X19. The countries [get_advanced_statistics] answers: at most ten,
    each once, each with the number of events of that country, an event
    without country counting for "Unknown"; a country with events that is
    left out is left out because ten are listed, none of them with fewer
    events; and with at most ten countries in the events nothing is left
    out, the counts adding up to the number of events. *)
Theorem top_countries_are_the_most_frequent (events : list Event) (w : World) :
  let top := Dashboard.adv_top_countries (Dashboard.get_advanced_statistics events w) in
  (length top <= 10)%nat
  /\ NoDup top.*1
  /\ (forall c n, (c, n) ∈ top ->
        n = length (events_of_country c events) /\ (1 <= n)%nat)
  /\ (forall c, events_of_country c events <> [] -> c ∉ top.*1 ->
        length top = 10%nat
        /\ forall c' n', (c', n') ∈ top ->
             (length (events_of_country c events) <= n')%nat)
  /\ ((length (Dashboard.count_countries events) <= 10)%nat ->
        sum_list_with snd top = length events).
Proof.
  cbv zeta. cbn [Dashboard.get_advanced_statistics Dashboard.adv_top_countries].
  destruct (top10_spec (Dashboard.count_countries events) (count_countries_NoDup events))
    as (Hlen & Hnd & Hin & Hout).
  split_and!.
  - exact Hlen.
  - exact Hnd.
  - intros c n Hc. apply Hin in Hc.
    apply elem_entry_of in Hc; [|apply count_countries_NoDup].
    rewrite count_countries_entry in Hc.
    destruct (length (events_of_country c events)); [discriminate|].
    injection Hc as <-. split; [reflexivity | lia].
  - intros c Hc Hnot.
    pose proof (count_countries_entry c events) as He.
    destruct (events_of_country c events) as [|e0 rest] eqn:El; [contradiction|].
    cbn [length] in He. apply entry_of_elem in He.
    destruct (Hout _ He) as [H10 Hle].
    { intros Htop. apply Hnot. apply list_elem_of_fmap. exists (c, S (length rest)).
      split; [reflexivity | exact Htop]. }
    split; [exact H10|]. intros c' n' Hc'. apply (Hle (c', n') Hc').
  - intros Hfew. unfold Dashboard.top10. rewrite take_ge.
    + rewrite sorted_desc_perm. apply count_countries_sum.
    + rewrite sorted_desc_perm. exact Hfew.
Qed.

(** Witness of X19: Russia, second in the long log with its four events. *)
Lemma top_countries_are_the_most_frequent_witness :
  ("RU", 4%nat) ∈ Dashboard.adv_top_countries
                    (Dashboard.get_advanced_statistics Scenario.long_log
                       Scenario.empty_world)
  /\ 4%nat = length (events_of_country "RU" Scenario.long_log).
Proof.
  assert (Hin : ("RU", 4%nat) ∈ Dashboard.adv_top_countries
                    (Dashboard.get_advanced_statistics Scenario.long_log
                       Scenario.empty_world)).
  { apply (list_elem_of_lookup_2 _ 1). vm_compute. reflexivity. }
  split; [exact Hin|].
  destruct (top_countries_are_the_most_frequent Scenario.long_log
              Scenario.empty_world) as (_ & _ & Hcount & _).
  apply (Hcount "RU" 4%nat Hin).
Defined.

(** X20. The per-address figures of [get_advanced_statistics] agree with
    the other endpoints on the same events and files: it counts the
    addresses, events, alerts and threats that [get_stats] counts; an
    address listed with [n] attempts is one for which [get_events_by_ip]
    answers [n] events, and one listed with [n] failures has [n] failed
    events among them; at most ten addresses are listed, and an address
    with events that is left out has no more events than any listed one. *)
Theorem ip_statistics_agree (events : list Event) (w : World) :
  let adv := Dashboard.get_advanced_statistics events w in
  let stats := Dashboard.get_stats events w in
  Dashboard.adv_unique_ips adv = Dashboard.unique_ips stats
  /\ Dashboard.adv_total_events adv = Dashboard.total_events stats
  /\ Dashboard.adv_total_alerts adv = Dashboard.total_alerts stats
  /\ Dashboard.adv_total_threats adv = Dashboard.total_threats stats
  /\ Dashboard.adv_threats_by_severity adv = Dashboard.severity_counts stats
  /\ (forall ip n, (ip, n) ∈ Dashboard.adv_top_ips_attempts adv ->
        (1 <= n)%nat
        /\ exists l, Dashboard.get_events_by_ip (Some ip) events = Some l
                     /\ length l = n)
  /\ (forall ip n, (ip, n) ∈ Dashboard.adv_top_ips_failures adv ->
        exists l, Dashboard.get_events_by_ip (Some ip) events = Some l
                  /\ length (filter (fun e => ev_status e = Some "FAIL") l) = n)
  /\ (length (Dashboard.adv_top_ips_attempts adv) <= 10)%nat
  /\ (length (Dashboard.adv_top_ips_failures adv) <= 10)%nat
  /\ (forall ip, ip <> "" -> events_of_ip ip events <> [] ->
        ip ∉ (Dashboard.adv_top_ips_attempts adv).*1 ->
        length (Dashboard.adv_top_ips_attempts adv) = 10%nat
        /\ forall ip' n', (ip', n') ∈ Dashboard.adv_top_ips_attempts adv ->
             (length (events_of_ip ip events) <= n')%nat).
Proof.
  cbv zeta.
  cbn [Dashboard.get_advanced_statistics Dashboard.get_stats
       Dashboard.adv_unique_ips Dashboard.adv_total_events Dashboard.adv_total_alerts
       Dashboard.adv_total_threats Dashboard.adv_threats_by_severity
       Dashboard.adv_top_ips_attempts Dashboard.adv_top_ips_failures
       Dashboard.unique_ips Dashboard.total_events Dashboard.total_alerts
       Dashboard.total_threats Dashboard.severity_counts].
  set (d := Dashboard.collect_ip_stats events).
  pose proof (collect_ip_stats_NoDup events) as Hnd. fold d in Hnd.
  destruct (pairs_of_stats Dashboard.ips_total d) as [Hk1 Hp1].
  destruct (pairs_of_stats Dashboard.ips_failed d) as [Hk2 Hp2].
  set (attempts := (fun '(ip, data) => (ip, Dashboard.ips_total data)) <$> d) in *.
  set (failures := (fun '(ip, data) => (ip, Dashboard.ips_failed data)) <$> d) in *.
  assert (Hnd1 : NoDup attempts.*1) by (rewrite Hk1; exact Hnd).
  assert (Hnd2 : NoDup failures.*1) by (rewrite Hk2; exact Hnd).
  destruct (top10_spec attempts Hnd1) as (Hlen1 & _ & Hin1 & Hout1).
  destruct (top10_spec failures Hnd2) as (Hlen2 & _ & Hin2 & _).
  assert (Hkey : forall ip st, (ip, st) ∈ d ->
            ip <> "" /\ entry_of ip d = Some st).
  { intros ip st Hin. split.
    - assert (Hm : ip ∈ d.*1).
      { apply list_elem_of_fmap. exists (ip, st). split; [reflexivity | exact Hin]. }
      apply collect_ip_stats_keys, list_elem_of_omap in Hm as (e & _ & He).
      apply truthy_Some in He. apply He.
    - apply elem_entry_of; assumption. }
  assert (Hby : forall ip, ip <> "" ->
            Dashboard.get_events_by_ip (Some ip) events = Some (events_of_ip ip events)).
  { intros ip Hip. unfold Dashboard.get_events_by_ip.
    assert (Ht : truthy (Some ip) = Some ip) by (apply truthy_Some; auto).
    rewrite Ht. reflexivity. }
  split_and!; try reflexivity.
  - unfold size, set_size. cbn.
    rewrite <- (length_fmap fst d). apply Permutation_length.
    apply NoDup_Permutation; [exact Hnd | apply NoDup_elements|].
    intros ip. rewrite elem_of_elements, elem_of_list_to_set.
    apply collect_ip_stats_keys.
  - intros ip n Hin. apply Hin1, Hp1 in Hin as (st & Hst & ->).
    apply Hkey in Hst as [Hip Hst].
    pose proof (collect_ip_stats_entry ip events Hip) as He. fold d in He.
    rewrite Hst in He. destruct He as (H1 & H2 & _).
    split; [exact H2|]. exists (events_of_ip ip events).
    split; [apply Hby, Hip | congruence].
  - intros ip n Hin. apply Hin2, Hp2 in Hin as (st & Hst & ->).
    apply Hkey in Hst as [Hip Hst].
    pose proof (collect_ip_stats_entry ip events Hip) as He. fold d in He.
    rewrite Hst in He. destruct He as (_ & _ & H3 & _).
    exists (events_of_ip ip events). split; [apply Hby, Hip | congruence].
  - exact Hlen1.
  - exact Hlen2.
  - intros ip Hip Hev Hnot.
    pose proof (collect_ip_stats_entry ip events Hip) as He. fold d in He.
    destruct (entry_of ip d) as [st|] eqn:Hst; [|contradiction].
    destruct He as (H1 & _). apply entry_of_elem in Hst.
    assert (Hpair : (ip, length (events_of_ip ip events)) ∈ attempts).
    { apply Hp1. exists st. split; [exact Hst | congruence]. }
    destruct (Hout1 _ Hpair) as [H10 Hle].
    { intros Htop. apply Hnot. apply list_elem_of_fmap.
      exists (ip, length (events_of_ip ip events)). split; [reflexivity | exact Htop]. }
    split; [exact H10|]. intros ip' n' Hin'. apply (Hle (ip', n') Hin').
Qed.

(** Witness of X20: the bursting address in the long log, second with its
    four attempts. *)
Lemma ip_statistics_agree_witness :
  ("45.12.9.9", 4%nat) ∈ Dashboard.adv_top_ips_attempts
                           (Dashboard.get_advanced_statistics Scenario.long_log
                              Scenario.empty_world)
  /\ exists l, Dashboard.get_events_by_ip (Some "45.12.9.9") Scenario.long_log = Some l
               /\ length l = 4%nat.
Proof.
  assert (Hin : ("45.12.9.9", 4%nat) ∈ Dashboard.adv_top_ips_attempts
                           (Dashboard.get_advanced_statistics Scenario.long_log
                              Scenario.empty_world)).
  { apply (list_elem_of_lookup_2 _ 1). vm_compute. reflexivity. }
  split; [exact Hin|].
  destruct (ip_statistics_agree Scenario.long_log Scenario.empty_world)
    as (_ & _ & _ & _ & _ & Hattempts & _).
  apply (Hattempts "45.12.9.9" 4%nat Hin).
Defined.

(** X21. The total score is never negative and never above 100, whatever
    the six blocks add up to; an address without event in the list scores 0
    with no reason, no component and no statistics, and an address with
    events always has its statistics. *)
Theorem total_score_range `{RT : Runtime}
    (exp_le_1 : forall x, (x < 0)%Q -> (exp x <= 1)%Q)
    (now : Z) (events : list Event) (ip : string) :
  let r := Generator.calculate_threat_score_ip now events ip in
  (0 <= Generator.scored_score r <= 100)%Q
  /\ (events_of_ip ip events = [] ->
        r = (0%Q, [], Generator.zero_components, None))
  /\ (events_of_ip ip events <> [] -> is_Some (Generator.scored_stats r)).
Proof.
  cbv zeta. unfold Generator.calculate_threat_score_ip, events_of_ip.
  destruct (filter _ events) as [|e l] eqn:Hf.
  - split_and!; [cbn; lra | cbn; lra | reflexivity | intros H; contradiction].
  - pose proof (score_recent_components exp_le_1 now (lastn 200 (e :: l))) as H.
    cbv zeta in H. destruct H as (H1 & H2 & H3 & H4 & H5 & H6 & _ & H8).
    pose proof (score_recent_stats now (lastn 200 (e :: l))) as Hst.
    set (r := Generator.score_recent now (lastn 200 (e :: l))) in *.
    assert (Hsum : (0 <= Generator.sum_components (Generator.scored_components r))%Q).
    { unfold Generator.sum_components, Qsum. cbn [fold_left]. lra. }
    split_and!.
    + rewrite H8. apply py_min_ge; [apply round2_nonneg, Hsum | lra].
    + rewrite H8. unfold py_min.
      destruct (Qltb 100 _) eqn:E; [lra | apply Qltb_false in E; exact E].
    + discriminate.
    + intros _. rewrite Hst. eauto.
Qed.

(** Witness of X21: the reference runtime on the long log. *)
Lemma total_score_range_witness :
  (0 <= Generator.scored_score
          (Generator.calculate_threat_score_ip (RT := Reference.runtime) Scenario.noon
             Scenario.long_log "45.12.9.9") <= 100)%Q.
Proof.
  pose proof (total_score_range (RT := Reference.runtime) Reference_exp_le_1
                Scenario.noon Scenario.long_log "45.12.9.9") as H.
  cbv zeta in H. destruct H as (H & _). exact H.
Defined.

(** X22. [get_events_by_ip] answers 400 without an address or with an
    empty one. With an address it answers the events of that address in the
    whole list: the group the detection cycle forms for the address is the
    end of this answer, and all of it when the list has at most 1000
    events, and the events the scorer reads are its last 200. *)
Theorem events_by_ip_cover_the_window (events : list Event) (ip : string) :
  Dashboard.get_events_by_ip None events = None
  /\ Dashboard.get_events_by_ip (Some "") events = None
  /\ (ip <> "" ->
      exists l,
        Dashboard.get_events_by_ip (Some ip) events = Some l
        /\ (forall e, e ∈ l <-> e ∈ events /\ ev_ip e = Some ip)
        /\ (exists older, l = older ++ window_events ip events)
        /\ ((length events <= 1000)%nat -> l = window_events ip events)
        /\ recent_events ip events = lastn 200 l).
Proof.
  split_and!; [reflexivity | reflexivity |].
  intros Hip. exists (filter (fun e => ev_ip e = Some ip) events).
  split_and!.
  - unfold Dashboard.get_events_by_ip.
    assert (Ht : truthy (Some ip) = Some ip) by (apply truthy_Some; auto).
    rewrite Ht. reflexivity.
  - intros e. rewrite list_elem_of_filter. tauto.
  - exists (filter (fun e => ev_ip e = Some ip) (take (length events - 1000) events)).
    unfold window_events, lastn. rewrite <- filter_app, take_drop. reflexivity.
  - intros Hlen. unfold window_events, lastn.
    replace (length events - 1000)%nat with 0%nat by lia. reflexivity.
  - reflexivity.
Qed.

(** Witness of X22: the bursting address in the long log. *)
Lemma events_by_ip_cover_the_window_witness :
  exists l,
    Dashboard.get_events_by_ip (Some "45.12.9.9") Scenario.long_log = Some l
    /\ recent_events "45.12.9.9" Scenario.long_log = lastn 200 l.
Proof.
  destruct (events_by_ip_cover_the_window Scenario.long_log "45.12.9.9")
    as (_ & _ & H).
  destruct H as (l & Hl & _ & _ & _ & Hrecent); [discriminate|].
  exists l. split; [exact Hl | exact Hrecent].
Defined.
